(** * cct: module runtime (cct/module.py)

    A shallow embedding of the module runtime of cct: variable
    substitution, environment lookup, operation dispatch, the module
    runner, artifact retrieval, module discovery and the shell-script
    introspector, together with the properties the specification states
    about them. *)

From Stdlib Require Import String Ascii List Bool Arith Lia.
From stdpp Require Import base option list strings gmap.

Local Open Scope string_scope.
Local Open Scope list_scope.

(** ** Python string primitives used by the runtime *)

Module Py.

(** [s[1:]] *)
Definition tail (s : string) : string :=
  match s with
  | EmptyString => EmptyString
  | String _ r => r
  end.

(** [s.startswith(p)] *)
Definition startswith (p s : string) : bool := String.prefix p s.

(** [c in s] for a one-character string [c] *)
Fixpoint has_char (c : ascii) (s : string) : bool :=
  match s with
  | EmptyString => false
  | String a r => if Ascii.eqb a c then true else has_char c r
  end.

(** [sub in s] *)
Fixpoint contains (sub s : string) : bool :=
  if String.prefix sub s then true
  else match s with
       | EmptyString => false
       | String _ r => contains sub r
       end.

(** [s.split(c)] for a one-character separator: the pieces between
    the separators, empty pieces included; never the empty list. *)
Fixpoint split (c : ascii) (s : string) : list string :=
  match s with
  | EmptyString => [EmptyString]
  | String a r =>
      if Ascii.eqb a c then EmptyString :: split c r
      else match split c r with
           | [] => [String a EmptyString]
           | t :: ts => String a t :: ts
           end
  end.

(** [s.split(c, 1)]: [None] when [c] does not occur, otherwise the text
    before and after its first occurrence. *)
Fixpoint split_once (c : ascii) (s : string) : option (string * string) :=
  match s with
  | EmptyString => None
  | String a r =>
      if Ascii.eqb a c then Some (EmptyString, r)
      else match split_once c r with
           | Some (k, v) => Some (String a k, v)
           | None => None
           end
  end.

(** The characters [str.strip()] and [str.split()] treat as blank. *)
Definition is_space (a : ascii) : bool :=
  let n := nat_of_ascii a in
  Nat.eqb n 32 || (Nat.leb 9 n && Nat.leb n 13).

Fixpoint lstrip (s : string) : string :=
  match s with
  | EmptyString => EmptyString
  | String a r => if is_space a then lstrip r else s
  end.

Fixpoint rstrip (s : string) : string :=
  match s with
  | EmptyString => EmptyString
  | String a r =>
      match rstrip r with
      | EmptyString => if is_space a then EmptyString else String a EmptyString
      | r' => String a r'
      end
  end.

(** [s.strip()] *)
Definition strip (s : string) : string := rstrip (lstrip s).

(** [s.split()]: the maximal runs of non-blank characters. [cur] is the
    run being read, reversed. *)
Fixpoint words_aux (cur : list ascii) (s : string) : list string :=
  let flush rest :=
    match cur with
    | [] => rest
    | _ => string_of_list_ascii (rev cur) :: rest
    end in
  match s with
  | EmptyString => flush []
  | String a r =>
      if is_space a then flush (words_aux [] r)
      else words_aux (a :: cur) r
  end.

Definition words (s : string) : list string := words_aux [] s.

(** [s[:-n]] for [n > 0] *)
Definition drop_end (n : nat) (s : string) : string :=
  String.substring 0 (String.length s - n) s.

(** [s.endswith(p)] *)
Definition endswith (p s : string) : bool :=
  Nat.leb (String.length p) (String.length s) &&
  String.eqb (String.substring (String.length s - String.length p)
                               (String.length p) s) p.

(** [sep.join(l)] *)
Fixpoint join (sep : string) (l : list string) : string :=
  match l with
  | [] => EmptyString
  | [x] => x
  | x :: rest => x +:+ sep +:+ join sep rest
  end.

(** The last character of a string, if any. *)
Fixpoint last_char (s : string) : option ascii :=
  match s with
  | EmptyString => None
  | String a EmptyString => Some a
  | String _ r => last_char r
  end.

(** A dictionary value is true in a condition when it is present and
    not the empty string: [if d.get(k):]. *)
Definition truthy (v : option string) : bool :=
  match v with
  | Some (String _ _) => true
  | _ => false
  end.

(** A string with no blank character at either end. *)
Definition unpadded (s : string) : Prop :=
  match s with
  | EmptyString => True
  | String a _ => is_space a = false
  end
  /\ match last_char s with
     | Some a => is_space a = false
     | None => True
     end.

End Py.

(** ** Environment lookup and variable substitution (class [Module]) *)

Module Env.

Section WithEnvironments.

(** [os.environ], the environment of the host process. *)
Variable environ : gmap string string.
(** [self.environment], the mapping the module declares. *)
Variable environment : gmap string string.

(** [Module.getenv(name, default)]; [None] is Python's [None]. *)
Definition getenv (name : string) (default : option string) : option string :=
  if Py.truthy (environ !! name) then environ !! name
  else match environment !! name with
       | Some v => Some v
       | None => default
       end.

(** The body of the loop of [_replace_variables]: what one token
    becomes before it is appended to the result. *)
Definition replace_token (token : string) : string :=
  if Py.startswith "$" token then
    let var_name := Py.tail token in
    if Py.truthy (environ !! var_name) then default token (environ !! var_name)
    else if Py.truthy (environment !! var_name) then default token (environment !! var_name)
    else token
  else token.

(** What the loop of [_replace_variables] appends for a list of
    tokens. *)
Fixpoint emit (tokens : list string) : string :=
  match tokens with
  | [] => ""
  | t :: rest => replace_token t +:+ " " +:+ emit rest
  end.

(** [Module._replace_variables(string)] *)
Definition _replace_variables (s : string) : string :=
  fold_left (fun result token => result +:+ replace_token token +:+ " ")
            (Py.split " " s) "".

End WithEnvironments.

End Env.

(** ** Operations, modules and the runner *)

(** The values of the [state] attributes ("NotRun", "Processing",
    "Passed", "Error"). *)
Inductive State : Set := NotRun | Processing | Passed | Error.

(** What the runtime raises or lets through. The last two are not
    instances of [Exception]: [sys.exit] in the code of a module and an
    interrupt of the process raise them. *)
Inductive exn : Set :=
| AttributeError (what : string)
| TypeError (what : string)
| KeyError (key : string)
| IndexError
| ValueError
| IOError (what : string)
| RuntimeError (what : string)
| CCTError (msg : string)
| Exception_ (msg : string)
| SystemExit (code : string)
| KeyboardInterrupt.

(** [isinstance(e, Exception)]: what a handler [except Exception]
    catches. *)
Definition is_Exception (e : exn) : bool :=
  match e with
  | SystemExit _ | KeyboardInterrupt => false
  | _ => true
  end.

(** What a call does: it returns, or it raises. *)
Inductive result (A : Type) : Type :=
| Return (a : A)
| Raise (e : exn).
Arguments Return {A} a.
Arguments Raise {A} e.

(** The names the runner never dispatches. *)
Definition reserved : list string := ["setup"; "run"; "url"; "version"; "teardown"].

Definition is_reserved (command : string) : bool :=
  bool_decide (command ∈ reserved).

(** class [Operation] *)
Record Operation : Type := {
  op_command : string;
  op_args : list string;
  op_state : State
}.

(** [Operation.__init__(command, args)]; [None] is Python's [None]. *)
Definition Operation_init (command : string) (args : option (list string)) : Operation :=
  {| op_command := command;
     op_args := match args with
                | Some l => List.map Py.rstrip l
                | None => []
                end;
     op_state := NotRun |}.

(** The data attributes of a [Module] object that the runner reads or
    writes. *)
Record CctModule : Type := {
  mod_name : string;
  mod_environment : gmap string string;
  mod_operations : list Operation;
  mod_state : State
}.

(** [Module.__init__(name, None)] *)
Definition Module_init (name : string) : CctModule :=
  {| mod_name := name; mod_environment := ∅; mod_operations := []; mod_state := NotRun |}.

(** What the runner does to the outside, in order. *)
Inductive Event : Type :=
| EvSetup
| EvRun (command : string) (args : list string)
| EvCall (command : string) (args : list string) (kwargs : gmap string string)
| EvTeardown.

(** The events of an attempt all carry the command of the operation. *)
Definition about (command : string) (ev : Event) : Prop :=
  match ev with
  | EvRun c _ => c = command
  | EvCall c _ _ => c = command
  | _ => False
  end.

(** An event that is not the dispatch of a reserved name. *)
Definition unreserved (ev : Event) : Prop :=
  match ev with
  | EvRun c _ => is_reserved c = false
  | EvCall c _ _ => is_reserved c = false
  | _ => True
  end.

Module Dispatch.

(** The loop of [Module.run] that sorts the arguments of an operation
    into positional arguments and keyword arguments. [params] is
    [inspect.getargspec(method).args]. *)
Definition bind_arg (params : list string)
    (acc : list string * gmap string string) (arg : string)
    : list string * gmap string string :=
  let '(args, kwargs) := acc in
  if Py.has_char "=" arg then
    match Py.split_once "=" arg with
    | Some (key, value) =>
        if bool_decide (key ∈ params) then (args, <[key := value]> kwargs)
        else (args ++ [Py.strip arg], kwargs)
    | None => (args ++ [Py.strip arg], kwargs)
    end
  else (args ++ [Py.strip arg], kwargs).

Definition bind_args (params : list string) (op_args : list string)
    : list string * gmap string string :=
  fold_left (bind_arg params) op_args ([], ∅).

End Dispatch.

Module Runner.

Section WithWorld.

(** Everything outside the runtime that a capability can read or
    change (files, processes, a server). *)
Variable World : Type.

(** [os.environ] *)
Variable environ : gmap string string.

(** A method of the instance, as [Module.run] sees it: the declared
    parameter names [inspect.getargspec(method).args] and the call
    of the method on the bound arguments. The methods of the modules in the
    sources touch no attribute of the [Module] the runner reads. *)
Record Capability : Type := {
  cap_params : list string;
  cap_call : list string -> gmap string string -> World -> World * option exn
}.

(** The class of the instance: [getattr(self, command)] followed by
    [inspect.getargspec], which raise for a name that resolves to no
    method, and the lifecycle methods [setup()] and [teardown()]. *)
Record Behaviour : Type := {
  resolve : string -> result Capability;
  setup : World -> World * option exn;
  teardown : World -> World * option exn
}.

Variable beh : Behaviour.

(** [Module._process_environment(operation)], on the instance whose
    environment is [environment]. *)
Definition _process_environment (environment : gmap string string)
    (operation : Operation) : Operation :=
  let subst s :=
    if Py.has_char "$" s then Env._replace_variables environ environment s else s in
  {| op_command := subst (op_command operation);
     op_args := List.map subst (op_args operation);
     op_state := op_state operation |}.

(** The outcome of [Module.run(operation)]: the operation and the
    [state] of the instance afterwards, the world, what was done, and
    the exception that propagates, if any. *)
Record RunResult : Type := {
  rr_operation : Operation;
  rr_state : State;
  rr_world : World;
  rr_trace : list Event;
  rr_raised : option exn
}.

Definition with_op_state (operation : Operation) (s : State) : Operation :=
  {| op_command := op_command operation;
     op_args := op_args operation;
     op_state := s |}.

(** [Module.run(operation)], on an instance whose [state] is
    [inst_state]. Its handler catches the instances of [Exception];
    anything else passes it, the states being left as they were. *)
Definition Module_run (inst_state : State) (operation : Operation) (w : World)
    : RunResult :=
  let attempt := EvRun (op_command operation) (op_args operation) in
  match resolve beh (op_command operation) with
  | Raise e =>
      if is_Exception e then
        {| rr_operation := with_op_state operation Error;
           rr_state := Error; rr_world := w;
           rr_trace := [attempt]; rr_raised := Some e |}
      else
        {| rr_operation := operation;
           rr_state := inst_state; rr_world := w;
           rr_trace := [attempt]; rr_raised := Some e |}
  | Return method =>
      let '(args, kwargs) := Dispatch.bind_args (cap_params method) (op_args operation) in
      let call := EvCall (op_command operation) args kwargs in
      match cap_call method args kwargs w with
      | (w', None) =>
          {| rr_operation := with_op_state operation Passed;
             rr_state := inst_state; rr_world := w';
             rr_trace := [attempt; call]; rr_raised := None |}
      | (w', Some e) =>
          if is_Exception e then
            {| rr_operation := with_op_state operation Error;
               rr_state := Error; rr_world := w';
               rr_trace := [attempt; call]; rr_raised := Some e |}
          else
            {| rr_operation := operation;
               rr_state := inst_state; rr_world := w';
               rr_trace := [attempt; call]; rr_raised := Some e |}
      end
  end.

(** class [ModuleRunner]: [module] is [self.module], [instance] is
    [self.module.instance] and [state] is [self.state]. *)
Record ModuleRunner : Type := {
  runner_module : CctModule;
  runner_instance : CctModule;
  runner_state : State
}.

(** [ModuleRunner.__init__(module)], the instance being given apart. *)
Definition ModuleRunner_init (module instance : CctModule) : ModuleRunner :=
  {| runner_module := module; runner_instance := instance; runner_state := Processing |}.

(** The state the loop of [ModuleRunner.run] carries. *)
Record LoopState : Type := {
  ls_runner_state : State;
  ls_instance_state : State;
  ls_world : World;
  ls_trace : list Event
}.

(** The [for operation in self.module.operations] loop of
    [ModuleRunner.run]: the operations as the loop leaves them, the
    state it ends in and what it raises, if anything: the exception its
    handler re-raises, or what passed the handler. *)
Fixpoint run_operations (environment : gmap string string)
    (ops : list Operation) (st : LoopState)
    : list Operation * LoopState * option exn :=
  match ops with
  | [] => ([], st, None)
  | operation :: rest =>
      if is_reserved (op_command operation) then
        let '(rest', st', r) := run_operations environment rest st in
        (operation :: rest', st', r)
      else
        let operation1 := _process_environment environment operation in
        let rr := Module_run (ls_instance_state st) operation1 (ls_world st) in
        match rr_raised rr with
        | None =>
            let st1 := {| ls_runner_state := Passed;
                          ls_instance_state := rr_state rr;
                          ls_world := rr_world rr;
                          ls_trace := ls_trace st ++ rr_trace rr |} in
            let '(rest', st', r) := run_operations environment rest st1 in
            (rr_operation rr :: rest', st', r)
        | Some e =>
            (rr_operation rr :: rest,
             {| ls_runner_state :=
                  if is_Exception e then Error else ls_runner_state st;
                ls_instance_state := rr_state rr;
                ls_world := rr_world rr;
                ls_trace := ls_trace st ++ rr_trace rr |},
             Some e)
        end
  end.

(** The outcome of [ModuleRunner.run()]. *)
Record RunOutcome : Type := {
  out_runner : ModuleRunner;
  out_world : World;
  out_trace : list Event;
  out_raised : option exn
}.

Definition finish (r : ModuleRunner) (ops : list Operation) (st : LoopState)
    (raised : option exn) : RunOutcome :=
  {| out_runner :=
       {| runner_module :=
            {| mod_name := mod_name (runner_module r);
               mod_environment := mod_environment (runner_module r);
               mod_operations := ops;
               mod_state := mod_state (runner_module r) |};
          runner_instance :=
            {| mod_name := mod_name (runner_instance r);
               mod_environment := mod_environment (runner_instance r);
               mod_operations := mod_operations (runner_instance r);
               mod_state := ls_instance_state st |};
          runner_state := ls_runner_state st |};
     out_world := ls_world st;
     out_trace := ls_trace st;
     out_raised := raised |}.

(** [ModuleRunner.run()] *)
Definition run (r : ModuleRunner) (w : World) : RunOutcome :=
  let ops := mod_operations (runner_module r) in
  let st0 := {| ls_runner_state := runner_state r;
                ls_instance_state := mod_state (runner_instance r);
                ls_world := w;
                ls_trace := [] |} in
  match setup beh w with
  | (w1, Some e) =>
      finish r ops {| ls_runner_state := runner_state r;
                      ls_instance_state := mod_state (runner_instance r);
                      ls_world := w1; ls_trace := [EvSetup] |} (Some e)
  | (w1, None) =>
      let st1 := {| ls_runner_state := runner_state r;
                    ls_instance_state := mod_state (runner_instance r);
                    ls_world := w1; ls_trace := [EvSetup] |} in
      match run_operations (mod_environment (runner_instance r)) ops st1 with
      | (ops', st2, Some e) => finish r ops' st2 (Some e)
      | (ops', st2, None) =>
          match teardown beh (ls_world st2) with
          | (w3, Some e) =>
              finish r ops' {| ls_runner_state := ls_runner_state st2;
                               ls_instance_state := ls_instance_state st2;
                               ls_world := w3;
                               ls_trace := ls_trace st2 ++ [EvTeardown] |} (Some e)
          | (w3, None) =>
              finish r ops' {| ls_runner_state := Passed;
                               ls_instance_state := ls_instance_state st2;
                               ls_world := w3;
                               ls_trace := ls_trace st2 ++ [EvTeardown] |} None
          end
      end
  end.

End WithWorld.

Arguments cap_params {World} _.
Arguments cap_call {World} _ _ _ _.
Arguments resolve {World} _ _.
Arguments setup {World} _ _.
Arguments teardown {World} _ _.
Arguments Module_run {World} beh inst_state operation w.
Arguments run_operations {World} environ beh environment ops st.
Arguments run {World} environ beh r w.
Arguments finish {World} r ops st raised.
Arguments rr_operation {World} _.
Arguments rr_state {World} _.
Arguments rr_world {World} _.
Arguments rr_trace {World} _.
Arguments rr_raised {World} _.
Arguments ls_runner_state {World} _.
Arguments ls_instance_state {World} _.
Arguments ls_world {World} _.
Arguments ls_trace {World} _.
Arguments out_runner {World} _.
Arguments out_world {World} _.
Arguments out_trace {World} _.
Arguments out_raised {World} _.

End Runner.

(** ** The shell-script introspector (class [ShellModule]) *)

Module Script.

(** The line terminator. *)
Definition nl : string := String (ascii_of_nat 10) EmptyString.

Definition is_digit (a : ascii) : bool :=
  let n := nat_of_ascii a in Nat.leb 48 n && Nat.leb n 57.

Fixpoint take_digits (s : string) : string :=
  match s with
  | EmptyString => EmptyString
  | String a r => if is_digit a then String a (take_digits r) else EmptyString
  end.

(** [param.search(line)] for [param = re.compile("\$\d+")]: the text of
    the leftmost match, a dollar sign and the digits that follow it. *)
Fixpoint param_search (line : string) : option string :=
  match line with
  | EmptyString => None
  | String a r =>
      if Ascii.eqb a "$" then
        match take_digits r with
        | EmptyString => param_search r
        | digits => Some (String a digits)
        end
      else param_search r
  end.

(** An entry of [self.names]. *)
Record FunctionDescriptor : Type := {
  fd_name : string;
  fd_comment : string;
  fd_params : gmap string string
}.

(** The variables of [_discover]: [self.names], [comment], [name]. *)
Record DiscoverState : Type := {
  ds_names : gmap string FunctionDescriptor;
  ds_comment : string;
  ds_name : string
}.

Definition discover_init : DiscoverState :=
  {| ds_names := ∅; ds_comment := ""; ds_name := "" |}.

(** The four kinds of line the loop of [_discover] tells apart, in the
    order it tests them. *)
Inductive LineKind : Set := Comment | FunctionDef | ParamRef | Other.

#[global] Instance LineKind_eq_dec : EqDecision LineKind.
Proof. solve_decision. Defined.

Definition classify (line : string) : LineKind :=
  if Py.startswith "#" line then Comment
  else if Py.contains "function" line then FunctionDef
  else if bool_decide (is_Some (param_search line)) then ParamRef
  else Other.

(** [line.split()[1][:-2]] *)
Definition function_name (line : string) : result string :=
  match Py.words line with
  | _ :: w :: _ => Return (Py.drop_end 2 w)
  | _ => Raise IndexError
  end.

(** [line.split('=')[0].split()[-1]] *)
Definition param_name (line : string) : result string :=
  match Py.split "=" line with
  | [] => Raise IndexError
  | lhs :: _ =>
      match List.rev (Py.words lhs) with
      | [] => Raise IndexError
      | w :: _ => Return w
      end
  end.

(** The body of the loop of [_discover] for one line of the script. *)
Definition discover_line (st : DiscoverState) (line : string) : result DiscoverState :=
  match classify line with
  | Comment =>
      Return {| ds_names := ds_names st;
                ds_comment := ds_comment st +:+ Py.tail line;
                ds_name := ds_name st |}
  | FunctionDef =>
      match function_name line with
      | Raise e => Raise e
      | Return name =>
          let function := {| fd_name := name;
                             fd_comment := ds_comment st;
                             fd_params := ∅ |} in
          Return {| ds_names := <[name := function]> (ds_names st);
                    ds_comment := ds_comment st;
                    ds_name := name |}
      end
  | ParamRef =>
      match param_name line with
      | Raise e => Raise e
      | Return pname =>
          match ds_names st !! ds_name st, param_search line with
          | Some f, Some ref =>
              let f' := {| fd_name := fd_name f;
                           fd_comment := fd_comment f;
                           fd_params := <[pname := ref]> (fd_params f) |} in
              Return {| ds_names := <[ds_name st := f']> (ds_names st);
                        ds_comment := ds_comment st;
                        ds_name := ds_name st |}
          | _, _ => Raise (KeyError (ds_name st))
          end
      end
  | Other =>
      Return {| ds_names := ds_names st;
                ds_comment := "";
                ds_name := ds_name st |}
  end.

(** The loop [for line in f] from a given state. *)
Fixpoint discover_lines (st : DiscoverState) (lines : list string)
    : result DiscoverState :=
  match lines with
  | [] => Return st
  | line :: rest =>
      match discover_line st line with
      | Raise e => Raise e
      | Return st' => discover_lines st' rest
      end
  end.

(** [ShellModule._discover()], over the lines the file yields (each
    with its terminator): the table it leaves in [self.names]. *)
Definition _discover (lines : list string) : result (gmap string FunctionDescriptor) :=
  match discover_lines discover_init lines with
  | Raise e => Raise e
  | Return st => Return (ds_names st)
  end.

(** The lines a file object yields for a given content: each ends with
    its terminator, except possibly the last. *)
Fixpoint file_lines_aux (cur : list ascii) (content : string) : list string :=
  match content with
  | EmptyString =>
      match cur with
      | [] => []
      | _ => [string_of_list_ascii (rev cur)]
      end
  | String a r =>
      if Ascii.eqb a (ascii_of_nat 10)
      then string_of_list_ascii (rev (a :: cur)) :: file_lines_aux [] r
      else file_lines_aux (a :: cur) r
  end.

Definition file_lines (content : string) : list string := file_lines_aux [] content.

(** The documentation the sigil-stripped comment lines of a block
    amount to. *)
Definition stripped (comment_lines : list string) : string :=
  fold_right (fun line acc => Py.tail line +:+ acc) "" comment_lines.

(** The comment lines among some lines of a script. *)
Definition comment_lines (lines : list string) : list string :=
  List.filter (fun line => bool_decide (classify line = Comment)) lines.

(** A line that defines the function [name]. *)
Definition defines (name : string) (line : string) : Prop :=
  classify line = FunctionDef /\ function_name line = Return name.

(** The scripts [_discover] reads to the end: every line it takes for a
    function definition has a second word, every line it takes for a
    parameter has a word before its first equals sign and comes after
    some function definition. [seen] tells whether one has been read. *)
Fixpoint well_formed (seen : bool) (lines : list string) : bool :=
  match lines with
  | [] => true
  | line :: rest =>
      match classify line with
      | Comment | Other => well_formed seen rest
      | FunctionDef =>
          match function_name line with
          | Return _ => well_formed true rest
          | Raise _ => false
          end
      | ParamRef =>
          match param_name line with
          | Return _ => seen && well_formed seen rest
          | Raise _ => false
          end
      end
  end.

Section ShellModule.

Variable World : Type.

(** [ShellModule._run_function(name, *args)]: the shell process. *)
Variable _run_function : string -> list string -> World -> World * option exn.

(** The attributes ordinary lookup finds on the instance, with what
    [inspect.getargspec] makes of them. *)
Variable ordinary : string -> option (result (Runner.Capability World)).

Variable names : gmap string FunctionDescriptor.

(** The function [ShellModule.__getattr__(name)] returns. *)
Definition wrapper (name : string) : Runner.Capability World :=
  {| Runner.cap_params := [];
     Runner.cap_call := fun args _ w =>
       match names !! name with
       | Some _ => _run_function name args w
       | None => (w, Some (Exception_ "no such method"))
       end |}.

(** [getattr(self, command)] on a [ShellModule], which inherits
    [setup] and [teardown] from [Module]. *)
Definition ShellModule_behaviour : Runner.Behaviour World :=
  {| Runner.resolve := fun command =>
       match ordinary command with
       | Some r => r
       | None => Return (wrapper command)
       end;
     Runner.setup := fun w => (w, None);
     Runner.teardown := fun w => (w, None) |}.

End ShellModule.

End Script.

(** ** Artifacts (class [CctArtifact]) *)

Module Artifact.

(** [str(ex)], as the messages of the runtime print an exception. *)
Definition exn_str (e : exn) : string :=
  match e with
  | AttributeError s => s
  | TypeError s => s
  | KeyError s => s
  | IndexError => "list index out of range"
  | ValueError => "substring not found"
  | IOError s => s
  | RuntimeError s => s
  | CCTError s => s
  | Exception_ s => s
  | SystemExit code => code
  | KeyboardInterrupt => ""
  end.

(** [os.path.join(a, b)] *)
Definition path_join (a b : string) : string :=
  if Py.startswith "/" b then b
  else if String.eqb a "" || Py.endswith "/" a then a +:+ b
  else a +:+ "/" +:+ b.

(** The index [s.index(c)] splits at: the text before the first [c] and
    the text after it, [ValueError] when there is none. *)
Definition partition_first (c : ascii) (s : string) : result (string * string) :=
  match Py.split_once c s with
  | Some p => Return p
  | None => Raise ValueError
  end.

Record CctArtifact : Type := {
  art_name : string;
  art_chksum : string;
  art_url : string;
  art_filename : string;
  art_path : option string
}.

(** What a manifest declares for an artifact: the keyword arguments of
    the constructor of [CctArtifact]. *)
Record ArtifactDecl : Type := {
  decl_name : string;
  decl_chksum : string;
  decl_url : string
}.

(** What a path of the file system names: a file with its content, or
    a directory. *)
Inductive node : Type :=
| File (content : string)
| Directory.

(** The integrity error of [fetch]. *)
Definition mismatch (a : CctArtifact) : exn :=
  CCTError ("Artifact from " +:+ art_url a +:+ " doesn't match required chksum "
            +:+ art_chksum a).

(** The error [fetch] makes of a failed download. *)
Definition download_error (a : CctArtifact) (ex : exn) : exn :=
  CCTError ("Cannot download artifact from url " +:+ art_url a
            +:+ ", error: " +:+ exn_str ex).

Section WithHost.

(** [os.environ] *)
Variable environ : gmap string string.

(** The regular expression [\$\{.*\}] of [replace_variables]:
    [search(string).group(0)] when there is a match, and
    [sub(repl, string)], which raises for a replacement it cannot
    read as a template. *)
Variable var_search : string -> option string.
Variable var_sub : string -> string -> result string.

(** [getattr(hashlib, name)()]: the hash object, as the function from
    a content to its digest in hexadecimal, or what getting the
    attribute or calling it raises. *)
Variable hashlib : string -> result (string -> string).

(** [urlrequest.urlretrieve(url, path)] on the files. *)
Variable urlretrieve :
  string -> string -> gmap string node -> gmap string node * option exn.

(** [CctArtifact.replace_variables(string)] *)
Definition replace_variables (s : string) : result string :=
  match var_search s with
  | None => Raise (AttributeError "'NoneType' object has no attribute 'group'")
  | Some m =>
      let variable := Py.drop_end 1 (Py.tail (Py.tail m)) in
      if Py.truthy (environ !! variable)
      then var_sub (default "" (environ !! variable)) s
      else Return s
  end.

(** [CctArtifact.__init__(name, chksum, url)] *)
Definition CctArtifact_init (d : ArtifactDecl) : result CctArtifact :=
  let build url :=
    {| art_name := decl_name d; art_chksum := decl_chksum d; art_url := url;
       art_filename := decl_name d; art_path := None |} in
  if Py.has_char "$" (decl_url d) then
    match replace_variables (decl_url d) with
    | Raise e => Raise e
    | Return url => Return (build url)
    end
  else Return (build (decl_url d)).

(** [CctArtifact.check_sum()], for an artifact whose [path] is set,
    on the files [fs]: the path is looked up, the checksum split at its
    first colon, the hash object made, the file read. *)
Definition check_sum (chksum path : string) (fs : gmap string node) : result bool :=
  match fs !! path with
  | None => Return false
  | Some n =>
      match partition_first ":" chksum with
      | Raise e => Raise e
      | Return (algorithm, digest) =>
          match hashlib algorithm with
          | Raise e => Raise e
          | Return hexdigest =>
              match n with
              | Directory => Raise (IOError "Is a directory")
              | File content => Return (String.eqb digest (hexdigest content))
              end
          end
      end
  end.

(** The outcome of [fetch]: the artifact with its path, the files,
    the downloads made as (url, path), and the exception raised. *)
Record FetchResult : Type := {
  fr_artifact : CctArtifact;
  fr_fs : gmap string node;
  fr_downloads : list (string * string);
  fr_raised : option exn
}.

Definition with_path (a : CctArtifact) (path : string) : CctArtifact :=
  {| art_name := art_name a; art_chksum := art_chksum a; art_url := art_url a;
     art_filename := art_filename a; art_path := Some path |}.

(** [CctArtifact.fetch(directory)]. The handler around the download
    catches the instances of [Exception]; anything else passes it as
    it is. *)
Definition fetch (a : CctArtifact) (directory : string) (fs : gmap string node)
    : FetchResult :=
  let path := path_join directory (art_filename a) in
  let a' := with_path a path in
  let stop fs' downloads raised :=
    {| fr_artifact := a'; fr_fs := fs'; fr_downloads := downloads;
       fr_raised := raised |} in
  match check_sum (art_chksum a) path fs with
  | Raise e => stop fs [] (Some e)
  | Return true => stop fs [] None
  | Return false =>
      match urlretrieve (art_url a) path fs with
      | (fs', Some ex) =>
          stop fs' [(art_url a, path)]
            (Some (if is_Exception ex then download_error a ex else ex))
      | (fs', None) =>
          match check_sum (art_chksum a) path fs' with
          | Raise e => stop fs' [(art_url a, path)] (Some e)
          | Return true => stop fs' [(art_url a, path)] None
          | Return false =>
              stop fs' [(art_url a, path)] (Some (mismatch a))
          end
      end
  end.

(** The state [_get_artifacts] works on: the files, the mapping
    [Module.artifacts] and the downloads made so far. *)
Record Store : Type := {
  st_fs : gmap string node;
  st_artifacts : gmap string CctArtifact;
  st_downloads : list (string * string)
}.

(** [Module._get_artifacts(artifacts, destination)] *)
Fixpoint _get_artifacts (artifacts : list ArtifactDecl) (destination : string)
    (st : Store) : Store * option exn :=
  match artifacts with
  | [] => (st, None)
  | artifact :: rest =>
      match CctArtifact_init artifact with
      | Raise e => (st, Some e)
      | Return cct_artifact =>
          let fr := fetch cct_artifact destination (st_fs st) in
          let st1 := {| st_fs := fr_fs fr;
                        st_artifacts := st_artifacts st;
                        st_downloads := st_downloads st ++ fr_downloads fr |} in
          match fr_raised fr with
          | Some e => (st1, Some e)
          | None =>
              _get_artifacts rest destination
                {| st_fs := st_fs st1;
                   st_artifacts :=
                     <[art_name (fr_artifact fr) := fr_artifact fr]> (st_artifacts st1);
                   st_downloads := st_downloads st1 |}
          end
      end
  end.

(** What [Module.__init__] has when it returns: the store, and the
    exception its handler logged, if any. *)
Record Built : Type := {
  built_store : Store;
  built_logged : option exn
}.

(** [Module.__init__(name, directory)], from the test of [directory]
    on, as far as the files and the mapping of artifacts go.
    [directory] is [None] for Python's [None]. [load directory] is what
    opening [module.yaml] in the directory and [yaml.load] give: it
    raises, or there is a configuration, with no key [artifacts]
    ([None]) or with the artifacts it declares, each a mapping of the
    keys [name], [chksum] and [url] to strings. The constructor
    returns, with what its handler logged, or lets through what is
    not an instance of [Exception]. *)
Definition Module_init_in (directory : option string)
    (load : string -> result (option (list ArtifactDecl))) (st : Store)
    : result Built :=
  if negb (Py.truthy directory) then
    Return {| built_store := st; built_logged := None |}
  else
    let dir := default "" directory in
    let handle (st' : Store) (ex : exn) : result Built :=
      if is_Exception ex
      then Return {| built_store := st'; built_logged := Some ex |}
      else Raise ex in
    match load dir with
    | Raise ex => handle st ex
    | Return None => Return {| built_store := st; built_logged := None |}
    | Return (Some artifacts) =>
        match _get_artifacts artifacts dir st with
        | (st', None) => Return {| built_store := st'; built_logged := None |}
        | (st', Some ex) => handle st' ex
        end
    end.

End WithHost.

End Artifact.

(** ** Module discovery (class [ModuleManager]) *)

Module Discovery.

(** What [yaml.load] returns for a manifest, as far as discovery looks
    into it. *)
Local Unset Elimination Schemes.
Inductive pyval : Type :=
| PNone
| PStr (s : string)
| PList (items : list pyval)
| PDict (entries : list (string * pyval)).
Local Set Elimination Schemes.

Fixpoint assoc (key : string) (entries : list (string * pyval)) : option pyval :=
  match entries with
  | [] => None
  | (k, v) :: rest => if String.eqb k key then Some v else assoc key rest
  end.

(** [v[key]] for a string [key] *)
Definition getitem (v : pyval) (key : string) : result pyval :=
  match v with
  | PDict entries =>
      match assoc key entries with
      | Some x => Return x
      | None => Raise (KeyError key)
      end
  | PNone => Raise (TypeError "'NoneType' object has no attribute '__getitem__'")
  | PStr _ => Raise (TypeError "string indices must be integers, not str")
  | PList _ => Raise (TypeError "list indices must be integers, not str")
  end.

Definition is_str (key : string) (v : pyval) : bool :=
  match v with
  | PStr s => String.eqb s key
  | _ => false
  end.

(** [key in v] for a string [key]: a key of a dict, an element of a
    list, a substring of a string. *)
Definition py_in (key : string) (v : pyval) : result bool :=
  match v with
  | PDict entries => Return (bool_decide (is_Some (assoc key entries)))
  | PList items => Return (existsb (is_str key) items)
  | PStr s => Return (Py.contains key s)
  | PNone => Raise (TypeError "argument of type 'NoneType' is not iterable")
  end.

Definition chars (s : string) : list pyval :=
  List.map (fun a => PStr (String a EmptyString)) (list_ascii_of_string s).

(** What [for x in v] goes through. *)
Definition py_iter (v : pyval) : result (list pyval) :=
  match v with
  | PList items => Return items
  | PDict entries => Return (List.map (fun kv => PStr (fst kv)) entries)
  | PStr s => Return (chars s)
  | PNone => Raise (TypeError "'NoneType' object is not iterable")
  end.

(** [os.path.basename(p)] *)
Definition basename (p : string) : string := List.last (Py.split "/" p) "".

Fixpoint rstrip_char (c : ascii) (s : string) : string :=
  match s with
  | EmptyString => EmptyString
  | String a r =>
      match rstrip_char c r with
      | EmptyString => if Ascii.eqb a c then EmptyString else String a EmptyString
      | r' => String a r'
      end
  end.

(** [os.path.dirname(p)] *)
Definition dirname (p : string) : string :=
  let pieces := Py.split "/" p in
  if Nat.leb (List.length pieces) 1 then ""
  else
    let head := Py.join "/" (List.removelast pieces) +:+ "/" in
    match rstrip_char "/" head with
    | EmptyString => head
    | stripped => stripped
    end.

(** What the manager writes to its log. *)
Inductive LogEntry : Type :=
| CannotProcess (ex : exn)
| Cloning (repo_dir : string)
| Fetching (url : pyval).

Section WithFiles.

(** The files, and the objects the registry holds. *)
Variable FS : Type.
Variable M : Type.

(** The directories [os.walk(directory)] reports with a file
    [module.yaml], in its order. *)
Variable walk : FS -> string -> list string.
(** [open(mod_dir/module.yaml)] and [yaml.load]. *)
Variable load_manifest : FS -> string -> result pyval.
(** [cct.lib.git.clone_repo(url, repo_dir, version)] *)
Variable clone_repo : string -> string -> pyval -> FS -> FS * option exn.
Variable path_exists : FS -> string -> bool.
(** [glob.glob] for the files of a directory with an extension. *)
Variable glob : FS -> string -> string -> list string.
(** [ShellModule(name, directory, path)] *)
Variable ShellModule_new : string -> string -> string -> FS -> FS * result M.
(** [imp.load_source(module_name, path)] and the classes of the loaded
    source that derive from [Module]: their names and constructors. *)
Variable load_source :
  string -> string -> FS ->
  FS * result (list (string * (string -> string -> FS -> FS * result M))).

(** [self.directory] *)
Variable directory : string.

(** The files, [ModuleManager.modules], the log and the calls of
    [clone_repo] as (url, repo_dir, version). *)
Record Disc : Type := {
  d_fs : FS;
  d_modules : gmap string M;
  d_log : list LogEntry;
  d_clones : list (string * string * pyval)
}.

(** A call returns, or raises, in the state it had come to. *)
Inductive outcome : Type :=
| Done (s : Disc)
| Raised (e : exn) (s : Disc).

(** The state a call ends in, whichever way it ends. *)
Definition final (o : outcome) : Disc :=
  match o with
  | Done s => s
  | Raised _ s => s
  end.

Definition add_log (entry : LogEntry) (s : Disc) : Disc :=
  {| d_fs := d_fs s; d_modules := d_modules s;
     d_log := d_log s ++ [entry]; d_clones := d_clones s |}.

Definition with_fs (fs : FS) (s : Disc) : Disc :=
  {| d_fs := fs; d_modules := d_modules s;
     d_log := d_log s; d_clones := d_clones s |}.

Definition register (name : string) (m : M) (s : Disc) : Disc :=
  {| d_fs := d_fs s; d_modules := <[name := m]> (d_modules s);
     d_log := d_log s; d_clones := d_clones s |}.

Definition add_clone (url repo_dir : string) (version : pyval) (s : Disc) : Disc :=
  {| d_fs := d_fs s; d_modules := d_modules s;
     d_log := d_log s; d_clones := d_clones s ++ [(url, repo_dir, version)] |}.

(** The last component of the directory of a candidate:
    [module_name.split('.')[-1]] for
    [module_name = "cct.module." + dirname(candidate).split('/')[-1]]. *)
Definition module_name (candidate : string) : string :=
  "cct.module." +:+ List.last (Py.split "/" (dirname candidate)) "".

Definition short_name (candidate : string) : string :=
  List.last (Py.split "." (module_name candidate)) "".

(** [ModuleManager.check_module_sh(candidate)] *)
Definition check_module_sh (candidate : string) (s : Disc) : outcome :=
  let name := short_name candidate +:+ "." +:+ Py.drop_end 3 (basename candidate) in
  match ShellModule_new name (dirname candidate) candidate (d_fs s) with
  | (fs, Raise e) => Raised e (with_fs fs s)
  | (fs, Return m) => Done (register name m (with_fs fs s))
  end.

Fixpoint register_classes (candidate : string)
    (classes : list (string * (string -> string -> FS -> FS * result M)))
    (s : Disc) : outcome :=
  match classes with
  | [] => Done s
  | (cls_name, cls) :: rest =>
      let name := short_name candidate +:+ "." +:+ cls_name in
      match cls name (dirname candidate) (d_fs s) with
      | (fs, Raise e) => Raised e (with_fs fs s)
      | (fs, Return m) => register_classes candidate rest (register name m (with_fs fs s))
      end
  end.

(** [ModuleManager.check_module_py(candidate)] *)
Definition check_module_py (candidate : string) (s : Disc) : outcome :=
  match load_source (module_name candidate) candidate (d_fs s) with
  | (fs, Raise e) => Raised e (with_fs fs s)
  | (fs, Return classes) => register_classes candidate classes (with_fs fs s)
  end.

Fixpoint for_each (body : string -> Disc -> outcome) (l : list string) (s : Disc)
    : outcome :=
  match l with
  | [] => Done s
  | x :: rest =>
      match body x s with
      | Done s' => for_each body rest s'
      | other => other
      end
  end.

(** [ModuleManager.find_modules(directory, language)] *)
Definition find_modules (dir : string) (language : pyval) (s : Disc) : outcome :=
  if negb (path_exists (d_fs s) dir) then Done s
  else
    match py_in "bash" language with
    | Raise e => Raised e s
    | Return true => for_each check_module_sh (glob (d_fs s) dir "sh") s
    | Return false => for_each check_module_py (glob (d_fs s) dir "py") s
    end.

(** The directory [install_module] clones a url into: [self.directory]
    and the last component of the url, less four characters when that
    ends in git. *)
Definition repo_dir_of (url : string) : string :=
  let repo_dir := directory +:+ "/" +:+ basename url in
  if Py.endswith "git" repo_dir then Py.drop_end 4 repo_dir else repo_dir.

Section OpenRecursion.

(** [self.discover_modules(directory)], for the recursive call. *)
Variable discover : string -> Disc -> outcome.

(** [ModuleManager.install_module(url, version)] *)
Definition install_module (url version : pyval) (s : Disc) : outcome :=
  match url with
  | PStr u =>
      let repo_dir := repo_dir_of u in
      let s1 := add_log (Cloning repo_dir) s in
      match clone_repo u repo_dir version (d_fs s1) with
      | (fs, Some e) => Raised e (add_clone u repo_dir version (with_fs fs s1))
      | (fs, None) => discover repo_dir (add_clone u repo_dir version (with_fs fs s1))
      end
  | _ => Raised (AttributeError "rfind") s
  end.

(** The loop of [process_module_deps]: [deps] is the whole value,
    [items] what is left to go through. *)
Fixpoint process_deps_loop (deps : pyval) (items : list pyval) (s : Disc)
    : outcome :=
  match items with
  | [] => Done s
  | dep :: rest =>
      match getitem dep "url" with
      | Raise e => Raised e s
      | Return url =>
          let s1 := add_log (Fetching url) s in
          match py_in "version" deps with
          | Raise e => Raised e s1
          | Return has_version =>
              match (if has_version then getitem dep "version" else Return PNone) with
              | Raise e => Raised e s1
              | Return version =>
                  match install_module url version s1 with
                  | Done s2 => process_deps_loop deps rest s2
                  | other => other
                  end
              end
          end
      end
  end.

(** [ModuleManager.process_module_deps(deps)] *)
Definition process_module_deps (deps : pyval) (s : Disc) : outcome :=
  match py_iter deps with
  | Raise e => Raised e s
  | Return items => process_deps_loop deps items s
  end.

(** The body of the [try] of [discover_modules] for one directory. *)
Definition process_manifest (mod_dir : string) (s : Disc) : outcome :=
  match load_manifest (d_fs s) mod_dir with
  | Raise e => Raised e s
  | Return config =>
      match py_in "deps" config with
      | Raise e => Raised e s
      | Return has_deps =>
          let after_deps :=
            if has_deps then
              match getitem config "deps" with
              | Raise e => Raised e s
              | Return deps => process_module_deps deps s
              end
            else Done s in
          match after_deps with
          | Done s1 =>
              match getitem config "language" with
              | Raise e => Raised e s1
              | Return language => find_modules mod_dir language s1
              end
          | other => other
          end
      end
  end.

(** The loop [for mod_dir in module_dirs] with its [except Exception]:
    what is not an instance of [Exception] passes the handler and ends
    the loop. *)
Fixpoint discover_dirs (module_dirs : list string) (s : Disc) : outcome :=
  match module_dirs with
  | [] => Done s
  | mod_dir :: rest =>
      match process_manifest mod_dir s with
      | Done s1 => discover_dirs rest s1
      | Raised ex s1 =>
          if is_Exception ex
          then discover_dirs rest (add_log (CannotProcess ex) s1)
          else Raised ex s1
      end
  end.

End OpenRecursion.

(** The error of the interpreter for a call nested deeper than its
    recursion limit allows. *)
Definition recursion_error : exn :=
  RuntimeError "maximum recursion depth exceeded".

(** [ModuleManager.discover_modules(directory)]. The source does not
    bound the recursion through [install_module]; the interpreter does:
    [depth] is the number of nested calls of [discover_modules] its
    recursion limit still allows, and a call past it raises
    [recursion_error], an instance of [Exception] like any other. *)
Fixpoint discover_modules (depth : nat) (dir : option string) (s : Disc) : outcome :=
  match depth with
  | O => Raised recursion_error s
  | S depth' =>
      let dir := default directory dir in
      discover_dirs (fun d => discover_modules depth' (Some d))
                    (walk (d_fs s) dir) s
  end.

End WithFiles.

End Discovery.

(** ** Sample modules *)

Module Examples.

(** The world of the samples: the argument lists the calls received, in
    order. *)
Definition Calls : Type := list (string * list string).

(** What the call of a bound method makes of a keyword argument named
    self. *)
Definition self_twice : exn :=
  TypeError "got multiple values for keyword argument 'self'".

(** A method in the manner of [Dummy.dump(self, *args)]: it records its
    arguments and returns. *)
Definition dump : Runner.Capability Calls :=
  {| Runner.cap_params := ["self"];
     Runner.cap_call := fun args kwargs w =>
       if bool_decide (is_Some (kwargs !! "self")) then (w, Some self_twice)
       else (w ++ [("dump", args)], None) |}.

(** A method that raises, in the manner of [broken(self, *args)]. *)
Definition broken : Runner.Capability Calls :=
  {| Runner.cap_params := ["self"];
     Runner.cap_call := fun args kwargs w =>
       if bool_decide (is_Some (kwargs !! "self")) then (w, Some self_twice)
       else (w, Some (CCTError "broken")) |}.

(** A method that leaves the interpreter, in the manner of
    [sys.exit("1")]. *)
Definition quits : Runner.Capability Calls :=
  {| Runner.cap_params := ["self"];
     Runner.cap_call := fun args kwargs w =>
       if bool_decide (is_Some (kwargs !! "self")) then (w, Some self_twice)
       else (w, Some (SystemExit "1")) |}.

(** A method in the manner of [listen(self, host, port)]: it records
    the port and the host it is called with, and the call raises when
    the arguments do not fill the two parameters once each. *)
Definition listen : Runner.Capability Calls :=
  {| Runner.cap_params := ["self"; "host"; "port"];
     Runner.cap_call := fun args kwargs w =>
       let wrong := (w, Some (TypeError "listen() takes exactly 3 arguments")) in
       if bool_decide (is_Some (kwargs !! "self")) then (w, Some self_twice)
       else
         match args, kwargs !! "host", kwargs !! "port" with
         | [host; port], None, None => (w ++ [("listen", [port; host])], None)
         | [host], None, Some port => (w ++ [("listen", [port; host])], None)
         | [], Some host, Some port => (w ++ [("listen", [port; host])], None)
         | _, _, _ => wrong
         end |}.

(** A native module with the methods above; its [setup] and [teardown]
    are those of [Module], which do nothing. *)
Definition sample : Runner.Behaviour Calls :=
  {| Runner.resolve := fun command =>
       if String.eqb command "dump" then Return dump
       else if String.eqb command "broken" then Return broken
       else if String.eqb command "listen" then Return listen
       else if String.eqb command "quit" then Return quits
       else Raise (AttributeError command);
     Runner.setup := fun w => (w, None);
     Runner.teardown := fun w => (w, None) |}.

Definition operations_of (ops : list (string * list string)) : list Operation :=
  List.map (fun o => Operation_init (fst o) (Some (snd o))) ops.

(** A runner for a module with the given operations, on a fresh
    instance. *)
Definition runner_for (ops : list (string * list string)) : Runner.ModuleRunner :=
  Runner.ModuleRunner_init
    {| mod_name := "base.Sample"; mod_environment := ∅;
       mod_operations := operations_of ops; mod_state := NotRun |}
    (Module_init "base.Sample").

(** A script that defines functions named [setup] and [doit]. *)
Definition script_names : gmap string Script.FunctionDescriptor :=
  {[ "setup" := {| Script.fd_name := "setup"; Script.fd_comment := "";
                   Script.fd_params := ∅ |};
     "doit" := {| Script.fd_name := "doit"; Script.fd_comment := "";
                  Script.fd_params := ∅ |} ]}.

(** The methods [setup(self)] and [teardown(self)] a shell module
    inherits from [Module]: they take no argument and do nothing. *)
Definition inherited : Runner.Capability Calls :=
  {| Runner.cap_params := ["self"];
     Runner.cap_call := fun args kwargs w =>
       if bool_decide (is_Some (kwargs !! "self")) then (w, Some self_twice)
       else
         match args with
         | [] => (w, None)
         | _ => (w, Some (TypeError "takes exactly 1 argument"))
         end |}.

(** What ordinary lookup finds on a shell module, among the names of
    methods. *)
Definition shell_ordinary (command : string)
    : option (result (Runner.Capability Calls)) :=
  if String.eqb command "setup" || String.eqb command "teardown"
  then Some (Return inherited) else None.

(** The shell module of that script: running a function records it. *)
Definition shell_sample : Runner.Behaviour Calls :=
  Script.ShellModule_behaviour Calls
    (fun name args w => (w ++ [(name, args)], None))
    shell_ordinary
    script_names.

(** A hash algorithm standing in for the ones of [hashlib]: under the
    name plain, the digest of a content is the content. *)
Definition plain_hashlib (algorithm : string) : result (string -> string) :=
  if String.eqb algorithm "plain" then Return (fun content => content)
  else Raise (AttributeError algorithm).

(** A download that always writes the same content. *)
Definition serve (content : string) (url path : string)
    (fs : gmap string Artifact.node) : gmap string Artifact.node * option exn :=
  (<[path := Artifact.File content]> fs, None).

Definition tool_decl : Artifact.ArtifactDecl :=
  {| Artifact.decl_name := "tool.jar";
     Artifact.decl_chksum := "plain:expected";
     Artifact.decl_url := "http://example.com/tool.jar" |}.

Definition empty_store : Artifact.Store :=
  {| Artifact.st_fs := ∅; Artifact.st_artifacts := ∅; Artifact.st_downloads := [] |}.

(** A tree with two module directories: the manifest of the first
    declares one dependency, with a version; the second holds one
    script. The files are the directories cloned so far. *)
Definition tree_walk (fs : list string) (dir : string) : list string :=
  if String.eqb dir "/modules" then ["/modules/a"; "/modules/b"] else [].

Definition dep_decl : Discovery.pyval :=
  Discovery.PDict [("url", Discovery.PStr "https://example.com/dep.git");
                   ("version", Discovery.PStr "1.0")].

Definition tree_manifest (fs : list string) (mod_dir : string)
    : result Discovery.pyval :=
  if String.eqb mod_dir "/modules/a" then
    Return (Discovery.PDict [("language", Discovery.PStr "bash");
                             ("deps", Discovery.PList [dep_decl])])
  else if String.eqb mod_dir "/modules/b" then
    Return (Discovery.PDict [("language", Discovery.PStr "bash")])
  else Raise (Exception_ "No such file or directory").

Definition tree_glob (fs : list string) (dir extension : string) : list string :=
  if String.eqb dir "/modules/b" && String.eqb extension "sh"
  then ["/modules/b/tool.sh"] else [].

(** A clone that succeeds, and one that fails. *)
Definition clone_ok (url repo_dir : string) (version : Discovery.pyval)
    (fs : list string) : list string * option exn :=
  (fs ++ [repo_dir], None).

Definition clone_fails (url repo_dir : string) (version : Discovery.pyval)
    (fs : list string) : list string * option exn :=
  (fs, Some (CCTError "clone failed")).

(** The same tree with a second dependency for the first directory,
    a clone that fails for that one only, and a clone that is
    interrupted. *)
Definition other_decl : Discovery.pyval :=
  Discovery.PDict [("url", Discovery.PStr "https://example.com/other.git")].

Definition two_deps_manifest (fs : list string) (mod_dir : string)
    : result Discovery.pyval :=
  if String.eqb mod_dir "/modules/a" then
    Return (Discovery.PDict [("language", Discovery.PStr "bash");
                             ("deps", Discovery.PList [dep_decl; other_decl])])
  else if String.eqb mod_dir "/modules/b" then
    Return (Discovery.PDict [("language", Discovery.PStr "bash")])
  else Raise (Exception_ "No such file or directory").

Definition clone_other_fails (url repo_dir : string) (version : Discovery.pyval)
    (fs : list string) : list string * option exn :=
  if String.eqb url "https://example.com/other.git"
  then (fs, Some (CCTError "clone failed"))
  else (fs ++ [repo_dir], None).

Definition clone_interrupted (url repo_dir : string) (version : Discovery.pyval)
    (fs : list string) : list string * option exn :=
  (fs, Some KeyboardInterrupt).

Definition tree_exists (fs : list string) (path : string) : bool := true.

(** The registry of the samples holds the names only. *)
Definition tree_shell (name directory path : string) (fs : list string)
    : list string * result string :=
  (fs, Return name).

Definition tree_source (module_name path : string) (fs : list string)
    : list string
      * result (list (string * (string -> string -> list string
                                -> list string * result string))) :=
  (fs, Return []).

Definition tree_start : Discovery.Disc (list string) string :=
  {| Discovery.d_fs := []; Discovery.d_modules := ∅;
     Discovery.d_log := []; Discovery.d_clones := [] |}.

(** Discovery over that tree from its root. *)
Definition discover_tree
    (clone_repo : string -> string -> Discovery.pyval -> list string
                  -> list string * option exn)
    (depth : nat) : Discovery.outcome (list string) string :=
  Discovery.discover_modules (list string) string
    tree_walk tree_manifest clone_repo tree_exists tree_glob tree_shell tree_source
    "/modules" depth None tree_start.

(** A script with two one-line functions, each with its comment, and the
    script of the specification with and without a blank line. *)
Definition two_functions : list string :=
  Script.file_lines
    ("# first" +:+ Script.nl +:+ "function f() { :; }" +:+ Script.nl
     +:+ "# second" +:+ Script.nl +:+ "function g() { :; }" +:+ Script.nl).

Definition doit_script : list string :=
  Script.file_lines
    ("#!/bin/sh" +:+ Script.nl +:+ Script.nl
     +:+ "# Does it." +:+ Script.nl +:+ "# Twice." +:+ Script.nl
     +:+ "function doit() {" +:+ Script.nl
     +:+ "  target=$1" +:+ Script.nl +:+ "}" +:+ Script.nl).

Definition doit_script_blank : list string :=
  Script.file_lines
    ("# Does it." +:+ Script.nl +:+ "# Twice." +:+ Script.nl +:+ Script.nl
     +:+ "function doit() {" +:+ Script.nl
     +:+ "  target=$1" +:+ Script.nl +:+ "}" +:+ Script.nl).

End Examples.

(** ** Further parts of the runtime *)

Module More.

(** [Module._update_env(env)]: [self.environment.update(env)], the
    entries of [env] replacing those of the same name. *)
Definition _update_env (env environment : gmap string string) : gmap string string :=
  env ∪ environment.

(** A string none of whose characters is blank. *)
Fixpoint blank_free (s : string) : bool :=
  match s with
  | EmptyString => true
  | String a r => negb (Py.is_space a) && blank_free r
  end.

(** Whether [Module.run] binds an argument as a keyword argument: it
    holds an equals sign and the text before the first one is a declared
    parameter. *)
Definition binds (params : list string) (arg : string) : bool :=
  match Py.split_once "=" arg with
  | Some (key, _) => bool_decide (key ∈ params)
  | None => false
  end.

(** A string all of whose characters are blank. *)
Fixpoint all_blank (s : string) : bool :=
  match s with
  | EmptyString => true
  | String a r => Py.is_space a && all_blank r
  end.

(** What [ModuleRunner.run] may have made of an operation: nothing, or,
    for an operation whose command is not reserved, the substituted
    operation, with the state Passed or Error, or with its own state
    when what its dispatch raised passed the handlers. *)
Definition run_leaves (environ environment : gmap string string)
    (before after : Operation) : Prop :=
  after = before
  \/ (is_reserved (op_command before) = false
      /\ exists s, (s = Passed \/ s = Error \/ s = op_state before)
                   /\ after = Runner.with_op_state
                                (Runner._process_environment environ environment before) s).

(** What dispatching an operation comes to, the bookkeeping of
    [Module.run] apart: [getattr] and [inspect.getargspec] raise for a
    command that resolves to no method, or the method is called on the
    bound arguments and returns or raises. *)
Definition dispatch {World : Type} (beh : Runner.Behaviour World)
    (operation : Operation) (w : World) : World * option exn :=
  match Runner.resolve beh (op_command operation) with
  | Raise e => (w, Some e)
  | Return method =>
      let bound := Dispatch.bind_args (Runner.cap_params method) (op_args operation) in
      Runner.cap_call method (fst bound) (snd bound) w
  end.

(** What such a dispatch shows to the outside: the attempt, and the
    call when the command resolves. *)
Definition dispatch_events {World : Type} (beh : Runner.Behaviour World)
    (operation : Operation) : list Event :=
  EvRun (op_command operation) (op_args operation)
  :: match Runner.resolve beh (op_command operation) with
     | Raise _ => []
     | Return method =>
         let bound := Dispatch.bind_args (Runner.cap_params method) (op_args operation) in
         [EvCall (op_command operation) (fst bound) (snd bound)]
     end.

(** A string all of whose characters are decimal digits. *)
Fixpoint all_digits (s : string) : bool :=
  match s with
  | EmptyString => true
  | String a r => Script.is_digit a && all_digits r
  end.

(** A line from which [_discover] records the parameter [name] with the
    positional reference [ref]. *)
Definition records (name ref : string) (line : string) : Prop :=
  Script.classify line = Script.ParamRef
  /\ Script.param_name line = Return name
  /\ Script.param_search line = Some ref.

End More.

(** * Properties *)

(** ** Strings *)

Module StringFacts.

Lemma append_cons (x : ascii) (a b : string) : String x a +:+ b = String x (a +:+ b).
Proof. reflexivity. Qed.

Lemma append_nil_l (a : string) : "" +:+ a = a.
Proof. reflexivity. Qed.

Lemma append_assoc (a b c : string) : (a +:+ b) +:+ c = a +:+ (b +:+ c).
Proof.
  induction a as [|x a IH]; [reflexivity|].
  rewrite !append_cons. now rewrite IH.
Qed.

Lemma append_nil_r (a : string) : a +:+ "" = a.
Proof.
  induction a as [|x a IH]; [reflexivity|].
  rewrite append_cons. now rewrite IH.
Qed.

Lemma split_nonempty (c : ascii) (s : string) : Py.split c s <> [].
Proof.
  destruct s as [|a r]; simpl; [discriminate|].
  destruct (Ascii.eqb a c); [discriminate|].
  destruct (Py.split c r); discriminate.
Qed.

Lemma last_char_append_space (a : string) : Py.last_char (a +:+ " ") = Some " "%char.
Proof.
  induction a as [|x a IH]; [reflexivity|].
  rewrite append_cons. cbn [Py.last_char].
  destruct (a +:+ " ") eqn:E; [destruct a; discriminate | exact IH].
Qed.

Lemma reserved_last_char (command : string) :
  is_reserved command = true -> Py.last_char command <> Some " "%char.
Proof.
  unfold is_reserved, reserved. intros H%bool_decide_eq_true.
  repeat (apply elem_of_cons in H as [->|H]; [simpl; discriminate|]).
  inversion H.
Qed.

Lemma startswith_dollar (name : string) : Py.startswith "$" ("$" +:+ name) = true.
Proof. destruct name; reflexivity. Qed.

Lemma split_no_separator (c : ascii) (s : string) :
  Py.has_char c s = false -> Py.split c s = [s].
Proof.
  induction s as [|a r IH]; [reflexivity|].
  cbn [Py.has_char Py.split]. destruct (Ascii.eqb a c); [discriminate|].
  intros H. now rewrite (IH H).
Qed.

Lemma has_char_split_once (c : ascii) (s : string) :
  Py.has_char c s = false <-> Py.split_once c s = None.
Proof.
  induction s as [|a r IH]; cbn [Py.has_char Py.split_once]; [easy|].
  destruct (Ascii.eqb a c); [easy|].
  rewrite IH. destruct (Py.split_once c r) as [[k v]|]; easy.
Qed.

Lemma rstrip_unpadded (s : string) :
  match Py.last_char s with
  | Some a => Py.is_space a = false
  | None => True
  end ->
  Py.rstrip s = s.
Proof.
  induction s as [|a r IH]; [reflexivity|].
  cbn [Py.last_char Py.rstrip]. destruct r as [|b r'].
  - cbn [Py.rstrip]. now intros ->.
  - intros H. now rewrite (IH H).
Qed.

Lemma strip_unpadded (s : string) : Py.unpadded s -> Py.strip s = s.
Proof.
  intros [Hfirst Hlast]. unfold Py.strip.
  assert (Hl : Py.lstrip s = s).
  { destruct s as [|a r]; [reflexivity|]. cbn [Py.lstrip]. now rewrite Hfirst. }
  rewrite Hl. now apply rstrip_unpadded.
Qed.

Lemma tail_dollar (name : string) : Py.tail ("$" +:+ name) = name.
Proof. reflexivity. Qed.

Lemma truthy_spec (v : option string) :
  Py.truthy v = true <-> exists s, v = Some s /\ s <> "".
Proof.
  split.
  - destruct v as [[|a s]|]; simpl; try discriminate.
    intros _. exists (String a s). split; [reflexivity | discriminate].
  - intros (s & -> & Hs). destruct s; [contradiction | reflexivity].
Qed.

Lemma truthy_false (v : option string) :
  Py.truthy v = false <-> v = None \/ v = Some "".
Proof.
  destruct v as [[|a s]|]; simpl; split; auto; try discriminate.
  intros [H|H]; discriminate.
Qed.

End StringFacts.

(** ** Environment lookup and variable substitution *)

Module EnvProps.

Import Env StringFacts.

Section Tokens.

Variables environ environment : gmap string string.

Lemma fold_emit (tokens : list string) (acc : string) :
  fold_left (fun result token =>
               result +:+ replace_token environ environment token +:+ " ")
            tokens acc
  = acc +:+ emit environ environment tokens.
Proof.
  revert acc. induction tokens as [|t rest IH]; intros acc; cbn [fold_left emit].
  - now rewrite append_nil_r.
  - rewrite IH. now rewrite !append_assoc.
Qed.

Lemma emit_join (tokens : list string) :
  tokens <> [] ->
  emit environ environment tokens
  = Py.join " " (List.map (replace_token environ environment) tokens) +:+ " ".
Proof.
  induction tokens as [|t rest IH]; [congruence|]. intros _.
  destruct rest as [|t' rest'].
  - cbn [emit List.map Py.join]. now rewrite append_nil_r.
  - cbn [emit] in *. rewrite IH by discriminate.
    cbn [List.map Py.join]. now rewrite !append_assoc.
Qed.

Lemma replace_variables_emit (s : string) :
  _replace_variables environ environment s = emit environ environment (Py.split " " s).
Proof. unfold _replace_variables. now rewrite fold_emit. Qed.

Lemma replace_variables_ends_with_space (s : string) :
  Py.last_char (_replace_variables environ environment s) = Some " "%char.
Proof.
  rewrite replace_variables_emit, emit_join by apply split_nonempty.
  apply last_char_append_space.
Qed.

Lemma replace_token_host (name v : string) :
  environ !! name = Some v -> v <> "" ->
  replace_token environ environment ("$" +:+ name) = v.
Proof.
  intros Hv Hne. unfold replace_token.
  rewrite startswith_dollar, tail_dollar. rewrite Hv.
  destruct v; [contradiction | reflexivity].
Qed.

Lemma replace_token_module (name v : string) :
  Py.truthy (environ !! name) = false ->
  environment !! name = Some v -> v <> "" ->
  replace_token environ environment ("$" +:+ name) = v.
Proof.
  intros Hh Hv Hne. unfold replace_token.
  rewrite startswith_dollar, tail_dollar. rewrite Hh, Hv.
  destruct v; [contradiction | reflexivity].
Qed.

Lemma replace_token_unresolved (name : string) :
  Py.truthy (environ !! name) = false ->
  Py.truthy (environment !! name) = false ->
  replace_token environ environment ("$" +:+ name) = "$" +:+ name.
Proof.
  intros Hh Hm. unfold replace_token.
  rewrite startswith_dollar, tail_dollar. now rewrite Hh, Hm.
Qed.

Lemma replace_token_plain (token : string) :
  Py.startswith "$" token = false ->
  replace_token environ environment token = token.
Proof. intros H. unfold replace_token. now rewrite H. Qed.

End Tokens.

(** C2 (amended). Substitution cuts the string at every single space and
    treats each piece on its own. A piece that starts with the dollar sign
    becomes the host value of the rest of the piece when that value is set
    and not empty, else the module value when that one is set and not
    empty, else it stays as it is; any other piece stays as it is. The
    result is the pieces so treated, joined by single spaces, possibly
    followed by one more space. *)
Theorem replace_variables_per_token (environ environment : gmap string string)
    (s : string) :
  let pieces := List.map (replace_token environ environment) (Py.split " " s) in
  (_replace_variables environ environment s = Py.join " " pieces
   \/ _replace_variables environ environment s = Py.join " " pieces +:+ " ")
  /\ (forall name v,
        environ !! name = Some v -> v <> "" ->
        replace_token environ environment ("$" +:+ name) = v)
  /\ (forall name v,
        environ !! name = None \/ environ !! name = Some "" ->
        environment !! name = Some v -> v <> "" ->
        replace_token environ environment ("$" +:+ name) = v)
  /\ (forall name,
        environ !! name = None \/ environ !! name = Some "" ->
        environment !! name = None \/ environment !! name = Some "" ->
        replace_token environ environment ("$" +:+ name) = "$" +:+ name)
  /\ (forall token,
        Py.startswith "$" token = false ->
        replace_token environ environment token = token).
Proof.
  cbv zeta. split; [|split; [|split; [|split]]].
  - right. rewrite replace_variables_emit. apply emit_join, split_nonempty.
  - intros name v Hv Hne. now apply replace_token_host.
  - intros name v Hh Hv Hne. apply replace_token_module; trivial.
    now apply truthy_false.
  - intros name Hh Hm. apply replace_token_unresolved; now apply truthy_false.
  - apply replace_token_plain.
Qed.

Lemma replace_variables_per_token_witness :
  replace_token {["FOO" := "bar"]} {["FOO" := "baz"]} "$FOO" = "bar"
  /\ replace_token ∅ {["FOO" := "baz"]} "$FOO" = "baz"
  /\ replace_token ∅ ∅ "$FOO" = "$FOO".
Proof.
  split; [|split].
  - destruct (replace_variables_per_token {["FOO" := "bar"]} {["FOO" := "baz"]} "$FOO")
      as (_ & H & _).
    apply (H "FOO" "bar"); [reflexivity | discriminate].
  - destruct (replace_variables_per_token ∅ {["FOO" := "baz"]} "$FOO")
      as (_ & _ & H & _).
    apply (H "FOO" "baz"); [left; reflexivity | reflexivity | discriminate].
  - destruct (replace_variables_per_token ∅ ∅ "$FOO") as (_ & _ & _ & H & _).
    apply (H "FOO"); left; reflexivity.
Defined.

(** C2, as stated, fails. With neither environment setting FOO the result
    for "$FOO" is "$FOO " and not "$FOO"; with the host setting FOO to bar
    and the module to baz the result is not "bar"; and a host value that
    is set, but to the empty string, does not replace the token: the
    module value does. *)
Lemma replace_variables_not_literal :
  _replace_variables ∅ ∅ "$FOO" = "$FOO "
  /\ _replace_variables ∅ ∅ "$FOO" <> "$FOO"
  /\ _replace_variables {["FOO" := "bar"]} {["FOO" := "baz"]} "$FOO" = "bar "
  /\ _replace_variables {["FOO" := "bar"]} {["FOO" := "baz"]} "$FOO" <> "bar"
  /\ replace_token {["FOO" := ""]} {["FOO" := "baz"]} "$FOO" = "baz".
Proof. repeat split; try reflexivity; discriminate. Qed.

(** C10. When the host sets a variable to the empty string, [getenv]
    returns the module value whenever the name is a key of the module
    mapping (also when that value is empty) and the default otherwise;
    and substitution replaces the token by the module value only when
    that value is not empty, and leaves the token as it is otherwise. *)
Theorem empty_host_value_is_absent (environ environment : gmap string string)
    (name : string) :
  environ !! name = Some "" ->
  (forall default v,
     environment !! name = Some v -> getenv environ environment name default = Some v)
  /\ (forall default,
        environment !! name = None -> getenv environ environment name default = default)
  /\ (forall v,
        environment !! name = Some v -> v <> "" ->
        replace_token environ environment ("$" +:+ name) = v)
  /\ (environment !! name = None \/ environment !! name = Some "" ->
      replace_token environ environment ("$" +:+ name) = "$" +:+ name
      /\ (Py.has_char " " name = false ->
          exists tail, _replace_variables environ environment ("$" +:+ name)
                       = ("$" +:+ name) +:+ tail)).
Proof.
  intros Hhost. split; [|split; [|split]].
  - intros default v Hv. unfold getenv. now rewrite Hhost, Hv.
  - intros default Hv. unfold getenv. now rewrite Hhost, Hv.
  - intros v Hv Hne. apply replace_token_module; trivial. now rewrite Hhost.
  - intros Hm.
    assert (Htok : replace_token environ environment ("$" +:+ name) = "$" +:+ name).
    { apply replace_token_unresolved; [now rewrite Hhost | now apply truthy_false]. }
    split; [exact Htok|].
    intros Hsp. exists " ".
    rewrite replace_variables_emit, split_no_separator.
    + cbn [emit]. now rewrite Htok.
    + exact Hsp.
Qed.

Lemma empty_host_value_is_absent_witness :
  getenv {["FOO" := ""]} {["FOO" := "baz"]} "FOO" None = Some "baz"
  /\ getenv {["FOO" := ""]} ∅ "FOO" (Some "dflt") = Some "dflt"
  /\ replace_token {["FOO" := ""]} {["FOO" := ""]} "$FOO" = "$FOO".
Proof.
  split; [|split].
  - destruct (empty_host_value_is_absent {["FOO" := ""]} {["FOO" := "baz"]} "FOO")
      as (H & _); [reflexivity|].
    apply (H None "baz"). reflexivity.
  - destruct (empty_host_value_is_absent {["FOO" := ""]} ∅ "FOO")
      as (_ & H & _); [reflexivity|].
    apply (H (Some "dflt")). reflexivity.
  - destruct (empty_host_value_is_absent {["FOO" := ""]} {["FOO" := ""]} "FOO")
      as (_ & _ & _ & H); [reflexivity|].
    apply H. right. reflexivity.
Defined.

End EnvProps.

(** ** Dispatch and the runner *)

Module RunnerProps.

Import Runner StringFacts.

Section Run.

Variable World : Type.
Variable environ : gmap string string.
Variable beh : Behaviour World.

(** [Module.run] against the dispatch it wraps: what propagates, what
    is done and what becomes of the states. *)
Lemma Module_run_spec (inst_state : State) (operation : Operation) (w : World) :
  rr_raised (Module_run beh inst_state operation w)
  = snd (More.dispatch beh operation w)
  /\ rr_world (Module_run beh inst_state operation w)
     = fst (More.dispatch beh operation w)
  /\ rr_trace (Module_run beh inst_state operation w)
     = More.dispatch_events beh operation
  /\ match snd (More.dispatch beh operation w) with
     | None =>
         rr_operation (Module_run beh inst_state operation w)
         = with_op_state operation Passed
         /\ rr_state (Module_run beh inst_state operation w) = inst_state
     | Some e =>
         if is_Exception e then
           rr_operation (Module_run beh inst_state operation w)
           = with_op_state operation Error
           /\ rr_state (Module_run beh inst_state operation w) = Error
         else
           rr_operation (Module_run beh inst_state operation w) = operation
           /\ rr_state (Module_run beh inst_state operation w) = inst_state
     end.
Proof.
  unfold Module_run, More.dispatch, More.dispatch_events.
  destruct (resolve beh (op_command operation)) as [method|e].
  - destruct (Dispatch.bind_args (cap_params method) (op_args operation))
      as [args kwargs]. cbn [fst snd].
    destruct (cap_call method args kwargs w) as [w' [e|]]; cbn [fst snd];
      [destruct (is_Exception e)|]; cbn; repeat split.
  - cbn [fst snd]. destruct (is_Exception e); cbn; repeat split.
Qed.

Lemma Module_run_passed (inst_state : State) (operation : Operation) (w : World) :
  rr_raised (Module_run beh inst_state operation w) = None ->
  rr_operation (Module_run beh inst_state operation w) = with_op_state operation Passed
  /\ rr_state (Module_run beh inst_state operation w) = inst_state
  /\ exists args kwargs,
       rr_trace (Module_run beh inst_state operation w)
       = [EvRun (op_command operation) (op_args operation);
          EvCall (op_command operation) args kwargs].
Proof.
  unfold Module_run.
  destruct (resolve beh (op_command operation)) as [method|e];
    [|destruct (is_Exception e); discriminate].
  destruct (Dispatch.bind_args (cap_params method) (op_args operation)) as [args kwargs].
  destruct (cap_call method args kwargs w) as [w' [e|]];
    [destruct (is_Exception e); discriminate|].
  intros _. cbn. repeat split; eauto.
Qed.

(** What an instance of [Exception] raised in the dispatch leaves. *)
Lemma Module_run_raised (inst_state : State) (operation : Operation) (w : World)
    (e : exn) :
  rr_raised (Module_run beh inst_state operation w) = Some e ->
  is_Exception e = true ->
  rr_operation (Module_run beh inst_state operation w) = with_op_state operation Error
  /\ rr_state (Module_run beh inst_state operation w) = Error.
Proof.
  intros Hr He.
  destruct (Module_run_spec inst_state operation w) as (S1 & _ & _ & S4).
  rewrite <- S1, Hr, He in S4. exact S4.
Qed.

(** What anything else raised in the dispatch leaves. *)
Lemma Module_run_let_through (inst_state : State) (operation : Operation) (w : World)
    (e : exn) :
  rr_raised (Module_run beh inst_state operation w) = Some e ->
  is_Exception e = false ->
  rr_operation (Module_run beh inst_state operation w) = operation
  /\ rr_state (Module_run beh inst_state operation w) = inst_state.
Proof.
  intros Hr He.
  destruct (Module_run_spec inst_state operation w) as (S1 & _ & _ & S4).
  rewrite <- S1, Hr, He in S4. exact S4.
Qed.

(** A dispatch fails exactly when the command resolves to no capability
    or the capability raises. *)
Lemma dispatch_fails_iff (operation : Operation) (w w' : World) (e : exn) :
  More.dispatch beh operation w = (w', Some e) <->
  (resolve beh (op_command operation) = Raise e /\ w' = w)
  \/ exists method,
       resolve beh (op_command operation) = Return method
       /\ cap_call method
            (fst (Dispatch.bind_args (cap_params method) (op_args operation)))
            (snd (Dispatch.bind_args (cap_params method) (op_args operation)))
            w = (w', Some e).
Proof.
  unfold More.dispatch.
  destruct (resolve beh (op_command operation)) as [method|e']; split.
  - intros H. right. now exists method.
  - intros [[[=] _]|(m & [= <-] & H)]. exact H.
  - intros [= <- <-]. now left.
  - intros [[[= ->] ->]|(m & [=] & _)]. reflexivity.
Qed.

(** An operation fails in dispatch exactly when its command resolves to
    no capability or the capability raises. *)
Lemma Module_run_raised_iff (inst_state : State) (operation : Operation) (w : World)
    (e : exn) :
  rr_raised (Module_run beh inst_state operation w) = Some e <->
  resolve beh (op_command operation) = Raise e
  \/ exists method,
       resolve beh (op_command operation) = Return method
       /\ snd (cap_call method
                 (fst (Dispatch.bind_args (cap_params method) (op_args operation)))
                 (snd (Dispatch.bind_args (cap_params method) (op_args operation)))
                 w) = Some e.
Proof.
  destruct (Module_run_spec inst_state operation w) as (-> & _).
  unfold More.dispatch.
  destruct (resolve beh (op_command operation)) as [method|e']; cbn [snd]; split.
  - intros H. right. now exists method.
  - intros [[=]|(m & [= <-] & H)]. exact H.
  - intros [= ->]. now left.
  - intros [[= ->]|(m & [=] & _)]. reflexivity.
Qed.

Lemma dispatch_events_about (operation : Operation) :
  Forall (about (op_command operation)) (More.dispatch_events beh operation).
Proof.
  unfold More.dispatch_events.
  destruct (resolve beh (op_command operation)) as [method|e'];
    repeat constructor.
Qed.

Lemma Module_run_events (inst_state : State) (operation : Operation) (w : World) :
  Forall (about (op_command operation))
         (rr_trace (Module_run beh inst_state operation w)).
Proof.
  destruct (Module_run_spec inst_state operation w) as (_ & _ & -> & _).
  apply dispatch_events_about.
Qed.

(** After substitution the command of a dispatched operation is still no
    reserved name: it is unchanged, or it ends with a space. *)
Lemma processed_command_unreserved (environment : gmap string string)
    (operation : Operation) :
  is_reserved (op_command operation) = false ->
  is_reserved (op_command (_process_environment environ environment operation)) = false.
Proof.
  intros H. unfold _process_environment. cbn [op_command].
  destruct (Py.has_char "$" (op_command operation)); [|exact H].
  destruct (is_reserved (Env._replace_variables environ environment (op_command operation)))
    eqn:E; [|reflexivity].
  apply reserved_last_char in E. exfalso. apply E.
  apply EnvProps.replace_variables_ends_with_space.
Qed.

Lemma run_operations_trace (environment : gmap string string)
    (ops : list Operation) (st : LoopState World) :
  exists tr,
    ls_trace (snd (fst (run_operations environ beh environment ops st)))
    = ls_trace st ++ tr
    /\ Forall unreserved tr /\ (EvTeardown ∉ tr) /\ (EvSetup ∉ tr).
Proof.
  revert st. induction ops as [|operation rest IH]; intros st; cbn [run_operations].
  - exists []. cbn. rewrite app_nil_r. repeat split; try constructor; apply not_elem_of_nil.
  - destruct (is_reserved (op_command operation)) eqn:Hres.
    + destruct (IH st) as (tr & Htr & Hun).
      destruct (run_operations environ beh environment rest st) as [[rest' st'] r].
      exists tr. cbn in *. now split.
    + set (operation1 := _process_environment environ environment operation).
      set (rr := Module_run beh (ls_instance_state st) operation1 (ls_world st)).
      assert (Hev : Forall (about (op_command operation1)) (rr_trace rr))
        by apply Module_run_events.
      assert (Hok : is_reserved (op_command operation1) = false)
        by now apply processed_command_unreserved.
      assert (Hun : Forall unreserved (rr_trace rr)
                    /\ (EvTeardown ∉ rr_trace rr) /\ (EvSetup ∉ rr_trace rr)).
      { clearbody rr. induction Hev as [|ev l Hab _ IHl].
        - repeat split; try constructor; apply not_elem_of_nil.
        - destruct IHl as (I1 & I2 & I3).
          destruct ev; cbn in Hab; try contradiction; subst;
            (split; [constructor; [exact Hok | exact I1]|]);
            split; intros Hin; apply elem_of_cons in Hin as [Hin|Hin];
              try discriminate; auto. }
      destruct Hun as (U1 & U2 & U3).
      destruct (rr_raised rr) as [e|] eqn:Hr.
      * exists (rr_trace rr). cbn. repeat split; trivial.
      * match goal with
        | |- context [run_operations _ _ _ rest ?s] => destruct (IH s) as (tr & Htr & T1 & T2 & T3);
            destruct (run_operations environ beh environment rest s) as [[rest' st'] r]
        end.
        exists (rr_trace rr ++ tr). cbn in *. rewrite Htr, app_assoc.
        repeat split; trivial.
        -- now apply Forall_app.
        -- intros Hin. apply elem_of_app in Hin as [Hin|Hin]; auto.
        -- intros Hin. apply elem_of_app in Hin as [Hin|Hin]; auto.
Qed.

(** The loop leaves every operation with a reserved command as it found
    it, in its place. *)
Lemma run_operations_reserved_kept (environment : gmap string string)
    (ops : list Operation) (st : LoopState World) (i : nat) (operation : Operation) :
  ops !! i = Some operation ->
  is_reserved (op_command operation) = true ->
  fst (fst (run_operations environ beh environment ops st)) !! i = Some operation.
Proof.
  revert st i. induction ops as [|o rest IH]; intros st i Hi Hres; [discriminate|].
  cbn [run_operations].
  destruct (is_reserved (op_command o)) eqn:Ho.
  - specialize (IH st).
    destruct (run_operations environ beh environment rest st) as [[rest' st'] r].
    destruct i as [|i]; cbn in *; [exact Hi | now apply IH].
  - destruct i as [|i]; cbn in Hi.
    + injection Hi as ->. congruence.
    + destruct (rr_raised _) as [e|]; cbn; [exact Hi|].
      match goal with
      | |- context [run_operations _ _ _ rest ?s] => specialize (IH s);
          destruct (run_operations environ beh environment rest s) as [[rest' st'] r]
      end.
      cbn in *. now apply IH.
Qed.

(** When the loop ends without an exception it has left the state of the
    instance alone, and every operation is either skipped as reserved or
    substituted and Passed. *)
Lemma run_operations_completed (environment : gmap string string)
    (ops ops' : list Operation) (st st' : LoopState World) :
  run_operations environ beh environment ops st = (ops', st', None) ->
  ls_instance_state st' = ls_instance_state st
  /\ ops' = List.map (fun operation =>
                        if is_reserved (op_command operation) then operation
                        else with_op_state
                               (_process_environment environ environment operation)
                               Passed) ops.
Proof.
  revert ops' st st'. induction ops as [|o rest IH]; intros ops' st st';
    cbn [run_operations List.map].
  - intros [= <- <-]. now split.
  - destruct (is_reserved (op_command o)) eqn:Ho.
    + destruct (run_operations environ beh environment rest st) as [[rest' st1] r] eqn:Hrec.
      intros [= <- <- ->]. destruct (IH _ _ _ Hrec) as [I1 I2]. split; [exact I1|].
      now rewrite I2.
    + set (o1 := _process_environment environ environment o).
      destruct (rr_raised (Module_run beh (ls_instance_state st) o1 (ls_world st)))
        as [e|] eqn:Hr; [discriminate|].
      destruct (Module_run_passed _ _ _ Hr) as (P1 & P2 & _).
      match goal with
      | |- context [run_operations _ _ _ rest ?s] =>
          destruct (run_operations environ beh environment rest s)
            as [[rest' st1] r] eqn:Hrec
      end.
      intros [= <- <- ->]. destruct (IH _ _ _ Hrec) as [I1 I2].
      cbn in I1. split; [congruence|]. now rewrite P1, I2.
Qed.

End Run.







(** C9. [run] never dispatches a reserved name: no attempt and no call in
    what it does carries the command setup, run, url, version or
    teardown, and every declared operation with such a command is left in
    its place exactly as it was declared. *)
Theorem reserved_never_dispatched
    (World : Type) (environ : gmap string string) (beh : Behaviour World)
    (r : ModuleRunner) (w : World) :
  let out := run environ beh r w in
  Forall unreserved (out_trace out)
  /\ forall (i : nat) (operation : Operation),
       mod_operations (runner_module r) !! i = Some operation ->
       is_reserved (op_command operation) = true ->
       mod_operations (runner_module (out_runner out)) !! i = Some operation.
Proof.
  cbv zeta. unfold run.
  destruct (setup beh w) as [w1 [e|]].
  - cbn. split; [repeat constructor | trivial].
  - pose proof (run_operations_trace _ environ beh (mod_environment (runner_instance r))
                  (mod_operations (runner_module r))
                  {| ls_runner_state := runner_state r;
                     ls_instance_state := mod_state (runner_instance r);
                     ls_world := w1; ls_trace := [EvSetup] |})
      as (tr & Htr & T1 & _).
    pose proof (run_operations_reserved_kept _ environ beh
                  (mod_environment (runner_instance r))
                  (mod_operations (runner_module r))
                  {| ls_runner_state := runner_state r;
                     ls_instance_state := mod_state (runner_instance r);
                     ls_world := w1; ls_trace := [EvSetup] |}) as Hkept.
    destruct (run_operations _ _ _ _ _) as [[ops' st2] [e|]]; cbn in Htr, Hkept.
    + cbn. rewrite Htr. split; [|exact Hkept].
      constructor; [exact I | exact T1].
    + destruct (teardown beh (ls_world st2)) as [w3 [e|]]; cbn; rewrite Htr;
        (split; [|exact Hkept]);
        (constructor; [exact I|]); apply Forall_app; split; trivial;
        repeat constructor.
Qed.

Lemma reserved_never_dispatched_witness :
  mod_operations
    (runner_module
       (out_runner
          (run ∅ Examples.shell_sample
             (Examples.runner_for [("setup", ["x"]); ("doit", ["y"])]) [])))
    !! 0 = Some (Operation_init "setup" (Some ["x"])).
Proof.
  apply (reserved_never_dispatched Examples.Calls ∅ Examples.shell_sample
           (Examples.runner_for [("setup", ["x"]); ("doit", ["y"])]) []);
    reflexivity.
Defined.

(** A script that defines a function named setup: the declared operation
    setup is skipped, and the function of the script is never run, not
    even by the call of [setup] that opens the run. *)
Example shell_setup_not_dispatched :
  let out := run ∅ Examples.shell_sample
               (Examples.runner_for [("setup", ["x"]); ("doit", ["y"])]) [] in
  out_trace out = [EvSetup; EvRun "doit" ["y"]; EvCall "doit" ["y"] ∅; EvTeardown]
  /\ out_world out = [("doit", ["y"])].
Proof. cbv zeta. split; reflexivity. Qed.

(** C7 (amended). An operation whose arguments are port=8080 and extra,
    dispatched to a capability that declares the parameter port, calls it
    with the keyword argument port = 8080 and the one positional argument
    extra. In general a token with an equals sign whose key, the text
    before the first equals sign, is a declared parameter is bound as a
    keyword argument to the text after that sign; a token with an equals
    sign whose key is no declared parameter, and a token without an
    equals sign, are positional arguments, passed with the blanks at
    either end stripped, hence whole when there are none. *)
Theorem dispatch_binds_arguments
    (World : Type) (beh : Behaviour World) (params : list string) :
  (forall inst_state operation w method,
     resolve beh (op_command operation) = Return method ->
     "port" ∈ cap_params method ->
     op_args operation = ["port=8080"; "extra"] ->
     exists w' raised,
       cap_call method ["extra"] {["port" := "8080"]} w = (w', raised)
       /\ rr_trace (Module_run beh inst_state operation w)
          = [EvRun (op_command operation) ["port=8080"; "extra"];
             EvCall (op_command operation) ["extra"] {["port" := "8080"]}]
       /\ rr_world (Module_run beh inst_state operation w) = w'
       /\ rr_raised (Module_run beh inst_state operation w) = raised)
  /\ (forall args kwargs arg key value,
        Py.split_once "=" arg = Some (key, value) -> key ∈ params ->
        Dispatch.bind_arg params (args, kwargs) arg = (args, <[key := value]> kwargs))
  /\ (forall args kwargs arg key value,
        Py.split_once "=" arg = Some (key, value) -> key ∉ params ->
        Dispatch.bind_arg params (args, kwargs) arg = (args ++ [Py.strip arg], kwargs))
  /\ (forall args kwargs arg,
        Py.has_char "=" arg = false ->
        Dispatch.bind_arg params (args, kwargs) arg = (args ++ [Py.strip arg], kwargs))
  /\ (forall arg, Py.unpadded arg -> Py.strip arg = arg).
Proof.
  split; [|split; [|split; [|split]]].
  - intros inst_state operation w method Hres Hport Hargs.
    unfold Module_run. rewrite Hres, Hargs.
    assert (Hb : Dispatch.bind_args (cap_params method) ["port=8080"; "extra"]
                 = (["extra"], {["port" := "8080"]})).
    { unfold Dispatch.bind_args. cbn [fold_left].
      unfold Dispatch.bind_arg at 2.
      change (Py.has_char "=" "port=8080") with true.
      change (Py.split_once "=" "port=8080") with (Some ("port", "8080")).
      cbv iota beta. rewrite bool_decide_eq_true_2 by exact Hport.
      reflexivity. }
    rewrite Hb.
    destruct (cap_call method ["extra"] {["port" := "8080"]} w) as [w' [e|]];
      [destruct (is_Exception e)|]; eexists _, _; repeat split; reflexivity.
  - intros args kwargs arg key value Hs Hin. unfold Dispatch.bind_arg.
    destruct (Py.has_char "=" arg) eqn:Hc.
    + rewrite Hs. now rewrite bool_decide_eq_true_2.
    + apply has_char_split_once in Hc. congruence.
  - intros args kwargs arg key value Hs Hin. unfold Dispatch.bind_arg.
    destruct (Py.has_char "=" arg); [|reflexivity].
    rewrite Hs. now rewrite bool_decide_eq_false_2.
  - intros args kwargs arg Hc. unfold Dispatch.bind_arg. now rewrite Hc.
  - apply strip_unpadded.
Qed.

Lemma dispatch_binds_arguments_witness :
  rr_trace (Module_run Examples.sample NotRun
              (Operation_init "listen" (Some ["port=8080"; "extra"])) [])
  = [EvRun "listen" ["port=8080"; "extra"];
     EvCall "listen" ["extra"] {["port" := "8080"]}]
  /\ Dispatch.bind_arg ["self"] ([], ∅) "port=8080" = (["port=8080"], ∅)
  /\ Py.strip "extra" = "extra".
Proof.
  destruct (dispatch_binds_arguments Examples.Calls Examples.sample ["self"])
    as (H1 & _ & H3 & _ & H5).
  split; [|split].
  - destruct (H1 NotRun (Operation_init "listen" (Some ["port=8080"; "extra"])) []
                Examples.listen) as (w' & raised & _ & Ht & _);
      [reflexivity | | reflexivity | exact Ht].
    apply elem_of_cons. right. apply elem_of_cons. right.
    apply elem_of_cons. now left.
  - apply (H3 [] ∅ "port=8080" "port" "8080"); [reflexivity|].
    intros Hin. apply elem_of_cons in Hin as [Hin|Hin]; [discriminate | inversion Hin].
  - apply H5. split; reflexivity.
Defined.

(** C7, as stated, fails. A token with a blank at an end whose key is no
    declared parameter is not passed whole: the blank is stripped. Every
    argument that went through substitution is such a token. *)
Lemma positional_argument_not_whole :
  Dispatch.bind_args ["self"; "port"] [" a=b"] = (["a=b"], ∅)
  /\ Dispatch.bind_args ["self"; "port"] [" a=b"] <> ([" a=b"], ∅)
  /\ out_trace (run {["OPTS" := "a=b"]} Examples.sample
                  (Examples.runner_for [("dump", ["$OPTS"])]) [])
     = [EvSetup; EvRun "dump" ["a=b "]; EvCall "dump" ["a=b"] ∅; EvTeardown].
Proof. repeat split; try reflexivity; discriminate. Qed.

End RunnerProps.

(** ** Artifacts *)

Module ArtifactProps.

Import Artifact.

Section Fetch.

Variable environ : gmap string string.
Variable var_search : string -> option string.
Variable var_sub : string -> string -> result string.
Variable hashlib : string -> result (string -> string).
Variable urlretrieve :
  string -> string -> gmap string node -> gmap string node * option exn.

Lemma check_sum_missing (chksum path : string) (fs : gmap string node) :
  fs !! path = None -> check_sum hashlib chksum path fs = Return false.
Proof. intros H. unfold Artifact.check_sum. now rewrite H. Qed.

Lemma check_sum_file (chksum path content algorithm digest : string)
    (hexdigest : string -> string) (fs : gmap string node) :
  fs !! path = Some (File content) ->
  Py.split_once ":" chksum = Some (algorithm, digest) ->
  hashlib algorithm = Return hexdigest ->
  check_sum hashlib chksum path fs = Return (String.eqb digest (hexdigest content)).
Proof.
  intros Hf Hs Hh. unfold Artifact.check_sum, partition_first.
  now rewrite Hf, Hs, Hh.
Qed.

(** With no file at the target path [fetch] calls [urlretrieve] once,
    whatever comes of it: the files it leaves are those the one call
    left. *)
Lemma fetch_downloads_once (a : CctArtifact) (directory : string)
    (fs : gmap string node) :
  fs !! path_join directory (art_filename a) = None ->
  fr_downloads (fetch hashlib urlretrieve a directory fs)
  = [(art_url a, path_join directory (art_filename a))]
  /\ fr_fs (fetch hashlib urlretrieve a directory fs)
     = fst (urlretrieve (art_url a) (path_join directory (art_filename a)) fs).
Proof.
  intros H. unfold Artifact.fetch. rewrite (check_sum_missing _ _ _ H).
  destruct (urlretrieve _ _ fs) as [fs' [ex|]]; [now split|].
  destruct (Artifact.check_sum hashlib (art_chksum a) _ fs') as [[|]|e]; now split.
Qed.

(** After a download that returned, [fetch] goes by the second
    [check_sum], on the files the download left. *)
Lemma fetch_rechecks (a : CctArtifact) (directory : string)
    (fs fs' : gmap string node) :
  fs !! path_join directory (art_filename a) = None ->
  urlretrieve (art_url a) (path_join directory (art_filename a)) fs = (fs', None) ->
  fetch hashlib urlretrieve a directory fs
  = {| fr_artifact := with_path a (path_join directory (art_filename a));
       fr_fs := fs';
       fr_downloads := [(art_url a, path_join directory (art_filename a))];
       fr_raised :=
         match check_sum hashlib (art_chksum a)
                 (path_join directory (art_filename a)) fs' with
         | Raise e => Some e
         | Return true => None
         | Return false => Some (mismatch a)
         end |}.
Proof.
  intros H Hd. unfold Artifact.fetch.
  rewrite (check_sum_missing _ _ _ H), Hd.
  destruct (Artifact.check_sum hashlib (art_chksum a) _ fs') as [[|]|e]; reflexivity.
Qed.

Lemma get_artifacts_app (before rest : list ArtifactDecl) (destination : string)
    (st : Store) :
  _get_artifacts environ var_search var_sub hashlib urlretrieve (before ++ rest) destination st
  = match _get_artifacts environ var_search var_sub hashlib urlretrieve before destination st with
    | (st1, None) =>
        _get_artifacts environ var_search var_sub hashlib urlretrieve rest destination st1
    | (st1, Some e) => (st1, Some e)
    end.
Proof.
  revert st. induction before as [|d before IH]; intros st; [reflexivity|].
  cbn [app Artifact._get_artifacts].
  destruct (CctArtifact_init environ var_search var_sub d) as [a|e]; [|reflexivity].
  destruct (fr_raised _) as [e|]; [reflexivity|]. apply IH.
Qed.

(** An artifact whose [fetch] raises is not put into the mapping, and
    nothing that follows it in the manifest is looked at. *)
Lemma get_artifacts_raised (d : ArtifactDecl) (rest : list ArtifactDecl)
    (a : CctArtifact) (destination : string) (st : Store) (e : exn) :
  CctArtifact_init environ var_search var_sub d = Return a ->
  fr_raised (fetch hashlib urlretrieve a destination (st_fs st)) = Some e ->
  _get_artifacts environ var_search var_sub hashlib urlretrieve (d :: rest) destination st
  = ({| st_fs := fr_fs (fetch hashlib urlretrieve a destination (st_fs st));
        st_artifacts := st_artifacts st;
        st_downloads := st_downloads st ++ fr_downloads (fetch hashlib urlretrieve a destination (st_fs st)) |},
     Some e).
Proof.
  intros Hi Hr. cbn [Artifact._get_artifacts]. rewrite Hi, Hr. reflexivity.
Qed.

(** An artifact whose [fetch] returns is put into the mapping under its
    name. *)
Lemma get_artifacts_returned (d : ArtifactDecl) (a : CctArtifact)
    (destination : string) (st : Store) :
  CctArtifact_init environ var_search var_sub d = Return a ->
  fr_raised (fetch hashlib urlretrieve a destination (st_fs st)) = None ->
  _get_artifacts environ var_search var_sub hashlib urlretrieve [d] destination st
  = ({| st_fs := fr_fs (fetch hashlib urlretrieve a destination (st_fs st));
        st_artifacts :=
          <[art_name (fr_artifact (fetch hashlib urlretrieve a destination (st_fs st)))
            := fr_artifact (fetch hashlib urlretrieve a destination (st_fs st))]>
            (st_artifacts st);
        st_downloads := st_downloads st ++ fr_downloads (fetch hashlib urlretrieve a destination (st_fs st)) |},
     None).
Proof.
  intros Hi Hr. cbn [Artifact._get_artifacts]. rewrite Hi, Hr. reflexivity.
Qed.

End Fetch.

(** C6 (amended). For an artifact with no file at its target path
    [fetch] calls [urlretrieve] exactly once, and the files it leaves are
    those that call left. When the download returns, leaving a file at
    the path, [fetch] computes the digest of that file under the
    algorithm the checksum names: when it is the declared digest, [fetch]
    returns and [_get_artifacts] puts the artifact into the mapping; when
    it is not, [fetch] raises the integrity error and [_get_artifacts]
    stops there, the mapping of artifacts being the one it had built from
    the artifacts before, without this one. The error does not leave
    [Module.__init__]: its handler logs it and the constructor returns. *)
Theorem fetch_mismatch_not_registered
    (environ : gmap string string)
    (var_search : string -> option string)
    (var_sub : string -> string -> result string)
    (hashlib : string -> result (string -> string))
    (urlretrieve : string -> string -> gmap string node
                   -> gmap string node * option exn) :
  (forall (a : CctArtifact) (directory : string) (fs : gmap string node),
     fs !! path_join directory (art_filename a) = None ->
     fr_downloads (fetch hashlib urlretrieve a directory fs)
     = [(art_url a, path_join directory (art_filename a))]
     /\ fr_fs (fetch hashlib urlretrieve a directory fs)
        = fst (urlretrieve (art_url a) (path_join directory (art_filename a)) fs))
  /\ (forall (before rest : list ArtifactDecl) (d : ArtifactDecl) (a : CctArtifact)
             (destination : string) (st st1 : Store) (fs' : gmap string node)
             (content algorithm digest : string) (hexdigest : string -> string)
             (load : string -> result (option (list ArtifactDecl))),
        let path := path_join destination (art_filename a) in
        let downloads := st_downloads st1 ++ [(art_url a, path)] in
        _get_artifacts environ var_search var_sub hashlib urlretrieve
          before destination st
        = (st1, None) ->
        CctArtifact_init environ var_search var_sub d = Return a ->
        st_fs st1 !! path = None ->
        urlretrieve (art_url a) path (st_fs st1) = (fs', None) ->
        fs' !! path = Some (File content) ->
        Py.split_once ":" (art_chksum a) = Some (algorithm, digest) ->
        hashlib algorithm = Return hexdigest ->
        destination <> "" ->
        load destination = Return (Some (before ++ d :: rest)) ->
        (hexdigest content = digest ->
         fr_raised (fetch hashlib urlretrieve a destination (st_fs st1)) = None
         /\ _get_artifacts environ var_search var_sub hashlib urlretrieve
              (before ++ [d]) destination st
            = ({| st_fs := fs';
                  st_artifacts := <[art_name a := with_path a path]> (st_artifacts st1);
                  st_downloads := downloads |}, None))
        /\ (hexdigest content <> digest ->
            fr_raised (fetch hashlib urlretrieve a destination (st_fs st1))
            = Some (mismatch a)
            /\ _get_artifacts environ var_search var_sub hashlib urlretrieve
                 (before ++ d :: rest) destination st
               = ({| st_fs := fs'; st_artifacts := st_artifacts st1;
                     st_downloads := downloads |}, Some (mismatch a))
            /\ Module_init_in environ var_search var_sub hashlib urlretrieve
                 (Some destination) load st
               = Return {| built_store :=
                             {| st_fs := fs'; st_artifacts := st_artifacts st1;
                                st_downloads := downloads |};
                           built_logged := Some (mismatch a) |})).
Proof.
  split; [apply fetch_downloads_once|].
  intros before rest d a destination st st1 fs' content algorithm digest hexdigest
    load path downloads Hbefore Hinit Hnone Hdl Hfile Hsplit Hhash Hdir Hload.
  pose proof (fetch_rechecks hashlib urlretrieve a destination _ _ Hnone Hdl) as Hf.
  fold path in Hf.
  rewrite (check_sum_file hashlib _ _ _ _ _ _ _ Hfile Hsplit Hhash) in Hf.
  split; intros Hd.
  - assert (Hr : fr_raised (fetch hashlib urlretrieve a destination (st_fs st1)) = None).
    { rewrite Hf. cbn.
      destruct (String.eqb_spec digest (hexdigest content)) as [_|Hne];
        [reflexivity | congruence]. }
    split; [exact Hr|].
    rewrite get_artifacts_app, Hbefore.
    rewrite (get_artifacts_returned _ _ _ _ _ d a destination st1 Hinit Hr).
    rewrite Hf. reflexivity.
  - assert (Hr : fr_raised (fetch hashlib urlretrieve a destination (st_fs st1))
                 = Some (mismatch a)).
    { rewrite Hf. cbn.
      destruct (String.eqb_spec digest (hexdigest content)) as [Heq|_];
        [congruence | reflexivity]. }
    assert (Hg : _get_artifacts environ var_search var_sub hashlib urlretrieve
                   (before ++ d :: rest) destination st
                 = ({| st_fs := fs'; st_artifacts := st_artifacts st1;
                       st_downloads := downloads |}, Some (mismatch a))).
    { rewrite get_artifacts_app, Hbefore.
      rewrite (get_artifacts_raised _ _ _ _ _ d rest a destination st1 _ Hinit Hr).
      rewrite Hf. reflexivity. }
    split; [exact Hr|]. split; [exact Hg|].
    unfold Module_init_in.
    assert (Ht : Py.truthy (Some destination) = true)
      by (destruct destination; [congruence | reflexivity]).
    rewrite Ht. cbn. rewrite Hload, Hg. reflexivity.
Qed.

Lemma fetch_mismatch_not_registered_witness :
  _get_artifacts ∅ (fun _ => None) (fun _ s => Return s)
    Examples.plain_hashlib (Examples.serve "payload")
    [Examples.tool_decl] "/modules/a" Examples.empty_store
  = ({| st_fs := {["/modules/a/tool.jar" := File "payload"]};
        st_artifacts := ∅;
        st_downloads := [("http://example.com/tool.jar", "/modules/a/tool.jar")] |},
     Some (CCTError
             "Artifact from http://example.com/tool.jar doesn't match required chksum plain:expected"))
  /\ fr_raised
       (fetch Examples.plain_hashlib (Examples.serve "expected")
          {| art_name := "tool.jar"; art_chksum := "plain:expected";
             art_url := "http://example.com/tool.jar";
             art_filename := "tool.jar"; art_path := None |}
          "/modules/a" ∅)
     = None.
Proof.
  split.
  - destruct (fetch_mismatch_not_registered ∅ (fun _ => None) (fun _ s => Return s)
                Examples.plain_hashlib (Examples.serve "payload")) as [_ H].
    destruct (H [] [] Examples.tool_decl
                {| art_name := "tool.jar"; art_chksum := "plain:expected";
                   art_url := "http://example.com/tool.jar";
                   art_filename := "tool.jar"; art_path := None |}
                "/modules/a" Examples.empty_store Examples.empty_store
                {["/modules/a/tool.jar" := File "payload"]}
                "payload" "plain" "expected" (fun content => content)
                (fun _ => Return (Some [Examples.tool_decl])))
      as (_ & Hbad);
      [reflexivity | reflexivity | reflexivity | reflexivity | reflexivity
      | reflexivity | reflexivity | discriminate | reflexivity | ].
    destruct Hbad as (_ & Hrun & _); [discriminate|]. exact Hrun.
  - destruct (fetch_mismatch_not_registered ∅ (fun _ => None) (fun _ s => Return s)
                Examples.plain_hashlib (Examples.serve "expected")) as [_ H].
    destruct (H [] [] Examples.tool_decl
                {| art_name := "tool.jar"; art_chksum := "plain:expected";
                   art_url := "http://example.com/tool.jar";
                   art_filename := "tool.jar"; art_path := None |}
                "/modules/a" Examples.empty_store Examples.empty_store
                {["/modules/a/tool.jar" := File "expected"]}
                "expected" "plain" "expected" (fun content => content)
                (fun _ => Return (Some [Examples.tool_decl])))
      as (Hgood & _);
      [reflexivity | reflexivity | reflexivity | reflexivity | reflexivity
      | reflexivity | reflexivity | discriminate | reflexivity | ].
    destruct Hgood as (Hr & _); [reflexivity|]. exact Hr.
Defined.

(** C6, as stated, fails. The integrity error is not fatal: the
    constructor of a module whose manifest declares an artifact that
    does not match its checksum catches the error [fetch] raised, logs
    it and returns. The module is built, without the artifact, and the
    file that failed the check stays at its path. *)
Lemma integrity_error_not_fatal :
  fr_raised
    (fetch Examples.plain_hashlib (Examples.serve "payload")
       {| art_name := "tool.jar"; art_chksum := "plain:expected";
          art_url := "http://example.com/tool.jar";
          art_filename := "tool.jar"; art_path := None |}
       "/modules/a" ∅)
  = Some (CCTError
            "Artifact from http://example.com/tool.jar doesn't match required chksum plain:expected")
  /\ Module_init_in ∅ (fun _ => None) (fun _ s => Return s)
       Examples.plain_hashlib (Examples.serve "payload")
       (Some "/modules/a") (fun _ => Return (Some [Examples.tool_decl]))
       Examples.empty_store
     = Return
         {| built_store :=
              {| st_fs := {["/modules/a/tool.jar" := File "payload"]};
                 st_artifacts := ∅;
                 st_downloads :=
                   [("http://example.com/tool.jar", "/modules/a/tool.jar")] |};
            built_logged :=
              Some (CCTError
                      "Artifact from http://example.com/tool.jar doesn't match required chksum plain:expected") |}.
Proof. split; reflexivity. Qed.

End ArtifactProps.

(** ** Discovery *)

Module DiscoveryProps.

Import Discovery.

Section Discover.

Variable FS : Type.
Variable M : Type.
Variable walk : FS -> string -> list string.
Variable load_manifest : FS -> string -> result pyval.
Variable clone_repo : string -> string -> pyval -> FS -> FS * option exn.
Variable path_exists : FS -> string -> bool.
Variable glob : FS -> string -> string -> list string.
Variable ShellModule_new : string -> string -> string -> FS -> FS * result M.
Variable load_source :
  string -> string -> FS ->
  FS * result (list (string * (string -> string -> FS -> FS * result M))).
Variable directory : string.

(** What the loop over the directories raises is no instance of
    [Exception]: those its handler catches. *)
Lemma discover_dirs_raises (discover : string -> Disc FS M -> outcome FS M)
    (module_dirs : list string) (s : Disc FS M) :
  forall e s',
    discover_dirs FS M load_manifest clone_repo path_exists glob ShellModule_new
      load_source directory discover module_dirs s
    = Raised FS M e s' ->
    is_Exception e = false.
Proof.
  revert s. induction module_dirs as [|mod_dir rest IH]; intros s e s';
    cbn [discover_dirs]; [discriminate|].
  destruct (process_manifest _ _ _ _ _ _ _ _ _ _ _ _) as [s1|ex s1];
    [apply IH|].
  destruct (is_Exception ex) eqn:Hex; [apply IH|].
  intros [= <- _]. exact Hex.
Qed.

(** A failing clone makes [install_module] raise what the clone raised. *)
Lemma install_module_clone_fails (discover : string -> Disc FS M -> outcome FS M)
    (u : string) (version : pyval) (s : Disc FS M) (fs' : FS) (e : exn) :
  clone_repo u (repo_dir_of directory u) version (d_fs FS M s) = (fs', Some e) ->
  install_module FS M clone_repo directory discover (PStr u) version s
  = Raised FS M e
      (add_clone FS M u (repo_dir_of directory u) version
         (with_fs FS M fs' (add_log FS M (Cloning (repo_dir_of directory u)) s))).
Proof.
  intros H. unfold install_module. cbn [d_fs add_log]. now rewrite H.
Qed.

(** For a list of dependencies none of which is the string version, the
    version handed to [install_module] is [None], whatever each
    dependency declares. *)
Lemma process_deps_loop_unversioned (discover : string -> Disc FS M -> outcome FS M)
    (all : list pyval) (entries : list (string * pyval)) (rest : list pyval)
    (s : Disc FS M) :
  existsb (is_str "version") all = false ->
  process_deps_loop FS M clone_repo directory discover (PList all)
    (PDict entries :: rest) s
  = match assoc "url" entries with
    | None => Raised FS M (KeyError "url") s
    | Some url =>
        match install_module FS M clone_repo directory discover url PNone
                (add_log FS M (Fetching url) s) with
        | Done _ _ s2 =>
            process_deps_loop FS M clone_repo directory discover (PList all) rest s2
        | other => other
        end
    end.
Proof.
  intros H. cbn [process_deps_loop getitem py_in].
  destruct (assoc "url" entries) as [url|]; [|reflexivity].
  now rewrite H.
Qed.

(** The loop over the dependencies, taken in two parts. *)
Lemma process_deps_loop_app (discover : string -> Disc FS M -> outcome FS M)
    (deps : pyval) (before items : list pyval) (s : Disc FS M) :
  process_deps_loop FS M clone_repo directory discover deps (before ++ items) s
  = match process_deps_loop FS M clone_repo directory discover deps before s with
    | Done _ _ s1 =>
        process_deps_loop FS M clone_repo directory discover deps items s1
    | other => other
    end.
Proof.
  revert s. induction before as [|dep before IH]; intros s; [reflexivity|].
  cbn [app process_deps_loop].
  destruct (getitem dep "url") as [url|e]; [|reflexivity].
  destruct (py_in "version" deps) as [has_version|e]; [|reflexivity].
  destruct (if has_version then getitem dep "version" else Return PNone)
    as [version|e]; [|reflexivity].
  destruct (install_module _ _ _ _ _ _ _ _) as [s2|e s2]; [apply IH | reflexivity].
Qed.

(** A dependency whose clone fails, after dependencies that were
    installed: the processing of the manifest raises what the clone
    raised. The version handed to the clone is the one the dependency
    declares when the string version is an element of the list of
    dependencies, and [None] when it is not. *)
Lemma process_manifest_clone_fails (discover : string -> Disc FS M -> outcome FS M)
    (mod_dir : string) (s s1 : Disc FS M) (entries dep_entries : list (string * pyval))
    (before more : list pyval) (u : string) (version : pyval) (fs' : FS) (e : exn) :
  load_manifest (d_fs FS M s) mod_dir = Return (PDict entries) ->
  assoc "deps" entries = Some (PList (before ++ PDict dep_entries :: more)) ->
  process_deps_loop FS M clone_repo directory discover
    (PList (before ++ PDict dep_entries :: more)) before s
  = Done FS M s1 ->
  assoc "url" dep_entries = Some (PStr u) ->
  (if existsb (is_str "version") (before ++ PDict dep_entries :: more)
   then assoc "version" dep_entries else Some PNone) = Some version ->
  clone_repo u (repo_dir_of directory u) version (d_fs FS M s1) = (fs', Some e) ->
  process_manifest FS M load_manifest clone_repo path_exists glob ShellModule_new
    load_source directory discover mod_dir s
  = Raised FS M e
      (add_clone FS M u (repo_dir_of directory u) version
         (with_fs FS M fs'
            (add_log FS M (Cloning (repo_dir_of directory u))
               (add_log FS M (Fetching (PStr u)) s1)))).
Proof.
  intros Hload Hdeps Hbefore Hurl Hver Hclone.
  unfold process_manifest. rewrite Hload.
  cbn [py_in getitem]. rewrite Hdeps.
  rewrite bool_decide_eq_true_2 by eauto.
  unfold process_module_deps. cbn [py_iter].
  rewrite process_deps_loop_app, Hbefore.
  cbn [process_deps_loop getitem py_in]. rewrite Hurl.
  destruct (existsb (is_str "version") (before ++ PDict dep_entries :: more)).
  - rewrite Hver.
    now rewrite (install_module_clone_fails discover u version
                   (add_log FS M (Fetching (PStr u)) s1) fs' e) by exact Hclone.
  - injection Hver as <-.
    now rewrite (install_module_clone_fails discover u PNone
                   (add_log FS M (Fetching (PStr u)) s1) fs' e) by exact Hclone.
Qed.

End Discover.

(** C5 (amended). A failure raised while the dependencies of a manifest
    are processed is caught like a failure to read the manifest: when
    what is raised is an instance of [Exception], the handler around the
    processing of the directory logs it and the loop goes on with the
    next directory, the remaining dependencies of the directory and its
    own modules not being looked at. So it is for a manifest that cannot
    be read, and so it is for a dependency whose clone fails, whichever
    dependency of the list it is. What is no instance of [Exception]
    passes the handler: it ends the loop and comes out of it as it was
    raised. *)
Theorem dependency_failure_is_caught
    (FS M : Type)
    (load_manifest : FS -> string -> result pyval)
    (clone_repo : string -> string -> pyval -> FS -> FS * option exn)
    (path_exists : FS -> string -> bool)
    (glob : FS -> string -> string -> list string)
    (ShellModule_new : string -> string -> string -> FS -> FS * result M)
    (load_source :
       string -> string -> FS ->
       FS * result (list (string * (string -> string -> FS -> FS * result M))))
    (directory : string) :
  (forall discover mod_dir rest s e,
     load_manifest (d_fs FS M s) mod_dir = Raise e ->
     is_Exception e = true ->
     discover_dirs FS M load_manifest clone_repo path_exists glob ShellModule_new
       load_source directory discover (mod_dir :: rest) s
     = discover_dirs FS M load_manifest clone_repo path_exists glob ShellModule_new
         load_source directory discover rest (add_log FS M (CannotProcess e) s))
  /\ (forall discover mod_dir rest s s1 entries dep_entries before more u version
             fs' e,
        load_manifest (d_fs FS M s) mod_dir = Return (PDict entries) ->
        assoc "deps" entries = Some (PList (before ++ PDict dep_entries :: more)) ->
        process_deps_loop FS M clone_repo directory discover
          (PList (before ++ PDict dep_entries :: more)) before s
        = Done FS M s1 ->
        assoc "url" dep_entries = Some (PStr u) ->
        (if existsb (is_str "version") (before ++ PDict dep_entries :: more)
         then assoc "version" dep_entries else Some PNone) = Some version ->
        clone_repo u (repo_dir_of directory u) version (d_fs FS M s1)
        = (fs', Some e) ->
        let failed :=
          add_clone FS M u (repo_dir_of directory u) version
            (with_fs FS M fs'
               (add_log FS M (Cloning (repo_dir_of directory u))
                  (add_log FS M (Fetching (PStr u)) s1))) in
        (is_Exception e = true ->
         discover_dirs FS M load_manifest clone_repo path_exists glob
           ShellModule_new load_source directory discover (mod_dir :: rest) s
         = discover_dirs FS M load_manifest clone_repo path_exists glob
             ShellModule_new load_source directory discover rest
             (add_log FS M (CannotProcess e) failed))
        /\ (is_Exception e = false ->
            discover_dirs FS M load_manifest clone_repo path_exists glob
              ShellModule_new load_source directory discover (mod_dir :: rest) s
            = Raised FS M e failed)).
Proof.
  split.
  - intros discover mod_dir rest s e H He. cbn [discover_dirs].
    unfold process_manifest. now rewrite H, He.
  - intros discover mod_dir rest s s1 entries dep_entries before more u version
      fs' e Hload Hdeps Hbefore Hurl Hver Hclone failed.
    cbn [discover_dirs].
    rewrite (process_manifest_clone_fails FS M load_manifest clone_repo path_exists
               glob ShellModule_new load_source directory discover mod_dir s s1
               entries dep_entries before more u version fs' e
               Hload Hdeps Hbefore Hurl Hver Hclone).
    fold failed. split; intros He; now rewrite He.
Qed.

Lemma dependency_failure_is_caught_witness :
  discover_dirs (list string) string Examples.two_deps_manifest
    Examples.clone_other_fails
    Examples.tree_exists Examples.tree_glob Examples.tree_shell Examples.tree_source
    "/modules" (fun _ s => Done _ _ s) ["/modules/a"; "/modules/b"] Examples.tree_start
  = discover_dirs (list string) string Examples.two_deps_manifest
      Examples.clone_other_fails
      Examples.tree_exists Examples.tree_glob Examples.tree_shell Examples.tree_source
      "/modules" (fun _ s => Done _ _ s) ["/modules/b"]
      {| d_fs := ["/modules/dep"]; d_modules := ∅;
         d_log := [Fetching (PStr "https://example.com/dep.git");
                   Cloning "/modules/dep";
                   Fetching (PStr "https://example.com/other.git");
                   Cloning "/modules/other";
                   CannotProcess (CCTError "clone failed")];
         d_clones := [("https://example.com/dep.git", "/modules/dep", PNone);
                      ("https://example.com/other.git", "/modules/other", PNone)] |}
  /\ discover_dirs (list string) string Examples.tree_manifest
       Examples.clone_interrupted
       Examples.tree_exists Examples.tree_glob Examples.tree_shell Examples.tree_source
       "/modules" (fun _ s => Done _ _ s) ["/modules/a"; "/modules/b"]
       Examples.tree_start
     = Raised _ _ KeyboardInterrupt
         {| d_fs := []; d_modules := ∅;
            d_log := [Fetching (PStr "https://example.com/dep.git");
                      Cloning "/modules/dep"];
            d_clones := [("https://example.com/dep.git", "/modules/dep", PNone)] |}
  /\ discover_dirs (list string) string Examples.tree_manifest Examples.clone_ok
       Examples.tree_exists Examples.tree_glob Examples.tree_shell Examples.tree_source
       "/modules" (fun _ s => Done _ _ s) ["/modules/c"] Examples.tree_start
     = Done _ _
         {| d_fs := []; d_modules := ∅;
            d_log := [CannotProcess (Exception_ "No such file or directory")];
            d_clones := [] |}.
Proof.
  split; [|split].
  - destruct (dependency_failure_is_caught (list string) string
                Examples.two_deps_manifest Examples.clone_other_fails
                Examples.tree_exists Examples.tree_glob Examples.tree_shell
                Examples.tree_source "/modules") as (_ & H).
    destruct (H (fun _ s => Done _ _ s) "/modules/a" ["/modules/b"]
                Examples.tree_start
                {| d_fs := ["/modules/dep"]; d_modules := ∅;
                   d_log := [Fetching (PStr "https://example.com/dep.git");
                             Cloning "/modules/dep"];
                   d_clones := [("https://example.com/dep.git", "/modules/dep",
                                 PNone)] |}
                [("language", PStr "bash");
                 ("deps", PList [Examples.dep_decl; Examples.other_decl])]
                [("url", PStr "https://example.com/other.git")]
                [Examples.dep_decl] [] "https://example.com/other.git" PNone
                ["/modules/dep"] (CCTError "clone failed"))
      as (Hcaught & _);
      [reflexivity | reflexivity | reflexivity | reflexivity | reflexivity
      | reflexivity | ].
    exact (Hcaught eq_refl).
  - destruct (dependency_failure_is_caught (list string) string
                Examples.tree_manifest Examples.clone_interrupted
                Examples.tree_exists Examples.tree_glob Examples.tree_shell
                Examples.tree_source "/modules") as (_ & H).
    destruct (H (fun _ s => Done _ _ s) "/modules/a" ["/modules/b"]
                Examples.tree_start Examples.tree_start
                [("language", PStr "bash"); ("deps", PList [Examples.dep_decl])]
                [("url", PStr "https://example.com/dep.git");
                 ("version", PStr "1.0")]
                [] [] "https://example.com/dep.git" PNone
                [] KeyboardInterrupt)
      as (_ & Hpassed);
      [reflexivity | reflexivity | reflexivity | reflexivity | reflexivity
      | reflexivity | ].
    exact (Hpassed eq_refl).
  - destruct (dependency_failure_is_caught (list string) string
                Examples.tree_manifest Examples.clone_ok
                Examples.tree_exists Examples.tree_glob Examples.tree_shell
                Examples.tree_source "/modules") as (H & _).
    exact (H (fun _ s => Done _ _ s) "/modules/c" [] Examples.tree_start
             (Exception_ "No such file or directory") eq_refl eq_refl).
Defined.

(** C5, as stated, fails. With the clone of the one dependency of the
    first directory failing, discovery returns: the failure is in the log,
    and the module of the second directory is registered. *)
Lemma clone_failure_not_fatal :
  exists s,
    Examples.discover_tree Examples.clone_fails 2 = Done _ _ s
    /\ d_log _ _ s = [Fetching (PStr "https://example.com/dep.git");
                      Cloning "/modules/dep";
                      CannotProcess (CCTError "clone failed")]
    /\ d_modules _ _ s !! "b.tool" = Some "b.tool".
Proof. eexists. repeat split; reflexivity. Qed.

(** C4: the code at a manifest whose one dependency declares the version
    1.0. The installer is called once, with the url of the dependency,
    and the clone is made with the version [None]. *)
Theorem declared_version_not_passed :
  exists s,
    Examples.discover_tree Examples.clone_ok 2 = Done _ _ s
    /\ d_clones _ _ s = [("https://example.com/dep.git", "/modules/dep", PNone)]
    /\ getitem Examples.dep_decl "version" = Return (PStr "1.0").
Proof. eexists. repeat split; reflexivity. Qed.

End DiscoveryProps.

(** ** The script introspector *)

Module ScriptProps.

Import Script StringFacts.

Lemma discover_lines_app (st : DiscoverState) (l1 l2 : list string) :
  discover_lines st (l1 ++ l2)
  = match discover_lines st l1 with
    | Return st1 => discover_lines st1 l2
    | Raise e => Raise e
    end.
Proof.
  revert st. induction l1 as [|line l1 IH]; intros st; [reflexivity|].
  cbn [app discover_lines]. destruct (discover_line st line); [apply IH | reflexivity].
Qed.

(** What one line does to the pending comment. *)
Lemma discover_line_comment (st st' : DiscoverState) (line : string) :
  discover_line st line = Return st' ->
  ds_comment st'
  = match classify line with
    | Comment => ds_comment st +:+ Py.tail line
    | Other => ""
    | _ => ds_comment st
    end.
Proof.
  unfold discover_line. destruct (classify line).
  - now intros [= <-].
  - destruct (function_name line); [now intros [= <-] | discriminate].
  - destruct (param_name line); [|discriminate].
    destruct (ds_names st !! ds_name st); [|discriminate].
    destruct (param_search line); [now intros [= <-] | discriminate].
  - now intros [= <-].
Qed.

(** Over lines none of which resets it, the pending comment grows by the
    comment lines, less their first character. *)
Lemma pending_comment_grows (mid : list string) (st st' : DiscoverState) :
  Forall (fun line => classify line <> Other) mid ->
  discover_lines st mid = Return st' ->
  ds_comment st' = ds_comment st +:+ stripped (comment_lines mid).
Proof.
  intros Hmid. revert st. induction Hmid as [|line mid Hline _ IH]; intros st.
  - cbn. intros [= <-]. now rewrite append_nil_r.
  - cbn [discover_lines]. destruct (discover_line st line) as [st1|e] eqn:H1; [|discriminate].
    intros Hrest. rewrite (IH _ Hrest), (discover_line_comment _ _ _ H1).
    unfold comment_lines. cbn [List.filter].
    destruct (classify line) eqn:Hc; try contradiction;
      rewrite ?bool_decide_eq_true_2 by reflexivity;
      rewrite ?bool_decide_eq_false_2 by discriminate;
      cbn [stripped fold_right]; now rewrite ?append_assoc.
Qed.

(** After a line of the fourth kind the pending comment is empty. *)
Lemma pending_comment_reset (pre : list string) (o : string)
    (st st' : DiscoverState) :
  classify o = Other ->
  discover_lines st (pre ++ [o]) = Return st' ->
  ds_comment st' = "".
Proof.
  intros Ho. rewrite discover_lines_app.
  destruct (discover_lines st pre) as [st1|e]; [|discriminate].
  cbn [discover_lines]. destruct (discover_line st1 o) as [st2|e] eqn:H; [|discriminate].
  intros [= <-]. rewrite (discover_line_comment _ _ _ H). now rewrite Ho.
Qed.

(** A definition line registers the pending comment under its name. *)
Lemma discover_line_defines (st : DiscoverState) (line name : string) :
  defines name line ->
  discover_line st line
  = Return {| ds_names := <[name := {| fd_name := name;
                                        fd_comment := ds_comment st;
                                        fd_params := ∅ |}]> (ds_names st);
              ds_comment := ds_comment st;
              ds_name := name |}.
Proof. intros [Hc Hn]. unfold discover_line. now rewrite Hc, Hn. Qed.

(** The lines after a definition leave its name and documentation alone,
    unless one of them defines the same name again. *)
Lemma descriptor_kept (post : list string) (st st' : DiscoverState)
    (name : string) (f : FunctionDescriptor) :
  Forall (fun line => ~ defines name line) post ->
  discover_lines st post = Return st' ->
  ds_names st !! name = Some f ->
  exists f', ds_names st' !! name = Some f'
             /\ fd_name f' = fd_name f /\ fd_comment f' = fd_comment f.
Proof.
  intros Hpost. revert st f. induction Hpost as [|line post Hline _ IH]; intros st f.
  - cbn. intros [= <-] Hf. eauto.
  - cbn [discover_lines].
    destruct (discover_line st line) as [st1|e] eqn:H1; [|discriminate].
    intros Hrest Hf.
    assert (Hkept : exists f1, ds_names st1 !! name = Some f1
                               /\ fd_name f1 = fd_name f /\ fd_comment f1 = fd_comment f).
    { unfold discover_line in H1. destruct (classify line) eqn:Hc.
      - injection H1 as <-. eauto.
      - destruct (function_name line) as [n|e] eqn:Hn; [|discriminate].
        injection H1 as <-. cbn [ds_names].
        destruct (decide (n = name)) as [->|Hne].
        + exfalso. apply Hline. now split.
        + rewrite lookup_insert_ne by exact Hne. eauto.
      - destruct (param_name line) as [pn|e]; [|discriminate].
        destruct (ds_names st !! ds_name st) as [g|] eqn:Hg; [|discriminate].
        destruct (param_search line) as [ref|]; [|discriminate].
        injection H1 as <-. cbn [ds_names].
        destruct (decide (ds_name st = name)) as [Heq|Hne].
        + rewrite Heq. rewrite lookup_insert_eq. rewrite Heq, Hf in Hg.
          injection Hg as <-. eauto.
        + rewrite lookup_insert_ne by exact Hne. eauto.
      - injection H1 as <-. eauto. }
    destruct Hkept as (f1 & Hf1 & N1 & C1).
    destruct (IH _ _ Hrest Hf1) as (f' & Hf' & N' & C').
    exists f'. repeat split; congruence.
Qed.

Lemma classify_param (line : string) :
  classify line = ParamRef -> is_Some (param_search line).
Proof.
  unfold classify. destruct (Py.startswith "#" line); [discriminate|].
  destruct (Py.contains "function" line); [discriminate|].
  case_bool_decide; [trivial | discriminate].
Qed.

(** [_discover] reads a well-formed script to the end. *)
Lemma well_formed_returns (lines : list string) (seen : bool) (st : DiscoverState) :
  well_formed seen lines = true ->
  (seen = true -> is_Some (ds_names st !! ds_name st)) ->
  exists st', discover_lines st lines = Return st'.
Proof.
  revert seen st. induction lines as [|line rest IH]; intros seen st Hwf Hseen.
  - cbn. eauto.
  - cbn [well_formed] in Hwf. cbn [discover_lines]. unfold discover_line.
    destruct (classify line) eqn:Hc.
    + apply (IH seen); [exact Hwf | exact Hseen].
    + destruct (function_name line) as [n|e]; [|discriminate].
      apply (IH true); [exact Hwf|]. intros _. cbn. rewrite lookup_insert_eq. eauto.
    + destruct (param_name line) as [pn|e]; [|discriminate].
      apply andb_true_iff in Hwf as [-> Hwf].
      destruct (Hseen eq_refl) as [g Hg]. rewrite Hg.
      destruct (classify_param _ Hc) as [ref Hp]. rewrite Hp.
      apply (IH true); [exact Hwf|]. intros _. cbn. rewrite lookup_insert_eq. eauto.
    + apply (IH seen); [exact Hwf | exact Hseen].
Qed.

Lemma comment_lines_none (lines : list string) :
  Forall (fun line => classify line <> Comment) lines -> comment_lines lines = [].
Proof.
  induction 1 as [|line lines Hline _ IH]; [reflexivity|].
  unfold comment_lines in *. cbn [List.filter].
  now rewrite bool_decide_eq_false_2.
Qed.

Lemma comment_lines_all (lines : list string) :
  Forall (fun line => classify line = Comment) lines -> comment_lines lines = lines.
Proof.
  induction 1 as [|line lines Hline _ IH]; [reflexivity|].
  unfold comment_lines in *. cbn [List.filter].
  rewrite bool_decide_eq_true_2 by exact Hline. now rewrite IH.
Qed.

(** Some lines either hold no line of the fourth kind, or split at the
    last such line. *)
Lemma split_last_other (gap : list string) :
  Forall (fun line => classify line <> Other) gap
  \/ exists g1 o g2,
       gap = g1 ++ o :: g2 /\ classify o = Other
       /\ Forall (fun line => classify line <> Other) g2.
Proof.
  induction gap as [|x r IH]; [left; constructor|].
  destruct IH as [Hall | (g1 & o & g2 & -> & Ho & Hg2)].
  - destruct (decide (classify x = Other)) as [Hx|Hx].
    + right. exists [], x, r. now repeat split.
    + left. now constructor.
  - right. exists (x :: g1), o, g2. now repeat split.
Qed.

(** The documentation of a function is what the comment lines since the
    last line of the fourth kind, or since the start of the script, amount
    to. *)
Lemma documentation_since_reset (prefix mid post : list string) (d name : string) :
  prefix = [] \/ (exists pre o, prefix = pre ++ [o] /\ classify o = Other) ->
  Forall (fun line => classify line <> Other) mid ->
  defines name d ->
  Forall (fun line => ~ defines name line) post ->
  well_formed false (prefix ++ mid ++ d :: post) = true ->
  exists names f,
    _discover (prefix ++ mid ++ d :: post) = Return names
    /\ names !! name = Some f
    /\ fd_name f = name
    /\ fd_comment f = stripped (comment_lines mid).
Proof.
  intros Hprefix Hmid Hd Hpost Hwf.
  destruct (well_formed_returns _ false discover_init Hwf) as [st4 Hrun];
    [discriminate|].
  unfold _discover. rewrite Hrun.
  rewrite discover_lines_app in Hrun.
  destruct (discover_lines discover_init prefix) as [st0|e] eqn:H0; [|discriminate].
  rewrite discover_lines_app in Hrun.
  destruct (discover_lines st0 mid) as [st1|e] eqn:H1; [|discriminate].
  cbn [discover_lines] in Hrun. rewrite (discover_line_defines st1 d name Hd) in Hrun.
  assert (Hc0 : ds_comment st0 = "").
  { destruct Hprefix as [-> | (pre & o & -> & Ho)].
    - cbn in H0. now injection H0 as <-.
    - exact (pending_comment_reset _ _ _ _ Ho H0). }
  pose proof (pending_comment_grows _ _ _ Hmid H1) as Hc1.
  rewrite Hc0, append_nil_l in Hc1.
  destruct (descriptor_kept post _ st4 name
              {| fd_name := name; fd_comment := ds_comment st1; fd_params := ∅ |}
              Hpost Hrun) as (f & Hf & Nf & Cf).
  { cbn. apply lookup_insert_eq. }
  exists (ds_names st4), f. cbn in Nf, Cf. repeat split; congruence.
Qed.

(** C8 (amended). In a script that [_discover] reads to the end, a
    function definition that comes right after a block of comment lines,
    the block itself starting the script or coming right after a line
    that is neither comment, definition nor parameter reference, gets as
    documentation exactly those comment lines, each less its first
    character. A definition with such a line and no comment line between
    it and the comments before gets the empty documentation. In general
    the documentation is made of all the comment lines since the last
    such line, definitions and parameter references in between not
    counting. The descriptor is the one the table holds at the end unless
    a later line defines the same name. *)
Theorem documentation_of_definition (name d : string) (post : list string) :
  defines name d ->
  Forall (fun line => ~ defines name line) post ->
  (forall prefix block,
     prefix = [] \/ (exists pre o, prefix = pre ++ [o] /\ classify o = Other) ->
     Forall (fun line => classify line = Comment) block ->
     well_formed false (prefix ++ block ++ d :: post) = true ->
     exists names f,
       _discover (prefix ++ block ++ d :: post) = Return names
       /\ names !! name = Some f /\ fd_name f = name
       /\ fd_comment f = stripped block)
  /\ (forall before gap,
        Forall (fun line => classify line <> Comment) gap ->
        Exists (fun line => classify line = Other) gap ->
        well_formed false (before ++ gap ++ d :: post) = true ->
        exists names f,
          _discover (before ++ gap ++ d :: post) = Return names
          /\ names !! name = Some f /\ fd_name f = name
          /\ fd_comment f = "")
  /\ (forall prefix mid,
        prefix = [] \/ (exists pre o, prefix = pre ++ [o] /\ classify o = Other) ->
        Forall (fun line => classify line <> Other) mid ->
        well_formed false (prefix ++ mid ++ d :: post) = true ->
        exists names f,
          _discover (prefix ++ mid ++ d :: post) = Return names
          /\ names !! name = Some f /\ fd_name f = name
          /\ fd_comment f = stripped (comment_lines mid)).
Proof.
  intros Hd Hpost. split; [|split].
  - intros prefix block Hprefix Hblock Hwf.
    destruct (documentation_since_reset prefix block post d name)
      as (names & f & H1 & H2 & H3 & H4); trivial.
    { eapply Forall_impl; [exact Hblock|]. cbn. intros line ->. discriminate. }
    exists names, f. rewrite (comment_lines_all block Hblock) in H4. now repeat split.
  - intros before gap Hgap Hother Hwf.
    destruct (split_last_other gap) as [Hall | (g1 & o & g2 & -> & Ho & Hg2)].
    + exfalso. apply Exists_exists in Hother as (line & Hin & Hline).
      rewrite Forall_forall in Hall. exact (Hall _ Hin Hline).
    + apply Forall_app in Hgap as [_ Hgap]. apply Forall_cons in Hgap as [_ Hgap].
      replace (before ++ (g1 ++ o :: g2) ++ d :: post)
        with ((before ++ g1 ++ [o]) ++ g2 ++ d :: post) in *
        by (now rewrite <- !app_assoc).
      destruct (documentation_since_reset (before ++ g1 ++ [o]) g2 post d name)
        as (names & f & H1 & H2 & H3 & H4); trivial.
      { right. exists (before ++ g1), o. split; [now rewrite <- app_assoc | exact Ho]. }
      exists names, f. rewrite (comment_lines_none _ Hgap) in H4. now repeat split.
  - intros prefix mid Hprefix Hmid Hwf. now apply documentation_since_reset.
Qed.

Lemma documentation_of_definition_witness :
  (exists names f,
     _discover Examples.doit_script = Return names
     /\ names !! "doit" = Some f /\ fd_name f = "doit"
     /\ fd_comment f = " Does it." +:+ nl +:+ " Twice." +:+ nl)
  /\ (exists names f,
        _discover Examples.doit_script_blank = Return names
        /\ names !! "doit" = Some f /\ fd_name f = "doit"
        /\ fd_comment f = "").
Proof.
  assert (Hd : defines "doit" ("function doit() {" +:+ nl)) by (split; reflexivity).
  assert (Hpost : Forall (fun line => ~ defines "doit" line)
                    ["  target=$1" +:+ nl; "}" +:+ nl]).
  { repeat constructor; intros [H _]; vm_compute in H; discriminate. }
  destruct (documentation_of_definition "doit" ("function doit() {" +:+ nl)
              ["  target=$1" +:+ nl; "}" +:+ nl] Hd Hpost) as (Ha & Hb & _).
  split.
  - apply (Ha ["#!/bin/sh" +:+ nl; nl] ["# Does it." +:+ nl; "# Twice." +:+ nl]).
    + right. exists ["#!/bin/sh" +:+ nl], nl. split; reflexivity.
    + repeat constructor.
    + reflexivity.
  - apply (Hb ["# Does it." +:+ nl; "# Twice." +:+ nl] [nl]).
    + repeat constructor. discriminate.
    + constructor. reflexivity.
    + reflexivity.
Defined.

(** C8, as stated, fails. In a script of two one-line functions, each
    right after its one comment line, the documentation of the second is
    both comment lines, not its own alone. *)
Lemma documentation_spans_definitions :
  List.map classify Examples.two_functions = [Comment; FunctionDef; Comment; FunctionDef]
  /\ exists names f,
       _discover Examples.two_functions = Return names
       /\ names !! "g" = Some f
       /\ fd_comment f = " first" +:+ nl +:+ " second" +:+ nl
       /\ fd_comment f <> " second" +:+ nl.
Proof.
  split; [reflexivity|]. eexists _, _.
  split; [reflexivity|]. split; [reflexivity|]. split; [reflexivity | discriminate].
Qed.

End ScriptProps.

(** ** Further properties of substitution and of the environment *)

Module EnvMore.

Import Env StringFacts.

Lemma join_cons_char (sep : string) (a : ascii) (t : string) (ts : list string) :
  Py.join sep (String a t :: ts) = String a (Py.join sep (t :: ts)).
Proof. destruct ts as [|y l]; reflexivity. Qed.

(** Cutting a string at a character and joining the pieces with it gives
    the string again. *)
Lemma join_split (c : ascii) (s : string) :
  Py.join (String c EmptyString) (Py.split c s) = s.
Proof.
  induction s as [|a r IH]; [reflexivity|].
  cbn [Py.split]. destruct (Ascii.eqb a c) eqn:E.
  - apply Ascii.eqb_eq in E as ->.
    destruct (Py.split c r) as [|t ts] eqn:Hs; [now apply split_nonempty in Hs|].
    cbn [Py.join]. rewrite append_nil_l. cbn [Py.join] in IH.
    change (String c "" +:+ Py.join (String c "") (t :: ts))
      with (String c (Py.join (String c "") (t :: ts))).
    now rewrite IH.
  - destruct (Py.split c r) as [|t ts] eqn:Hs; [now apply split_nonempty in Hs|].
    rewrite join_cons_char. now rewrite IH.
Qed.

Lemma map_unchanged (environ environment : gmap string string) (tokens : list string) :
  Forall (fun t => replace_token environ environment t = t) tokens ->
  List.map (replace_token environ environment) tokens = tokens.
Proof. induction 1 as [|t l Ht _ IH]; cbn; [reflexivity | now rewrite Ht, IH]. Qed.

(** X1. A string every piece of which either does not start with the
    dollar sign or names a variable that neither environment sets to a
    non-empty value comes out of substitution as it went in, with one
    space added at the end. *)
Theorem replace_variables_passes_through
    (environ environment : gmap string string) (s : string) :
  Forall (fun token =>
            Py.startswith "$" token = false
            \/ (Py.truthy (environ !! Py.tail token) = false
                /\ Py.truthy (environment !! Py.tail token) = false))
         (Py.split " " s) ->
  _replace_variables environ environment s = s +:+ " ".
Proof.
  intros H.
  rewrite EnvProps.replace_variables_emit, EnvProps.emit_join by apply split_nonempty.
  rewrite map_unchanged.
  - now rewrite (join_split " " s).
  - eapply Forall_impl; [exact H|]. cbn. intros token [Hp|[Hh Hm]].
    + now apply EnvProps.replace_token_plain.
    + unfold replace_token. rewrite Hh, Hm. now destruct (Py.startswith "$" token).
Qed.

Lemma replace_variables_passes_through_witness :
  _replace_variables {["HOME" := "/root"]} ∅ "echo  $USER done" = "echo  $USER done ".
Proof.
  apply (replace_variables_passes_through {["HOME" := "/root"]} ∅ "echo  $USER done").
  repeat constructor; (left; reflexivity) || (right; split; reflexivity).
Defined.

(** X2. [_process_environment] keeps the number of arguments and the
    state of an operation, and leaves an operation with no dollar sign in
    its command and arguments exactly as it is. *)
Theorem process_environment_without_dollar
    (environ environment : gmap string string) (operation : Operation) :
  length (op_args (Runner._process_environment environ environment operation))
  = length (op_args operation)
  /\ op_state (Runner._process_environment environ environment operation)
     = op_state operation
  /\ (Py.has_char "$" (op_command operation) = false ->
      Forall (fun arg => Py.has_char "$" arg = false) (op_args operation) ->
      Runner._process_environment environ environment operation = operation).
Proof.
  unfold Runner._process_environment. cbn [op_args op_state].
  split; [apply length_map|]. split; [reflexivity|].
  intros Hc Ha. rewrite Hc. destruct operation as [command args state].
  cbn [op_command op_args op_state] in *. f_equal.
  induction Ha as [|arg l Harg _ IH]; [reflexivity|].
  cbn [List.map]. now rewrite Harg, IH.
Qed.

Lemma process_environment_without_dollar_witness :
  Runner._process_environment {["HOME" := "/root"]} ∅
    (Operation_init "dump" (Some ["a"; "b=c"]))
  = Operation_init "dump" (Some ["a"; "b=c"]).
Proof.
  apply (process_environment_without_dollar {["HOME" := "/root"]} ∅
           (Operation_init "dump" (Some ["a"; "b=c"]))).
  - reflexivity.
  - repeat constructor.
Defined.

(** X3. After [_update_env(env)], [getenv] still gives a non-empty host
    value first; failing that it gives the value of [env] for a name
    [env] holds, and for any other name what it gave before. *)
Theorem getenv_after_update_env
    (environ env environment : gmap string string) (name : string)
    (default : option string) :
  (Py.truthy (environ !! name) = true ->
   getenv environ (More._update_env env environment) name default = environ !! name)
  /\ (forall v,
        Py.truthy (environ !! name) = false -> env !! name = Some v ->
        getenv environ (More._update_env env environment) name default = Some v)
  /\ (env !! name = None ->
      getenv environ (More._update_env env environment) name default
      = getenv environ environment name default).
Proof.
  unfold getenv, More._update_env. split; [|split].
  - now intros ->.
  - intros v -> Hv. now rewrite (lookup_union_Some_l _ _ _ _ Hv).
  - intros Hn. now rewrite lookup_union_r.
Qed.

Lemma getenv_after_update_env_witness :
  getenv {["A" := "host"]} (More._update_env {["B" := "new"]} {["B" := "old"]}) "A" None
  = Some "host"
  /\ getenv {["A" := "host"]} (More._update_env {["B" := "new"]} {["B" := "old"]})
       "B" None = Some "new"
  /\ getenv {["A" := "host"]} (More._update_env {["B" := "new"]} {["C" := "kept"]})
       "C" None = Some "kept".
Proof.
  split; [|split].
  - destruct (getenv_after_update_env {["A" := "host"]} {["B" := "new"]}
                {["B" := "old"]} "A" None) as (H & _ & _).
    rewrite H; reflexivity.
  - destruct (getenv_after_update_env {["A" := "host"]} {["B" := "new"]}
                {["B" := "old"]} "B" None) as (_ & H & _).
    apply H; reflexivity.
  - destruct (getenv_after_update_env {["A" := "host"]} {["B" := "new"]}
                {["C" := "kept"]} "C" None) as (_ & _ & H).
    rewrite H; reflexivity.
Defined.

End EnvMore.

(** ** Further properties of dispatch *)

Module DispatchMore.

Import Runner StringFacts.

Lemma bind_arg_cases (params : list string) (args : list string)
    (kwargs : gmap string string) (arg : string) :
  Dispatch.bind_arg params (args, kwargs) arg
  = if More.binds params arg
    then (args, match Py.split_once "=" arg with
                | Some (key, value) => <[key := value]> kwargs
                | None => kwargs
                end)
    else (args ++ [Py.strip arg], kwargs).
Proof.
  unfold Dispatch.bind_arg, More.binds.
  destruct (Py.has_char "=" arg) eqn:Hc.
  - destruct (Py.split_once "=" arg) as [[key value]|]; [|reflexivity].
    now destruct (bool_decide (key ∈ params)).
  - apply has_char_split_once in Hc. now rewrite Hc.
Qed.

Lemma fold_bind_positional (params : list string) (op_args args : list string)
    (kwargs : gmap string string) :
  fst (fold_left (Dispatch.bind_arg params) op_args (args, kwargs))
  = args ++ List.map Py.strip
              (List.filter (fun arg => negb (More.binds params arg)) op_args).
Proof.
  revert args kwargs. induction op_args as [|arg rest IH]; intros args kwargs.
  - cbn. now rewrite app_nil_r.
  - cbn [fold_left List.filter]. rewrite bind_arg_cases.
    destruct (More.binds params arg); cbn [negb].
    + apply IH.
    + rewrite IH. cbn [List.map]. now rewrite <- app_assoc.
Qed.

(** X4. The positional arguments of a call are the arguments of the
    operation that are not bound as keyword arguments, in their order,
    each with the blanks at its ends stripped. *)
Theorem positional_arguments_in_order (params op_args : list string) :
  fst (Dispatch.bind_args params op_args)
  = List.map Py.strip (List.filter (fun arg => negb (More.binds params arg)) op_args).
Proof. unfold Dispatch.bind_args. now rewrite fold_bind_positional. Qed.

Lemma fold_bind_keyword_None (params : list string) (op_args args : list string)
    (kwargs : gmap string string) (key : string) :
  Forall (fun arg => forall value, Py.split_once "=" arg <> Some (key, value)) op_args ->
  snd (fold_left (Dispatch.bind_arg params) op_args (args, kwargs)) !! key
  = kwargs !! key.
Proof.
  intros H. revert args kwargs.
  induction H as [|arg rest Harg _ IH]; intros args kwargs; [reflexivity|].
  cbn [fold_left]. rewrite bind_arg_cases.
  destruct (More.binds params arg); [|apply IH].
  rewrite IH. destruct (Py.split_once "=" arg) as [[k v]|]; [|reflexivity].
  apply lookup_insert_ne. intros ->. now apply (Harg v).
Qed.

Lemma fold_bind_keyword_origin (params : list string) (op_args args : list string)
    (kwargs : gmap string string) (key value : string) :
  snd (fold_left (Dispatch.bind_arg params) op_args (args, kwargs)) !! key = Some value ->
  kwargs !! key = Some value
  \/ (key ∈ params
      /\ exists arg, arg ∈ op_args /\ Py.split_once "=" arg = Some (key, value)).
Proof.
  revert args kwargs. induction op_args as [|arg rest IH]; intros args kwargs.
  - cbn. now left.
  - cbn [fold_left]. rewrite bind_arg_cases.
    destruct (More.binds params arg) eqn:Hb.
    + intros H. apply IH in H as [H|(Hin & a & Ha & Hs)].
      * unfold More.binds in Hb.
        destruct (Py.split_once "=" arg) as [[k v]|] eqn:Hs; [|now left].
        apply bool_decide_eq_true in Hb.
        destruct (decide (k = key)) as [->|Hne].
        -- rewrite lookup_insert_eq in H. injection H as ->.
           right. split; [exact Hb|]. exists arg. split; [apply elem_of_cons; now left | exact Hs].
        -- rewrite lookup_insert_ne in H by exact Hne. now left.
      * right. split; [exact Hin|]. exists a. split; [apply elem_of_cons; now right | exact Hs].
    + intros H. apply IH in H as [H|(Hin & a & Ha & Hs)]; [now left|].
      right. split; [exact Hin|]. exists a. split; [apply elem_of_cons; now right | exact Hs].
Qed.

(** X5. Every keyword argument of a call carries the name of a declared
    parameter and the value some argument of the operation gives it; and
    when several arguments give a value to the same parameter the last
    one is the one passed. *)
Theorem keyword_arguments_declared_last_wins (params : list string) :
  (forall op_args key value,
     snd (Dispatch.bind_args params op_args) !! key = Some value ->
     key ∈ params
     /\ exists arg, arg ∈ op_args /\ Py.split_once "=" arg = Some (key, value))
  /\ (forall before after arg key value,
        Py.split_once "=" arg = Some (key, value) ->
        key ∈ params ->
        Forall (fun later => forall v, Py.split_once "=" later <> Some (key, v)) after ->
        snd (Dispatch.bind_args params (before ++ arg :: after)) !! key = Some value).
Proof.
  split.
  - intros op_args key value H. unfold Dispatch.bind_args in H.
    apply fold_bind_keyword_origin in H as [H|H]; [|exact H].
    rewrite lookup_empty in H. discriminate.
  - intros before after arg key value Hs Hin Hafter.
    unfold Dispatch.bind_args. rewrite fold_left_app. cbn [fold_left].
    destruct (fold_left (Dispatch.bind_arg params) before ([], ∅)) as [args kwargs].
    rewrite bind_arg_cases. unfold More.binds. rewrite Hs.
    rewrite bool_decide_eq_true_2 by exact Hin.
    rewrite fold_bind_keyword_None by exact Hafter.
    apply lookup_insert_eq.
Qed.

Lemma keyword_arguments_declared_last_wins_witness :
  snd (Dispatch.bind_args ["self"; "port"] ["port=1"; "x"; "port=2"; "y=3"]) !! "port"
  = Some "2".
Proof.
  destruct (keyword_arguments_declared_last_wins ["self"; "port"]) as [_ H].
  apply (H ["port=1"; "x"] ["y=3"] "port=2" "port" "2").
  - reflexivity.
  - apply elem_of_cons. right. apply elem_of_cons. now left.
  - repeat constructor. intros v. discriminate.
Defined.

Lemma bind_args_no_params (op_args : list string) :
  Dispatch.bind_args [] op_args = (List.map Py.strip op_args, ∅).
Proof.
  assert (H : forall args,
             fold_left (Dispatch.bind_arg []) op_args (args, ∅)
             = (args ++ List.map Py.strip op_args, ∅)).
  { induction op_args as [|arg rest IH]; intros args.
    - cbn. now rewrite app_nil_r.
    - cbn [fold_left List.map]. rewrite bind_arg_cases.
      assert (Hb : More.binds [] arg = false).
      { unfold More.binds. destruct (Py.split_once "=" arg) as [[k v]|]; [|reflexivity].
        apply bool_decide_eq_false_2. apply not_elem_of_nil. }
      rewrite Hb, IH. now rewrite <- app_assoc. }
  apply (H []).
Qed.

(** X6. A command that ordinary attribute lookup does not find on a
    shell module is dispatched through [__getattr__]: when the script
    defines a function of that name, the function is run with all the
    arguments of the operation, stripped, as positional arguments, none
    being bound by name; when it does not, the call raises "no such
    method" and the shell is not started. *)
Theorem shell_dispatch
    (World : Type)
    (_run_function : string -> list string -> World -> World * option exn)
    (ordinary : string -> option (result (Capability World)))
    (names : gmap string Script.FunctionDescriptor)
    (inst_state : State) (operation : Operation) (w : World) :
  ordinary (op_command operation) = None ->
  let rr := Module_run (Script.ShellModule_behaviour World _run_function ordinary names)
              inst_state operation w in
  (is_Some (names !! op_command operation) ->
   rr_trace rr = [EvRun (op_command operation) (op_args operation);
                  EvCall (op_command operation)
                    (List.map Py.strip (op_args operation)) ∅]
   /\ rr_world rr
      = fst (_run_function (op_command operation)
               (List.map Py.strip (op_args operation)) w)
   /\ rr_raised rr
      = snd (_run_function (op_command operation)
               (List.map Py.strip (op_args operation)) w))
  /\ (names !! op_command operation = None ->
      rr_raised rr = Some (Exception_ "no such method")
      /\ rr_world rr = w
      /\ rr_operation rr = with_op_state operation Error
      /\ rr_state rr = Error).
Proof.
  intros Hord rr. subst rr. unfold Module_run.
  cbn [Script.ShellModule_behaviour resolve]. rewrite Hord.
  cbn [Script.wrapper cap_params cap_call]. rewrite bind_args_no_params.
  split.
  - intros [f Hf]. rewrite Hf.
    destruct (_run_function (op_command operation)
                (List.map Py.strip (op_args operation)) w) as [w' [e|]];
      [destruct (is_Exception e)|]; cbn; repeat split; reflexivity.
  - intros Hn. rewrite Hn. cbn. repeat split; reflexivity.
Qed.

Lemma shell_dispatch_witness :
  rr_world (Module_run Examples.shell_sample NotRun
              (Operation_init "doit" (Some [" a"; "k=v"])) [])
  = [("doit", ["a"; "k=v"])]
  /\ rr_raised (Module_run Examples.shell_sample NotRun
                  (Operation_init "other" (Some [])) [])
     = Some (Exception_ "no such method").
Proof.
  split.
  - destruct (shell_dispatch Examples.Calls
                (fun name args w => (w ++ [(name, args)], None))
                Examples.shell_ordinary
                Examples.script_names NotRun
                (Operation_init "doit" (Some [" a"; "k=v"])) [])
      as [H _]; [reflexivity|].
    destruct H as (_ & Hw & _); [now eexists|]. exact Hw.
  - destruct (shell_dispatch Examples.Calls
                (fun name args w => (w ++ [(name, args)], None))
                Examples.shell_ordinary
                Examples.script_names NotRun
                (Operation_init "other" (Some [])) [])
      as [_ H]; [reflexivity|].
    destruct H as (Hr & _); [reflexivity|]. exact Hr.
Defined.

End DispatchMore.

(** ** Further properties of the runner *)

Module RunnerMore.

Import Runner StringFacts.

Section Loop.

Variable World : Type.
Variable environ : gmap string string.
Variable beh : Behaviour World.
Variable environment : gmap string string.

Lemma run_operations_app (pre post : list Operation) (st : LoopState World) :
  run_operations environ beh environment (pre ++ post) st
  = match run_operations environ beh environment pre st with
    | (pre', st1, None) =>
        match run_operations environ beh environment post st1 with
        | (post', st2, r) => (pre' ++ post', st2, r)
        end
    | (pre', st1, Some e) => (pre' ++ post, st1, Some e)
    end.
Proof.
  revert st. induction pre as [|o rest IH]; intros st.
  - cbn [app run_operations].
    now destruct (run_operations environ beh environment post st) as [[post' st2] r].
  - cbn [app run_operations]. destruct (is_reserved (op_command o)).
    + rewrite IH.
      destruct (run_operations environ beh environment rest st) as [[rest' st1] [e|]];
        [reflexivity|].
      now destruct (run_operations environ beh environment post st1) as [[post' st2] r].
    + destruct (rr_raised _) as [e|]; [reflexivity|].
      rewrite IH.
      match goal with
      | |- context [run_operations _ _ _ rest ?s] =>
          destruct (run_operations environ beh environment rest s)
            as [[rest' st1] [e|]]; [reflexivity|]
      end.
      now destruct (run_operations environ beh environment post st1) as [[post' st2] r].
Qed.

Lemma run_leaves_refl (ops : list Operation) :
  Forall2 (More.run_leaves environ environment) ops ops.
Proof. induction ops; constructor; [now left | assumption]. Qed.

Lemma run_operations_shape (ops : list Operation) (st : LoopState World) :
  Forall2 (More.run_leaves environ environment) ops
          (fst (fst (run_operations environ beh environment ops st))).
Proof.
  revert st. induction ops as [|o rest IH]; intros st; cbn [run_operations].
  - constructor.
  - destruct (is_reserved (op_command o)) eqn:Ho.
    + specialize (IH st).
      destruct (run_operations environ beh environment rest st) as [[rest' st1] r].
      cbn in *. constructor; [now left | exact IH].
    + set (o1 := _process_environment environ environment o).
      destruct (rr_raised (Module_run beh (ls_instance_state st) o1 (ls_world st)))
        as [e|] eqn:Hr.
      * cbn. constructor; [|apply run_leaves_refl].
        right. split; [exact Ho|].
        destruct (is_Exception e) eqn:He.
        -- exists Error. split; [right; now left|].
           apply (RunnerProps.Module_run_raised _ beh _ _ _ _ Hr He).
        -- exists (op_state o). split; [right; now right|].
           now destruct (RunnerProps.Module_run_let_through _ beh _ _ _ _ Hr He)
             as [-> _].
      * match goal with
        | |- context [run_operations _ _ _ rest ?s] =>
            specialize (IH s);
            destruct (run_operations environ beh environment rest s) as [[rest' st1] r]
        end.
        cbn in *. constructor; [|exact IH].
        right. split; [exact Ho|]. exists Passed. split; [now left|].
        apply (RunnerProps.Module_run_passed _ beh _ _ _ Hr).
Qed.

End Loop.



(** X8. What [run] does always has the same shape: the call of [setup],
    then attempts and calls of operations, none of a reserved name, then
    at most one call of [teardown], at the very end. [run] returns only
    after calling [teardown], and then its state is Passed; when
    [teardown] was not called, [run] raised. *)
Theorem run_lifecycle
    (World : Type) (environ : gmap string string) (beh : Behaviour World)
    (r : ModuleRunner) (w : World) :
  let out := run environ beh r w in
  exists tr tail,
    out_trace out = EvSetup :: tr ++ tail
    /\ (EvSetup ∉ tr) /\ (EvTeardown ∉ tr) /\ Forall unreserved tr
    /\ (tail = [] \/ tail = [EvTeardown])
    /\ (out_raised out = None ->
        tail = [EvTeardown] /\ runner_state (out_runner out) = Passed)
    /\ (tail = [] -> exists e, out_raised out = Some e).
Proof.
  cbv zeta. unfold run.
  destruct (setup beh w) as [w1 [e|]].
  - exists [], []. cbn. repeat split; try apply not_elem_of_nil; eauto; try discriminate.
  - pose proof (RunnerProps.run_operations_trace _ environ beh
                  (mod_environment (runner_instance r))
                  (mod_operations (runner_module r))
                  {| ls_runner_state := runner_state r;
                     ls_instance_state := mod_state (runner_instance r);
                     ls_world := w1; ls_trace := [EvSetup] |})
      as (tr & Htr & T1 & T2 & T3).
    destruct (run_operations _ _ _ _ _) as [[ops' st2] [e|]]; cbn in Htr.
    + exists tr, []. cbn. rewrite Htr, app_nil_r.
      repeat split; eauto; discriminate.
    + destruct (teardown beh (ls_world st2)) as [w3 [e|]];
        exists tr, [EvTeardown]; cbn; rewrite Htr;
        repeat split; eauto; discriminate.
Qed.

Lemma run_lifecycle_witness :
  runner_state
    (out_runner (run ∅ Examples.sample (Examples.runner_for [("setup", [])]) []))
  = Passed.
Proof.
  destruct (run_lifecycle Examples.Calls ∅ Examples.sample
              (Examples.runner_for [("setup", [])]) [])
    as (tr & tail & _ & _ & _ & _ & _ & H & _).
  apply H. reflexivity.
Defined.


Lemma rstrip_blanks (s : string) :
  exists t, s = Py.rstrip s +:+ t /\ More.all_blank t = true.
Proof.
  induction s as [|a r (t & Hr & Ht)]; [now exists ""|].
  cbn [Py.rstrip]. destruct (Py.rstrip r) as [|b r'] eqn:E.
  - rewrite append_nil_l in Hr. subst t. destruct (Py.is_space a) eqn:Ha.
    + exists (String a r). split; [reflexivity|]. cbn. now rewrite Ha.
    + now exists r.
  - exists t. split; [|exact Ht]. rewrite append_cons. now rewrite <- Hr.
Qed.

Lemma rstrip_no_trailing_blank (s : string) :
  match Py.last_char (Py.rstrip s) with
  | Some a => Py.is_space a = false
  | None => True
  end.
Proof.
  induction s as [|a r IH]; [exact I|].
  cbn [Py.rstrip]. destruct (Py.rstrip r) as [|b r'] eqn:E.
  - destruct (Py.is_space a) eqn:Ha; [exact I | exact Ha].
  - exact IH.
Qed.

(** X10. A new operation is in the state NotRun; with no arguments given
    it has none; and each argument it keeps is the one given less the
    blanks at its end, so that no argument of a new operation ends in a
    blank. *)
Theorem operation_init_arguments (command : string) (args : option (list string)) :
  op_command (Operation_init command args) = command
  /\ op_state (Operation_init command args) = NotRun
  /\ (args = None -> op_args (Operation_init command args) = [])
  /\ (forall given,
        args = Some given ->
        Forall2 (fun arg kept =>
                   (exists t, arg = kept +:+ t /\ More.all_blank t = true)
                   /\ match Py.last_char kept with
                      | Some a => Py.is_space a = false
                      | None => True
                      end)
                given (op_args (Operation_init command args))).
Proof.
  split; [reflexivity|]. split; [reflexivity|]. split; [now intros ->|].
  intros given ->. cbn [Operation_init op_args].
  induction given as [|arg l IH]; constructor; [|exact IH].
  split; [apply rstrip_blanks | apply rstrip_no_trailing_blank].
Qed.

Lemma operation_init_arguments_witness :
  op_args (Operation_init "dump" None) = []
  /\ Forall2 (fun arg kept =>
                (exists t, arg = kept +:+ t /\ More.all_blank t = true)
                /\ match Py.last_char kept with
                   | Some a => Py.is_space a = false
                   | None => True
                   end)
             ["a  "; " b"] (op_args (Operation_init "dump" (Some ["a  "; " b"]))).
Proof.
  split.
  - apply (operation_init_arguments "dump" None). reflexivity.
  - apply (operation_init_arguments "dump" (Some ["a  "; " b"])). reflexivity.
Defined.

Lemma completed_runner_state
    (World : Type) (environ : gmap string string) (beh : Behaviour World)
    (environment : gmap string string)
    (ops ops' : list Operation) (st st' : LoopState World) :
  run_operations environ beh environment ops st = (ops', st', None) ->
  ls_runner_state st'
  = if existsb (fun operation => negb (is_reserved (op_command operation))) ops
    then Passed else ls_runner_state st.
Proof.
  revert ops' st st'. induction ops as [|o rest IH]; intros ops' st st';
    cbn [run_operations existsb].
  - now intros [= _ <-].
  - destruct (is_reserved (op_command o)); cbn [negb orb].
    + destruct (run_operations environ beh environment rest st)
        as [[rest' st1] r] eqn:Hrec.
      intros [= _ <- ->]. exact (IH _ _ _ Hrec).
    + destruct (rr_raised _) as [e|]; [discriminate|].
      match goal with
      | |- context [run_operations _ _ _ rest ?s] =>
          destruct (run_operations environ beh environment rest s)
            as [[rest' st1] r] eqn:Hrec
      end.
      intros [= _ <- ->]. rewrite (IH _ _ _ Hrec). cbn.
      now destruct (existsb _ rest).
Qed.



End RunnerMore.

(** ** Further properties of artifacts *)

Module ArtifactMore.

Import Artifact StringFacts.

Section Fetch.

Variable environ : gmap string string.
Variable var_search : string -> option string.
Variable var_sub : string -> string -> result string.
Variable hashlib : string -> result (string -> string).
Variable urlretrieve :
  string -> string -> gmap string node -> gmap string node * option exn.

(** [check_sum] answers True exactly for a file that is there and whose
    digest, under the algorithm named, is the one declared. *)
Lemma check_sum_true (chksum path : string) (fs : gmap string node) :
  check_sum hashlib chksum path fs = Return true <->
  exists content algorithm digest hexdigest,
    fs !! path = Some (File content)
    /\ Py.split_once ":" chksum = Some (algorithm, digest)
    /\ hashlib algorithm = Return hexdigest
    /\ hexdigest content = digest.
Proof.
  unfold check_sum, partition_first. split.
  - destruct (fs !! path) as [n|]; [|discriminate].
    destruct (Py.split_once ":" chksum) as [[algorithm digest]|]; [|discriminate].
    destruct (hashlib algorithm) as [hexdigest|] eqn:Hh; [|discriminate].
    destruct n as [content|]; [|discriminate].
    intros [= H]. apply String.eqb_eq in H.
    exists content, algorithm, digest, hexdigest. now repeat split.
  - intros (content & algorithm & digest & hexdigest & -> & -> & -> & <-).
    now rewrite String.eqb_refl.
Qed.

Lemma init_fields (d : ArtifactDecl) (a : CctArtifact) :
  CctArtifact_init environ var_search var_sub d = Return a ->
  art_name a = decl_name d /\ art_filename a = decl_name d
  /\ art_chksum a = decl_chksum d.
Proof.
  unfold CctArtifact_init. destruct (Py.has_char "$" (decl_url d)).
  - destruct (replace_variables environ var_search var_sub (decl_url d));
      [|discriminate].
    now intros [= <-].
  - now intros [= <-].
Qed.

Lemma get_artifacts_others (decls : list ArtifactDecl) (destination : string)
    (st st' : Store) (r : option exn) (k : string) :
  _get_artifacts environ var_search var_sub hashlib urlretrieve decls destination st
  = (st', r) ->
  (forall d, d ∈ decls -> decl_name d <> k) ->
  st_artifacts st' !! k = st_artifacts st !! k.
Proof.
  revert st. induction decls as [|d rest IH]; intros st; cbn [_get_artifacts].
  - now intros [= <- _].
  - destruct (CctArtifact_init environ var_search var_sub d) as [a|e] eqn:Hi;
      [|now intros [= <- _]].
    destruct (fr_raised _) as [e|]; [now intros [= <- _]|].
    intros Hrun Hk. rewrite (IH _ Hrun).
    + cbn [st_artifacts]. apply lookup_insert_ne.
      unfold fetch. cbn. destruct (check_sum _ _ _ _) as [[|]|?];
        try (destruct (urlretrieve _ _ _) as [? [?|]];
             try destruct (check_sum _ _ _ _) as [[|]|?]);
        cbn; rewrite (proj1 (init_fields _ _ Hi)); apply Hk, elem_of_cons; now left.
    + intros d' Hd'. apply Hk, elem_of_cons. now right.
Qed.

Lemma fetch_artifact (a : CctArtifact) (directory : string) (fs : gmap string node) :
  fr_artifact (fetch hashlib urlretrieve a directory fs)
  = with_path a (path_join directory (art_filename a)).
Proof.
  unfold fetch. destruct (check_sum _ _ _ _) as [[|]|?]; try reflexivity.
  destruct (urlretrieve _ _ _) as [? [?|]]; try reflexivity.
  destruct (check_sum _ _ _ _) as [[|]|?]; reflexivity.
Qed.

Lemma get_artifacts_registered (decls : list ArtifactDecl) (destination : string)
    (st st' : Store) (d : ArtifactDecl) :
  _get_artifacts environ var_search var_sub hashlib urlretrieve decls destination st
  = (st', None) ->
  d ∈ decls ->
  exists a, st_artifacts st' !! decl_name d = Some a
            /\ art_name a = decl_name d
            /\ art_path a = Some (path_join destination (decl_name d)).
Proof.
  revert st d. induction decls as [|d0 rest IH]; intros st d Hrun Hin;
    [now apply elem_of_nil in Hin|].
  cbn [_get_artifacts] in Hrun.
  destruct (CctArtifact_init environ var_search var_sub d0) as [a0|e] eqn:Hi;
    [|discriminate].
  destruct (fr_raised _) as [e|]; [discriminate|].
  destruct (init_fields _ _ Hi) as (N0 & F0 & _).
  destruct (decide (Exists (fun d' => decl_name d' = decl_name d) rest)) as [Hex|Hno].
  - apply Exists_exists in Hex as (d' & Hd' & Hname).
    destruct (IH _ d' Hrun Hd') as (a & Ha & Na & Pa).
    exists a. rewrite <- Hname. now repeat split.
  - assert (Hd : d = d0 \/ d ∈ rest) by (apply elem_of_cons in Hin; exact Hin).
    destruct Hd as [->|Hd].
    + rewrite (get_artifacts_others _ _ _ _ _ _ Hrun).
      * cbn [st_artifacts]. rewrite fetch_artifact. cbn [with_path art_name].
        rewrite N0, lookup_insert_eq. eexists. split; [reflexivity|].
        cbn. rewrite F0. now split.
      * intros d' Hd' Heq. apply Hno, Exists_exists. now exists d'.
    + exfalso. apply Hno, Exists_exists. now exists d.
Qed.

End Fetch.

(** X11. When the file is already there with the declared digest,
    [fetch] makes no download, leaves the files as they are and returns,
    having set the path of the artifact. *)
Theorem fetch_cached
    (hashlib : string -> result (string -> string))
    (urlretrieve : string -> string -> gmap string node
                   -> gmap string node * option exn)
    (a : CctArtifact) (directory : string) (fs : gmap string node)
    (content algorithm digest : string) (hexdigest : string -> string) :
  fs !! path_join directory (art_filename a) = Some (File content) ->
  Py.split_once ":" (art_chksum a) = Some (algorithm, digest) ->
  hashlib algorithm = Return hexdigest ->
  hexdigest content = digest ->
  fetch hashlib urlretrieve a directory fs
  = {| fr_artifact := with_path a (path_join directory (art_filename a));
       fr_fs := fs; fr_downloads := []; fr_raised := None |}.
Proof.
  intros Hf Hs Hh Hd. unfold fetch.
  assert (Hc : check_sum hashlib (art_chksum a)
                 (path_join directory (art_filename a)) fs = Return true).
  { apply check_sum_true. exists content, algorithm, digest, hexdigest. now repeat split. }
  now rewrite Hc.
Qed.

Lemma fetch_cached_witness :
  fr_downloads
    (fetch Examples.plain_hashlib (Examples.serve "other")
       {| art_name := "tool.jar"; art_chksum := "plain:payload";
          art_url := "http://example.com/tool.jar";
          art_filename := "tool.jar"; art_path := None |}
       "/modules/a" {["/modules/a/tool.jar" := File "payload"]})
  = [].
Proof.
  rewrite (fetch_cached Examples.plain_hashlib (Examples.serve "other")
             {| art_name := "tool.jar"; art_chksum := "plain:payload";
                art_url := "http://example.com/tool.jar";
                art_filename := "tool.jar"; art_path := None |}
             "/modules/a" {["/modules/a/tool.jar" := File "payload"]}
             "payload" "plain" "payload" (fun content => content));
    reflexivity.
Defined.

(** X12. [fetch] never downloads more than once, and when it returns
    without raising, the file at the path of the artifact is there and
    its digest, under the algorithm the checksum names, is the declared
    one. *)
Theorem fetch_returns_validated
    (hashlib : string -> result (string -> string))
    (urlretrieve : string -> string -> gmap string node
                   -> gmap string node * option exn)
    (a : CctArtifact) (directory : string) (fs : gmap string node) :
  let fr := fetch hashlib urlretrieve a directory fs in
  length (fr_downloads fr) <= 1
  /\ (fr_raised fr = None ->
      art_path (fr_artifact fr) = Some (path_join directory (art_filename a))
      /\ exists content algorithm digest hexdigest,
           fr_fs fr !! path_join directory (art_filename a) = Some (File content)
           /\ Py.split_once ":" (art_chksum a) = Some (algorithm, digest)
           /\ hashlib algorithm = Return hexdigest
           /\ hexdigest content = digest).
Proof.
  cbv zeta. split.
  - unfold fetch. destruct (check_sum _ _ _ _) as [[|]|?]; cbn; try lia.
    destruct (urlretrieve _ _ _) as [? [?|]]; cbn; try lia.
    destruct (check_sum _ _ _ _) as [[|]|?]; cbn; lia.
  - intros Hr. rewrite fetch_artifact. split; [reflexivity|].
    apply check_sum_true. revert Hr. unfold fetch.
    destruct (check_sum hashlib (art_chksum a) _ fs) as [[|]|?] eqn:H1; cbn;
      try discriminate; [now intros _|].
    destruct (urlretrieve _ _ _) as [fs' [?|]]; cbn; try discriminate.
    destruct (check_sum hashlib (art_chksum a) _ fs') as [[|]|?] eqn:H2; cbn;
      try discriminate. now intros _.
Qed.

Lemma fetch_returns_validated_witness :
  exists content,
    fr_fs (fetch Examples.plain_hashlib (Examples.serve "payload")
             {| art_name := "tool.jar"; art_chksum := "plain:payload";
                art_url := "http://example.com/tool.jar";
                art_filename := "tool.jar"; art_path := None |}
             "/modules/a" ∅)
    !! "/modules/a/tool.jar" = Some (File content).
Proof.
  destruct (fetch_returns_validated Examples.plain_hashlib (Examples.serve "payload")
              {| art_name := "tool.jar"; art_chksum := "plain:payload";
                 art_url := "http://example.com/tool.jar";
                 art_filename := "tool.jar"; art_path := None |}
              "/modules/a" ∅) as [_ H].
  destruct H as (_ & content & _ & _ & _ & Hc & _); [reflexivity|].
  exists content. exact Hc.
Defined.



(** X14. A checksum with no colon is found out only when there is a file
    to check: with a file already at the path [fetch] raises [ValueError]
    without downloading; with none it downloads first and, the download
    having left a file, raises [ValueError] then. *)
Theorem fetch_malformed_checksum
    (hashlib : string -> result (string -> string))
    (urlretrieve : string -> string -> gmap string node
                   -> gmap string node * option exn)
    (a : CctArtifact) (directory : string) (fs : gmap string node) :
  Py.has_char ":" (art_chksum a) = false ->
  (is_Some (fs !! path_join directory (art_filename a)) ->
   fr_raised (fetch hashlib urlretrieve a directory fs) = Some ValueError
   /\ fr_downloads (fetch hashlib urlretrieve a directory fs) = []
   /\ fr_fs (fetch hashlib urlretrieve a directory fs) = fs)
  /\ (forall fs',
        fs !! path_join directory (art_filename a) = None ->
        urlretrieve (art_url a) (path_join directory (art_filename a)) fs
        = (fs', None) ->
        is_Some (fs' !! path_join directory (art_filename a)) ->
        fr_raised (fetch hashlib urlretrieve a directory fs) = Some ValueError
        /\ fr_downloads (fetch hashlib urlretrieve a directory fs)
           = [(art_url a, path_join directory (art_filename a))]).
Proof.
  intros Hc. apply has_char_split_once in Hc.
  assert (Hbad : forall fs0 (content : node),
             fs0 !! path_join directory (art_filename a) = Some content ->
             check_sum hashlib (art_chksum a)
               (path_join directory (art_filename a)) fs0 = Raise ValueError).
  { intros fs0 content H. unfold check_sum, partition_first. now rewrite H, Hc. }
  split.
  - intros [content Hf]. unfold fetch. rewrite (Hbad _ _ Hf). now repeat split.
  - intros fs' Hn Hd [content Hf]. unfold fetch.
    assert (H0 : check_sum hashlib (art_chksum a)
                   (path_join directory (art_filename a)) fs = Return false).
    { unfold check_sum. now rewrite Hn. }
    rewrite H0, Hd, (Hbad _ _ Hf). now split.
Qed.

Lemma fetch_malformed_checksum_witness :
  fr_raised
    (fetch Examples.plain_hashlib (Examples.serve "payload")
       {| art_name := "tool.jar"; art_chksum := "payload";
          art_url := "http://example.com/tool.jar";
          art_filename := "tool.jar"; art_path := None |}
       "/modules/a" ∅)
  = Some ValueError.
Proof.
  destruct (fetch_malformed_checksum Examples.plain_hashlib (Examples.serve "payload")
              {| art_name := "tool.jar"; art_chksum := "payload";
                 art_url := "http://example.com/tool.jar";
                 art_filename := "tool.jar"; art_path := None |}
              "/modules/a" ∅) as [_ H]; [reflexivity|].
  destruct (H {["/modules/a/tool.jar" := File "payload"]}) as [Hr _];
    [reflexivity | reflexivity | now eexists | exact Hr].
Defined.

(** X15. When [_get_artifacts] returns without raising, the mapping
    holds, under the name of every artifact declared, an artifact of that
    name whose path is the destination joined with the name; the entries
    under other names are what they were. *)
Theorem get_artifacts_registers_all
    (environ : gmap string string)
    (var_search : string -> option string) (var_sub : string -> string -> result string)
    (hashlib : string -> result (string -> string))
    (urlretrieve : string -> string -> gmap string node
                   -> gmap string node * option exn)
    (decls : list ArtifactDecl) (destination : string) (st st' : Store) :
  _get_artifacts environ var_search var_sub hashlib urlretrieve decls destination st
  = (st', None) ->
  (forall d, d ∈ decls ->
     exists a, st_artifacts st' !! decl_name d = Some a
               /\ art_name a = decl_name d
               /\ art_path a = Some (path_join destination (decl_name d)))
  /\ (forall k, (forall d, d ∈ decls -> decl_name d <> k) ->
       st_artifacts st' !! k = st_artifacts st !! k).
Proof.
  intros Hrun. split.
  - intros d Hd. eapply get_artifacts_registered; eauto.
  - intros k Hk. eapply get_artifacts_others; eauto.
Qed.

Lemma get_artifacts_registers_all_witness :
  exists a,
    st_artifacts
      (fst (_get_artifacts ∅ (fun _ => None) (fun _ s => Return s)
              Examples.plain_hashlib (Examples.serve "expected")
              [Examples.tool_decl] "/modules/a" Examples.empty_store))
    !! "tool.jar" = Some a
    /\ art_path a = Some "/modules/a/tool.jar".
Proof.
  destruct (get_artifacts_registers_all ∅ (fun _ => None) (fun _ s => Return s)
              Examples.plain_hashlib (Examples.serve "expected")
              [Examples.tool_decl] "/modules/a" Examples.empty_store
              (fst (_get_artifacts ∅ (fun _ => None) (fun _ s => Return s)
                      Examples.plain_hashlib (Examples.serve "expected")
                      [Examples.tool_decl] "/modules/a" Examples.empty_store)))
    as [H _]; [reflexivity|].
  destruct (H Examples.tool_decl) as (a & Ha & _ & Pa);
    [apply elem_of_cons; now left|].
  exists a. split; [exact Ha | exact Pa].
Defined.

End ArtifactMore.

(** ** Further properties of discovery *)

Module DiscoveryMore.

Import Discovery StringFacts.

Lemma length_append (a b : string) :
  String.length (a +:+ b) = String.length a + String.length b.
Proof.
  induction a as [|x a IH]; [reflexivity|].
  rewrite append_cons. cbn [String.length]. now rewrite IH.
Qed.

Lemma substring_all (s : string) : String.substring 0 (String.length s) s = s.
Proof. induction s as [|x s IH]; [reflexivity|]. cbn. now rewrite IH. Qed.

Lemma substring_prefix (a b : string) :
  String.substring 0 (String.length a) (a +:+ b) = a.
Proof.
  induction a as [|x a IH]; [now destruct b|].
  rewrite append_cons. cbn. now rewrite IH.
Qed.

Lemma substring_suffix (a b : string) :
  String.substring (String.length a) (String.length b) (a +:+ b) = b.
Proof.
  induction a as [|x a IH]; [apply substring_all|].
  rewrite append_cons. cbn. exact IH.
Qed.

Lemma endswith_append (a p : string) : Py.endswith p (a +:+ p) = true.
Proof.
  unfold Py.endswith. rewrite length_append.
  replace (String.length a + String.length p - String.length p)
    with (String.length a) by lia.
  rewrite substring_suffix, String.eqb_refl.
  rewrite andb_true_r. apply Nat.leb_le. lia.
Qed.

Lemma drop_end_append (a p : string) :
  Py.drop_end (String.length p) (a +:+ p) = a.
Proof.
  unfold Py.drop_end. rewrite length_append.
  replace (String.length a + String.length p - String.length p)
    with (String.length a) by lia.
  apply substring_prefix.
Qed.

(** X16. The directory a dependency is cloned into is the directory of
    the manager and the last component of the url. When that component
    ends in git the last four characters are cut off, whatever the
    character before git is: the suffix .git goes, and so does the end
    of any other name in git. In every other case nothing is cut. *)
Theorem repo_dir_of_url (directory url : string) :
  (forall stem c,
     basename url = stem +:+ String c "git" ->
     repo_dir_of directory url = directory +:+ "/" +:+ stem)
  /\ (Py.endswith "git" (directory +:+ "/" +:+ basename url) = false ->
      repo_dir_of directory url = directory +:+ "/" +:+ basename url).
Proof.
  unfold repo_dir_of. split.
  - intros stem c Hb. rewrite Hb.
    replace (directory +:+ "/" +:+ stem +:+ String c "git")
      with (((directory +:+ "/" +:+ stem) +:+ String c "") +:+ "git")
      by (rewrite !append_assoc; reflexivity).
    rewrite endswith_append.
    replace (((directory +:+ "/" +:+ stem) +:+ String c "") +:+ "git")
      with ((directory +:+ "/" +:+ stem) +:+ String c "git")
      by (rewrite !append_assoc; reflexivity).
    apply (drop_end_append (directory +:+ "/" +:+ stem) (String c "git")).
  - now intros ->.
Qed.

Lemma repo_dir_of_url_witness :
  repo_dir_of "/modules" "https://example.com/dep.git" = "/modules/dep"
  /\ repo_dir_of "/modules" "https://example.com/legit" = "/modules/l"
  /\ repo_dir_of "/modules" "https://example.com/dep" = "/modules/dep".
Proof.
  split; [|split].
  - apply (repo_dir_of_url "/modules" "https://example.com/dep.git"
             ) with (c := "."%char). reflexivity.
  - apply (repo_dir_of_url "/modules" "https://example.com/legit"
             ) with (c := "e"%char). reflexivity.
  - apply (repo_dir_of_url "/modules" "https://example.com/dep"). reflexivity.
Defined.

Section Discover.

Variable FS : Type.
Variable M : Type.
Variable walk : FS -> string -> list string.
Variable load_manifest : FS -> string -> result pyval.
Variable clone_repo : string -> string -> pyval -> FS -> FS * option exn.
Variable path_exists : FS -> string -> bool.
Variable glob : FS -> string -> string -> list string.
Variable ShellModule_new : string -> string -> string -> FS -> FS * result M.
Variable load_source :
  string -> string -> FS ->
  FS * result (list (string * (string -> string -> FS -> FS * result M))).
Variable directory : string.

(** A manifest that is not a mapping makes the body of the [try] raise
    before anything is done. *)
Lemma process_manifest_not_mapping (discover : string -> Disc FS M -> outcome FS M)
    (mod_dir : string) (s : Disc FS M) (config : pyval) :
  load_manifest (d_fs FS M s) mod_dir = Return config ->
  (forall entries, config <> PDict entries) ->
  exists what,
    process_manifest FS M load_manifest clone_repo path_exists glob ShellModule_new
      load_source directory discover mod_dir s
    = Raised FS M (TypeError what) s.
Proof.
  intros Hload Hnot. unfold process_manifest. rewrite Hload.
  destruct config as [|t|items|entries]; cbn [py_in getitem].
  - eauto.
  - destruct (Py.contains "deps" t); eauto.
  - destruct (existsb (is_str "deps") items); eauto.
  - now destruct (Hnot entries).
Qed.

(** No call takes a clone back: the list of the clones made only
    grows, whichever way a call ends. *)
Lemma for_each_clones (body : string -> Disc FS M -> outcome FS M)
    (l : list string) (s : Disc FS M) :
  (forall x s0,
     length (d_clones FS M s0) <= length (d_clones FS M (final FS M (body x s0)))) ->
  length (d_clones FS M s)
  <= length (d_clones FS M (final FS M (for_each FS M body l s))).
Proof.
  intros Hb. revert s. induction l as [|x l IH]; intros s; cbn [for_each].
  - cbn. lia.
  - specialize (Hb x s). destruct (body x s) as [s'|e s']; cbn [final] in Hb |- *.
    + etransitivity; [exact Hb | apply IH].
    + exact Hb.
Qed.

Lemma check_module_sh_clones (candidate : string) (s : Disc FS M) :
  length (d_clones FS M s)
  <= length (d_clones FS M
               (final FS M (check_module_sh FS M ShellModule_new candidate s))).
Proof.
  unfold check_module_sh.
  destruct (ShellModule_new _ _ _ _) as [fs [m|e]]; cbn; lia.
Qed.

Lemma register_classes_clones (candidate : string)
    (classes : list (string * (string -> string -> FS -> FS * result M)))
    (s : Disc FS M) :
  length (d_clones FS M s)
  <= length (d_clones FS M (final FS M (register_classes FS M candidate classes s))).
Proof.
  revert s. induction classes as [|[cls_name cls] classes IH]; intros s;
    cbn [register_classes].
  - cbn. lia.
  - destruct (cls _ _ _) as [fs [m|e]].
    + etransitivity; [|apply IH]. cbn. lia.
    + cbn. lia.
Qed.

Lemma check_module_py_clones (candidate : string) (s : Disc FS M) :
  length (d_clones FS M s)
  <= length (d_clones FS M
               (final FS M (check_module_py FS M load_source candidate s))).
Proof.
  unfold check_module_py.
  destruct (load_source _ _ _) as [fs [classes|e]].
  - etransitivity; [|apply register_classes_clones]. cbn. lia.
  - cbn. lia.
Qed.

Lemma find_modules_clones (dir : string) (language : pyval) (s : Disc FS M) :
  length (d_clones FS M s)
  <= length (d_clones FS M
               (final FS M (find_modules FS M path_exists glob ShellModule_new
                              load_source dir language s))).
Proof.
  unfold find_modules.
  destruct (negb (path_exists (d_fs FS M s) dir)); [cbn; lia|].
  destruct (py_in "bash" language) as [[|]|e].
  - apply for_each_clones, check_module_sh_clones.
  - apply for_each_clones, check_module_py_clones.
  - cbn. lia.
Qed.

Section Growing.

Variable discover : string -> Disc FS M -> outcome FS M.
Hypothesis discover_clones :
  forall d s,
    length (d_clones FS M s) <= length (d_clones FS M (final FS M (discover d s))).

Lemma install_module_clones (url version : pyval) (s : Disc FS M) :
  length (d_clones FS M s)
  <= length (d_clones FS M
               (final FS M (install_module FS M clone_repo directory discover
                              url version s))).
Proof.
  unfold install_module. destruct url as [|u|items|entries]; try (cbn; lia).
  destruct (clone_repo _ _ _ _) as [fs [e|]].
  - cbn. rewrite length_app. lia.
  - etransitivity; [|apply discover_clones]. cbn. rewrite length_app. lia.
Qed.

Lemma process_deps_loop_clones (deps : pyval) (items : list pyval) (s : Disc FS M) :
  length (d_clones FS M s)
  <= length (d_clones FS M
               (final FS M (process_deps_loop FS M clone_repo directory discover
                              deps items s))).
Proof.
  revert s. induction items as [|dep items IH]; intros s; cbn [process_deps_loop].
  - cbn. lia.
  - destruct (getitem dep "url") as [url|e]; [|cbn; lia].
    destruct (py_in "version" deps) as [has_version|e]; [|cbn; lia].
    destruct (if has_version then getitem dep "version" else Return PNone)
      as [version|e]; [|cbn; lia].
    pose proof (install_module_clones url version (add_log FS M (Fetching url) s))
      as Hi.
    destruct (install_module _ _ _ _ _ _ _ _) as [s2|e s2]; cbn [final] in Hi |- *.
    + etransitivity; [exact Hi | apply IH].
    + exact Hi.
Qed.

Lemma process_module_deps_clones (deps : pyval) (s : Disc FS M) :
  length (d_clones FS M s)
  <= length (d_clones FS M
               (final FS M (process_module_deps FS M clone_repo directory discover
                              deps s))).
Proof.
  unfold process_module_deps. destruct (py_iter deps) as [items|e]; [|cbn; lia].
  apply process_deps_loop_clones.
Qed.

(** What follows the dependencies of a manifest takes no clone back. *)
Lemma after_deps_clones (mod_dir : string) (config : pyval) (o : outcome FS M) :
  length (d_clones FS M (final FS M o))
  <= length (d_clones FS M
               (final FS M
                  match o with
                  | Done _ _ s1 =>
                      match getitem config "language" with
                      | Raise e => Raised FS M e s1
                      | Return language =>
                          find_modules FS M path_exists glob ShellModule_new
                            load_source mod_dir language s1
                      end
                  | Raised _ _ e s1 => Raised FS M e s1
                  end)).
Proof.
  destruct o as [s1|e s1]; cbn [final]; [|lia].
  destruct (getitem config "language") as [language|e]; [|cbn; lia].
  apply find_modules_clones.
Qed.

Lemma process_manifest_clones (mod_dir : string) (s : Disc FS M) :
  length (d_clones FS M s)
  <= length (d_clones FS M
               (final FS M (process_manifest FS M load_manifest clone_repo
                              path_exists glob ShellModule_new load_source
                              directory discover mod_dir s))).
Proof.
  unfold process_manifest.
  destruct (load_manifest (d_fs FS M s) mod_dir) as [config|e]; [|cbn; lia].
  destruct (py_in "deps" config) as [[|]|e]; [| |cbn; lia].
  - destruct (getitem config "deps") as [deps|e].
    + etransitivity; [apply (process_module_deps_clones deps s)|].
      pose proof (after_deps_clones mod_dir config
                    (process_module_deps FS M clone_repo directory discover deps s))
        as H.
      destruct (process_module_deps _ _ _ _ _ _ _) as [s1|e s1]; exact H.
    + cbn. lia.
  - exact (after_deps_clones mod_dir config (Done FS M s)).
Qed.

(** What follows a directory in the loop takes no clone back. *)
Lemma discover_dirs_cons_clones (mod_dir : string) (rest : list string)
    (s : Disc FS M)
    (IH : forall s0,
        length (d_clones FS M s0)
        <= length (d_clones FS M
                     (final FS M (discover_dirs FS M load_manifest clone_repo
                                    path_exists glob ShellModule_new load_source
                                    directory discover rest s0)))) :
  length (d_clones FS M
            (final FS M (process_manifest FS M load_manifest clone_repo
                           path_exists glob ShellModule_new load_source
                           directory discover mod_dir s)))
  <= length (d_clones FS M
               (final FS M (discover_dirs FS M load_manifest clone_repo
                              path_exists glob ShellModule_new load_source
                              directory discover (mod_dir :: rest) s))).
Proof.
  cbn [discover_dirs].
  destruct (process_manifest _ _ _ _ _ _ _ _ _ _ _ _) as [s1|ex s1]; cbn [final].
  - apply IH.
  - destruct (is_Exception ex); [|cbn; lia].
    etransitivity; [|apply IH]. cbn. lia.
Qed.

Lemma discover_dirs_clones (module_dirs : list string) (s : Disc FS M) :
  length (d_clones FS M s)
  <= length (d_clones FS M
               (final FS M (discover_dirs FS M load_manifest clone_repo
                              path_exists glob ShellModule_new load_source
                              directory discover module_dirs s))).
Proof.
  revert s. induction module_dirs as [|mod_dir rest IH]; intros s.
  - cbn. lia.
  - etransitivity; [apply (process_manifest_clones mod_dir s)|].
    now apply discover_dirs_cons_clones.
Qed.

End Growing.

Lemma discover_modules_clones (depth : nat) (dir : option string) (s : Disc FS M) :
  length (d_clones FS M s)
  <= length (d_clones FS M
               (final FS M (discover_modules FS M walk load_manifest clone_repo
                              path_exists glob ShellModule_new load_source
                              directory depth dir s))).
Proof.
  revert dir s. induction depth as [|depth IH]; intros dir s; cbn [discover_modules].
  - cbn. lia.
  - apply discover_dirs_clones. intros d s0. apply IH.
Qed.

(** With a dependency to clone in every directory scanned, every level
    of the recursion the interpreter allows makes a clone. *)
Lemma discover_modules_cycle
    (Hcycle : forall fs dir,
        exists mod_dir rest entries dep_entries more u,
          walk fs dir = mod_dir :: rest
          /\ load_manifest fs mod_dir = Return (PDict entries)
          /\ assoc "deps" entries = Some (PList (PDict dep_entries :: more))
          /\ assoc "url" dep_entries = Some (PStr u)
          /\ existsb (is_str "version") (PDict dep_entries :: more) = false
          /\ snd (clone_repo u (repo_dir_of directory u) PNone fs) = None)
    (depth : nat) (dir : option string) (s : Disc FS M) :
  length (d_clones FS M s) + depth
  <= length (d_clones FS M
               (final FS M (discover_modules FS M walk load_manifest clone_repo
                              path_exists glob ShellModule_new load_source
                              directory depth dir s))).
Proof.
  revert dir s. induction depth as [|depth IH]; intros dir s; cbn [discover_modules].
  - cbn. lia.
  - destruct (Hcycle (d_fs FS M s) (default directory dir))
      as (mod_dir & rest & entries & dep_entries & more & u
          & Hwalk & Hload & Hdeps & Hurl & Hver & Hclone).
    rewrite Hwalk.
    assert (Hmono : forall d s0,
               length (d_clones FS M s0)
               <= length (d_clones FS M
                            (final FS M
                               (discover_modules FS M walk load_manifest clone_repo
                                  path_exists glob ShellModule_new load_source
                                  directory depth (Some d) s0))))
      by (intros d s0; apply discover_modules_clones).
    etransitivity;
      [|apply discover_dirs_cons_clones; intros s0;
        now apply discover_dirs_clones].
    unfold process_manifest. rewrite Hload.
    cbn [py_in getitem]. rewrite Hdeps. rewrite bool_decide_eq_true_2 by eauto.
    unfold process_module_deps. cbn [py_iter].
    rewrite DiscoveryProps.process_deps_loop_unversioned by exact Hver.
    rewrite Hurl. unfold install_module. cbn [d_fs add_log].
    destruct (clone_repo u (repo_dir_of directory u) PNone (d_fs FS M s))
      as [fs' r].
    cbn in Hclone. subst r.
    match goal with
    | |- context [discover_modules FS M walk load_manifest clone_repo path_exists
                    glob ShellModule_new load_source directory depth ?d ?s2] =>
        pose proof (IH d s2) as Hrec;
        destruct (discover_modules FS M walk load_manifest clone_repo path_exists
                    glob ShellModule_new load_source directory depth d s2)
          as [s3|e3 s3]
    end; cbn [final d_clones add_clone with_fs add_log] in Hrec;
      rewrite length_app in Hrec; cbn [length] in Hrec.
    + pose proof (process_deps_loop_clones _ Hmono
                    (PList (PDict dep_entries :: more)) more s3) as Hloop.
      pose proof (after_deps_clones mod_dir (PDict entries)
                    (process_deps_loop FS M clone_repo directory
                       (fun d => discover_modules FS M walk load_manifest clone_repo
                                   path_exists glob ShellModule_new load_source
                                   directory depth (Some d))
                       (PList (PDict dep_entries :: more)) more s3)) as Hafter.
      cbn [getitem] in Hafter.
      destruct (process_deps_loop _ _ _ _ _ _ _ _) as [s4|e4 s4];
        cbn [final] in Hloop, Hafter |- *; lia.
    + cbn [final]. lia.
Qed.

End Discover.

(** X17. A manifest that [yaml.load] reads as anything but a mapping (a
    string, a list, nothing) is skipped: the directory leaves one entry
    in the log and nothing else, and discovery goes on with the next
    directory. *)
Theorem manifest_not_mapping_skipped
    (FS M : Type)
    (load_manifest : FS -> string -> result pyval)
    (clone_repo : string -> string -> pyval -> FS -> FS * option exn)
    (path_exists : FS -> string -> bool)
    (glob : FS -> string -> string -> list string)
    (ShellModule_new : string -> string -> string -> FS -> FS * result M)
    (load_source :
       string -> string -> FS ->
       FS * result (list (string * (string -> string -> FS -> FS * result M))))
    (directory : string)
    (discover : string -> Disc FS M -> outcome FS M)
    (mod_dir : string) (rest : list string) (s : Disc FS M) (config : pyval) :
  load_manifest (d_fs FS M s) mod_dir = Return config ->
  (forall entries, config <> PDict entries) ->
  exists e,
    discover_dirs FS M load_manifest clone_repo path_exists glob ShellModule_new
      load_source directory discover (mod_dir :: rest) s
    = discover_dirs FS M load_manifest clone_repo path_exists glob ShellModule_new
        load_source directory discover rest (add_log FS M (CannotProcess e) s).
Proof.
  intros Hload Hnot.
  destruct (process_manifest_not_mapping FS M load_manifest clone_repo path_exists
              glob ShellModule_new load_source directory discover mod_dir s config
              Hload Hnot) as [what He].
  exists (TypeError what). cbn [discover_dirs]. now rewrite He.
Qed.

Lemma manifest_not_mapping_skipped_witness :
  exists e,
    discover_dirs (list string) string
      (fun _ _ => Return (PStr "language: bash, deps: none"))
      Examples.clone_ok Examples.tree_exists Examples.tree_glob Examples.tree_shell
      Examples.tree_source "/modules" (fun _ s => Done _ _ s) ["/modules/b"]
      Examples.tree_start
    = Done _ _ (add_log _ _ (CannotProcess e) Examples.tree_start).
Proof.
  destruct (manifest_not_mapping_skipped (list string) string
              (fun _ _ => Return (PStr "language: bash, deps: none"))
              Examples.clone_ok Examples.tree_exists Examples.tree_glob
              Examples.tree_shell Examples.tree_source "/modules"
              (fun _ s => Done _ _ s) "/modules/b" [] Examples.tree_start
              (PStr "language: bash, deps: none"))
    as [e He]; [reflexivity | discriminate |].
  exists e. exact He.
Defined.

(** X18. A manifest with dependencies and no language: the dependencies
    are installed first, and only then does the missing key raise, so
    that the clones are made although the modules of the directory are
    never loaded. *)
Theorem manifest_without_language
    (FS M : Type)
    (load_manifest : FS -> string -> result pyval)
    (clone_repo : string -> string -> pyval -> FS -> FS * option exn)
    (path_exists : FS -> string -> bool)
    (glob : FS -> string -> string -> list string)
    (ShellModule_new : string -> string -> string -> FS -> FS * result M)
    (load_source :
       string -> string -> FS ->
       FS * result (list (string * (string -> string -> FS -> FS * result M))))
    (directory : string)
    (discover : string -> Disc FS M -> outcome FS M)
    (mod_dir : string) (rest : list string) (s s1 : Disc FS M)
    (entries : list (string * pyval)) (deps : pyval) :
  load_manifest (d_fs FS M s) mod_dir = Return (PDict entries) ->
  assoc "language" entries = None ->
  assoc "deps" entries = Some deps ->
  process_module_deps FS M clone_repo directory discover deps s = Done FS M s1 ->
  discover_dirs FS M load_manifest clone_repo path_exists glob ShellModule_new
    load_source directory discover (mod_dir :: rest) s
  = discover_dirs FS M load_manifest clone_repo path_exists glob ShellModule_new
      load_source directory discover rest
      (add_log FS M (CannotProcess (KeyError "language")) s1).
Proof.
  intros Hload Hlang Hdeps Hproc. cbn [discover_dirs]. unfold process_manifest.
  rewrite Hload. cbn [py_in getitem]. rewrite Hdeps, Hlang.
  rewrite bool_decide_eq_true_2 by eauto. now rewrite Hproc.
Qed.

Lemma manifest_without_language_witness :
  discover_dirs (list string) string
    (fun _ _ => Return (PDict [("deps", PList [Examples.dep_decl])]))
    Examples.clone_ok Examples.tree_exists Examples.tree_glob Examples.tree_shell
    Examples.tree_source "/modules" (fun _ s => Done _ _ s) ["/modules/a"]
    Examples.tree_start
  = Done _ _
      {| d_fs := ["/modules/dep"]; d_modules := ∅;
         d_log := [Fetching (PStr "https://example.com/dep.git");
                   Cloning "/modules/dep";
                   CannotProcess (KeyError "language")];
         d_clones := [("https://example.com/dep.git", "/modules/dep", PNone)] |}.
Proof.
  apply (manifest_without_language (list string) string
           (fun _ _ => Return (PDict [("deps", PList [Examples.dep_decl])]))
           Examples.clone_ok Examples.tree_exists Examples.tree_glob
           Examples.tree_shell Examples.tree_source "/modules"
           (fun _ s => Done _ _ s) "/modules/a" [] Examples.tree_start
           {| d_fs := ["/modules/dep"]; d_modules := ∅;
              d_log := [Fetching (PStr "https://example.com/dep.git");
                        Cloning "/modules/dep"];
              d_clones := [("https://example.com/dep.git", "/modules/dep", PNone)] |}
           [("deps", PList [Examples.dep_decl])] (PList [Examples.dep_decl]));
    reflexivity.
Defined.



Lemma ascii_eqb_refl (c : ascii) : Ascii.eqb c c = true.
Proof. now apply Ascii.eqb_eq. Qed.

Lemma split_append_sep (c : ascii) (a b : string) :
  Py.split c (a +:+ String c b) = Py.split c a ++ Py.split c b.
Proof.
  induction a as [|x a IH].
  - rewrite append_nil_l. cbn [Py.split]. now rewrite ascii_eqb_refl.
  - rewrite append_cons. cbn [Py.split]. destruct (Ascii.eqb x c).
    + now rewrite IH.
    + rewrite IH. destruct (Py.split c a) as [|t ts] eqn:Hs;
        [now apply split_nonempty in Hs | reflexivity].
Qed.

Lemma last_app_nonempty (l1 l2 : list string) (d : string) :
  l2 <> [] -> List.last (l1 ++ l2) d = List.last l2 d.
Proof.
  intros H. induction l1 as [|x l1 IH]; [reflexivity|].
  cbn [app List.last]. destruct (l1 ++ l2) eqn:E; [|exact IH].
  apply app_eq_nil in E as [_ E]. contradiction.
Qed.

Lemma has_char_append (c : ascii) (a b : string) :
  Py.has_char c (a +:+ b) = Py.has_char c a || Py.has_char c b.
Proof.
  induction a as [|x a IH]; [reflexivity|].
  rewrite append_cons. cbn [Py.has_char]. now destruct (Ascii.eqb x c).
Qed.

Lemma last_char_append (a b : string) :
  b <> "" -> Py.last_char (a +:+ b) = Py.last_char b.
Proof.
  intros Hb. induction a as [|x a IH]; [reflexivity|].
  rewrite append_cons. cbn [Py.last_char].
  destruct (a +:+ b) eqn:E; [|exact IH].
  destruct a; [now rewrite append_nil_l in E | discriminate].
Qed.

Lemma has_char_last (c : ascii) (s : string) :
  Py.has_char c s = false -> Py.last_char s <> Some c.
Proof.
  induction s as [|x r IH]; [discriminate|]. cbn [Py.has_char Py.last_char].
  destruct (Ascii.eqb x c) eqn:E; [discriminate|]. intros H. destruct r.
  - intros [= ->]. now rewrite ascii_eqb_refl in E.
  - now apply IH.
Qed.

Lemma rstrip_char_append (c : ascii) (d : string) :
  rstrip_char c (d +:+ String c "") = rstrip_char c d.
Proof.
  induction d as [|x d IH].
  - rewrite append_nil_l. cbn. now rewrite ascii_eqb_refl.
  - rewrite append_cons. cbn [rstrip_char]. now rewrite IH.
Qed.

Lemma rstrip_char_keep (c : ascii) (d : string) :
  Py.last_char d <> Some c -> rstrip_char c d = d.
Proof.
  induction d as [|x r IH]; [reflexivity|]. cbn [Py.last_char rstrip_char].
  destruct r as [|y r'].
  - intros H. cbn. destruct (Ascii.eqb x c) eqn:E; [|reflexivity].
    apply Ascii.eqb_eq in E as ->. contradiction.
  - intros H. now rewrite (IH H).
Qed.

Lemma basename_join (dir file : string) :
  Py.has_char "/" file = false -> basename (dir +:+ "/" +:+ file) = file.
Proof.
  intros H. unfold basename.
  change (dir +:+ "/" +:+ file) with (dir +:+ String "/" file).
  rewrite split_append_sep, (split_no_separator _ _ H).
  now rewrite last_app_nonempty.
Qed.

Lemma dirname_join (dir file : string) :
  Py.has_char "/" file = false ->
  dir <> "" -> Py.last_char dir <> Some "/"%char ->
  dirname (dir +:+ "/" +:+ file) = dir.
Proof.
  intros Hf Hne Hlast. unfold dirname.
  change (dir +:+ "/" +:+ file) with (dir +:+ String "/" file).
  rewrite split_append_sep, (split_no_separator _ _ Hf).
  rewrite length_app. cbn [length].
  destruct (Py.split "/" dir) as [|t ts] eqn:Hs; [now apply split_nonempty in Hs|].
  replace (Nat.leb (length (t :: ts) + 1) 1) with false
    by (symmetry; apply Nat.leb_gt; cbn; lia).
  rewrite removelast_last, <- Hs, (EnvMore.join_split "/" dir).
  rewrite (rstrip_char_append "/" dir), (rstrip_char_keep _ _ Hlast).
  destruct dir; [contradiction | reflexivity].
Qed.

(** X26. A script [stem].sh in a directory whose last component [comp]
    holds no dot is registered under the name [comp].[stem], and its
    [ShellModule] is built with that name, the directory and the path of
    the script; when building it raises, nothing is registered. *)
Theorem check_module_sh_name
    (FS M : Type)
    (ShellModule_new : string -> string -> string -> FS -> FS * result M)
    (parent comp stem : string) (s : Disc FS M) :
  Py.has_char "/" comp = false ->
  Py.has_char "." comp = false ->
  comp <> "" ->
  Py.has_char "/" stem = false ->
  let dir := parent +:+ "/" +:+ comp in
  let candidate := dir +:+ "/" +:+ stem +:+ ".sh" in
  let name := comp +:+ "." +:+ stem in
  check_module_sh FS M ShellModule_new candidate s
  = match ShellModule_new name dir candidate (d_fs FS M s) with
    | (fs, Return m) => Done FS M (register FS M name m (with_fs FS M fs s))
    | (fs, Raise e) => Raised FS M e (with_fs FS M fs s)
    end.
Proof.
  intros Hc Hdot Hne Hs dir candidate name.
  assert (Hfile : Py.has_char "/" (stem +:+ ".sh") = false)
    by (rewrite has_char_append, Hs; reflexivity).
  assert (Hdirlast : Py.last_char dir <> Some "/"%char).
  { subst dir. change (parent +:+ "/" +:+ comp) with (parent +:+ String "/" comp).
    rewrite last_char_append by discriminate. cbn [Py.last_char].
    destruct comp as [|y r]; [contradiction|]. fold (Py.last_char (String y r)).
    now apply has_char_last. }
  assert (Hdirne : dir <> "").
  { subst dir. destruct parent; discriminate. }
  assert (Hdirname : dirname candidate = dir) by (now apply dirname_join).
  assert (Hbase : basename candidate = stem +:+ ".sh") by (now apply basename_join).
  assert (Hshort : short_name candidate = comp).
  { unfold short_name, module_name. rewrite Hdirname. subst dir.
    change (parent +:+ "/" +:+ comp) with (parent +:+ String "/" comp).
    rewrite split_append_sep, (split_no_separator _ _ Hc).
    rewrite last_app_nonempty by discriminate. cbn [List.last].
    change ("cct.module." +:+ comp) with ("cct.module" +:+ String "." comp).
    rewrite split_append_sep, (split_no_separator _ _ Hdot).
    now rewrite last_app_nonempty. }
  unfold check_module_sh. rewrite Hshort, Hbase, Hdirname.
  pose proof (drop_end_append stem ".sh") as Hdrop. cbn [String.length] in Hdrop.
  rewrite Hdrop. reflexivity.
Qed.

Lemma check_module_sh_name_witness :
  check_module_sh (list string) string Examples.tree_shell
    "/modules/b/tool.sh" Examples.tree_start
  = Done _ _ (register _ _ "b.tool" "b.tool" Examples.tree_start).
Proof.
  apply (check_module_sh_name (list string) string Examples.tree_shell
           "/modules" "b" "tool" Examples.tree_start);
    reflexivity || discriminate.
Defined.

End DiscoveryMore.

(** ** Further properties of the script introspector *)

Module ScriptMore.

Import Script StringFacts.

Lemma returns_well_formed (lines : list string) (seen : bool)
    (st st' : DiscoverState) :
  (seen = false -> ds_names st = ∅) ->
  discover_lines st lines = Return st' ->
  well_formed seen lines = true.
Proof.
  revert seen st. induction lines as [|line rest IH]; intros seen st Hseen;
    [reflexivity|].
  cbn [discover_lines well_formed]. unfold discover_line.
  destruct (classify line).
  - apply (IH seen). exact Hseen.
  - destruct (function_name line) as [n|e]; [|discriminate].
    apply (IH true). discriminate.
  - destruct (param_name line) as [pn|e]; [|discriminate].
    destruct (ds_names st !! ds_name st) as [f|] eqn:Hf; [|discriminate].
    destruct (param_search line) as [ref|]; [|discriminate].
    destruct seen.
    + apply (IH true). discriminate.
    + rewrite (Hseen eq_refl), lookup_empty in Hf. discriminate.
  - apply (IH seen). exact Hseen.
Qed.

(** X20. [_discover] reads a script to the end exactly when every line
    it takes for a function definition has a second word and every line
    it takes for a parameter reference has a word before its first equals
    sign and comes after some function definition; and what it raises
    otherwise is an [IndexError] or a [KeyError]. *)
Theorem discover_returns_iff (lines : list string) :
  ((exists names, _discover lines = Return names) <-> well_formed false lines = true)
  /\ (forall e, _discover lines = Raise e ->
        e = IndexError \/ exists key, e = KeyError key).
Proof.
  split; [split|].
  - intros [names H]. unfold _discover in H.
    destruct (discover_lines discover_init lines) as [st|e] eqn:Hrun; [|discriminate].
    now apply (returns_well_formed lines false discover_init st).
  - intros H.
    destruct (ScriptProps.well_formed_returns lines false discover_init H) as [st Hst];
      [discriminate|].
    exists (ds_names st). unfold _discover. now rewrite Hst.
  - unfold _discover. generalize discover_init.
    induction lines as [|line rest IH]; intros st e; [discriminate|].
    cbn [discover_lines].
    destruct (discover_line st line) as [st1|e1] eqn:H1; [apply IH|].
    intros [= <-]. unfold discover_line in H1.
    destruct (classify line); try discriminate.
    + unfold function_name in H1.
      destruct (Py.words line) as [|? [|? ?]]; try discriminate;
        injection H1 as <-; now left.
    + destruct (param_name line) as [pn|e2] eqn:Hp.
      * destruct (ds_names st !! ds_name st); [|injection H1 as <-; eauto].
        destruct (param_search line); [discriminate | injection H1 as <-; eauto].
      * injection H1 as <-. unfold param_name in Hp.
        destruct (Py.split "=" line) as [|lhs ?]; [injection Hp as <-; now left|].
        destruct (rev (Py.words lhs)); [injection Hp as <-; now left | discriminate].
Qed.

Lemma discover_returns_iff_witness :
  exists names, _discover Examples.doit_script = Return names.
Proof.
  destruct (discover_returns_iff Examples.doit_script) as [[_ H] _].
  apply H. reflexivity.
Defined.

Lemma names_keyed (lines : list string) (st st' : DiscoverState) :
  (forall k f, ds_names st !! k = Some f -> fd_name f = k) ->
  discover_lines st lines = Return st' ->
  forall k f, ds_names st' !! k = Some f -> fd_name f = k.
Proof.
  revert st. induction lines as [|line rest IH]; intros st Hinv.
  - now intros [= <-].
  - cbn [discover_lines].
    destruct (discover_line st line) as [st1|e] eqn:H1; [|discriminate].
    apply IH. unfold discover_line in H1. destruct (classify line).
    + now injection H1 as <-.
    + destruct (function_name line) as [n|e]; [|discriminate].
      injection H1 as <-. cbn [ds_names]. intros k f.
      destruct (decide (n = k)) as [->|Hne].
      * rewrite lookup_insert_eq. now intros [= <-].
      * rewrite lookup_insert_ne by exact Hne. apply Hinv.
    + destruct (param_name line) as [pn|e]; [|discriminate].
      destruct (ds_names st !! ds_name st) as [g|] eqn:Hg; [|discriminate].
      destruct (param_search line) as [ref|]; [|discriminate].
      injection H1 as <-. cbn [ds_names]. intros k f.
      destruct (decide (ds_name st = k)) as [Heq|Hne].
      * rewrite Heq, lookup_insert_eq. intros [= <-]. cbn.
        rewrite Heq in Hg. now apply Hinv.
      * rewrite lookup_insert_ne by exact Hne. apply Hinv.
    + now injection H1 as <-.
Qed.

Lemma names_origin (lines : list string) (st st' : DiscoverState) (k : string) :
  discover_lines st lines = Return st' ->
  is_Some (ds_names st' !! k) <->
  is_Some (ds_names st !! k) \/ Exists (defines k) lines.
Proof.
  revert st. induction lines as [|line rest IH]; intros st.
  - intros [= <-]. split; [now left|]. intros [H|H]; [exact H | inversion H].
  - cbn [discover_lines].
    destruct (discover_line st line) as [st1|e] eqn:H1; [|discriminate].
    intros Hrest. rewrite (IH _ Hrest), Exists_cons.
    assert (Hstep : is_Some (ds_names st1 !! k)
                    <-> is_Some (ds_names st !! k) \/ defines k line).
    { unfold discover_line, defines in *. destruct (classify line) eqn:Hc.
      - injection H1 as <-. cbn. split; [now left|]. now intros [H|[[=] _]].
      - destruct (function_name line) as [n|e] eqn:Hn; [|discriminate].
        injection H1 as <-. cbn [ds_names].
        destruct (decide (n = k)) as [->|Hne].
        + rewrite lookup_insert_eq. split; [now right | eauto].
        + rewrite lookup_insert_ne by exact Hne.
          split; [now left|]. intros [H|[_ [= H]]]; [exact H | contradiction].
      - destruct (param_name line) as [pn|e]; [|discriminate].
        destruct (ds_names st !! ds_name st) as [g|] eqn:Hg; [|discriminate].
        destruct (param_search line) as [ref|]; [|discriminate].
        injection H1 as <-. cbn [ds_names].
        destruct (decide (ds_name st = k)) as [Heq|Hne].
        + rewrite Heq, lookup_insert_eq. rewrite Heq in Hg. rewrite Hg.
          split; [now left | eauto].
        + rewrite lookup_insert_ne by exact Hne.
          split; [now left|]. now intros [H|[[=] _]].
      - injection H1 as <-. cbn. split; [now left|]. now intros [H|[[=] _]]. }
    rewrite Hstep. tauto.
Qed.

(** X21. The table [_discover] returns holds an entry for a name exactly
    when some line of the script defines a function of that name, and
    every entry carries the name it is filed under. *)
Theorem discover_registers_definitions (lines : list string)
    (names : gmap string FunctionDescriptor) :
  _discover lines = Return names ->
  (forall name, is_Some (names !! name) <-> Exists (defines name) lines)
  /\ (forall name f, names !! name = Some f -> fd_name f = name).
Proof.
  unfold _discover.
  destruct (discover_lines discover_init lines) as [st|e] eqn:Hrun; [|discriminate].
  intros [= <-]. split.
  - intros name. rewrite (names_origin _ _ _ name Hrun). cbn.
    rewrite lookup_empty. split; [|now right].
    intros [[x Hx]|H]; [discriminate | exact H].
  - eapply names_keyed; [|exact Hrun].
    intros k g H. cbn in H. rewrite lookup_empty in H. discriminate.
Qed.

Lemma discover_registers_definitions_witness :
  match _discover Examples.doit_script with
  | Return names => is_Some (names !! "doit")
  | Raise _ => False
  end.
Proof.
  destruct (_discover Examples.doit_script) as [names|e] eqn:H.
  - apply (discover_registers_definitions _ _ H).
    apply Exists_exists. exists ("function doit() {" +:+ nl). split.
    + apply list_elem_of_In. vm_compute. do 4 right. left. reflexivity.
    + split; reflexivity.
  - vm_compute in H. discriminate.
Defined.

Lemma take_digits_all (s : string) : More.all_digits (take_digits s) = true.
Proof.
  induction s as [|a r IH]; [reflexivity|]. cbn [take_digits].
  destruct (is_digit a) eqn:Ha; [|reflexivity]. cbn. now rewrite Ha.
Qed.

Lemma param_search_spec (line ref : string) :
  param_search line = Some ref ->
  exists digits, ref = "$" +:+ digits /\ digits <> "" /\ More.all_digits digits = true.
Proof.
  induction line as [|a r IH]; [discriminate|]. cbn [param_search].
  destruct (Ascii.eqb a "$") eqn:Ha; [|exact IH].
  apply Ascii.eqb_eq in Ha as ->.
  destruct (take_digits r) as [|d ds] eqn:Hd; [exact IH|].
  intros [= <-]. exists (String d ds). split; [reflexivity|]. split; [discriminate|].
  rewrite <- Hd. apply take_digits_all.
Qed.

Lemma params_origin (lines : list string) (st st' : DiscoverState)
    (n p v : string) (f' : FunctionDescriptor) :
  discover_lines st lines = Return st' ->
  ds_names st' !! n = Some f' ->
  fd_params f' !! p = Some v ->
  (exists f, ds_names st !! n = Some f /\ fd_params f !! p = Some v)
  \/ Exists (More.records p v) lines.
Proof.
  revert st. induction lines as [|line rest IH]; intros st.
  - intros [= <-] Hf Hp. left. eauto.
  - cbn [discover_lines].
    destruct (discover_line st line) as [st1|e] eqn:H1; [|discriminate].
    intros Hrest Hf Hp.
    destruct (IH _ Hrest Hf Hp) as [(f1 & Hf1 & Hp1)|Hex];
      [|right; now apply Exists_cons_tl].
    unfold discover_line in H1. destruct (classify line) eqn:Hc.
    + injection H1 as <-. left. eauto.
    + destruct (function_name line) as [m|e]; [|discriminate].
      injection H1 as <-. cbn [ds_names] in Hf1.
      destruct (decide (m = n)) as [->|Hne].
      * rewrite lookup_insert_eq in Hf1. injection Hf1 as <-.
        cbn in Hp1. rewrite lookup_empty in Hp1. discriminate.
      * rewrite lookup_insert_ne in Hf1 by exact Hne. left. eauto.
    + destruct (param_name line) as [pn|e] eqn:Hpn; [|discriminate].
      destruct (ds_names st !! ds_name st) as [g|] eqn:Hg; [|discriminate].
      destruct (param_search line) as [ref|] eqn:Hps; [|discriminate].
      injection H1 as <-. cbn [ds_names] in Hf1.
      destruct (decide (ds_name st = n)) as [Heq|Hne].
      * rewrite Heq, lookup_insert_eq in Hf1. injection Hf1 as <-.
        cbn [fd_params] in Hp1.
        destruct (decide (pn = p)) as [->|Hnp].
        -- rewrite lookup_insert_eq in Hp1. injection Hp1 as <-.
           right. apply Exists_cons_hd. now repeat split.
        -- rewrite lookup_insert_ne in Hp1 by exact Hnp.
           left. exists g. rewrite <- Heq. now split.
      * rewrite lookup_insert_ne in Hf1 by exact Hne. left. eauto.
    + injection H1 as <-. left. eauto.
Qed.

(** X22. Every parameter the table records for a function comes from a
    line of the script that [_discover] takes for a parameter reference:
    its name is the last word before the first equals sign of that line,
    and its value is the first positional reference of the line, a
    dollar sign followed by one or more digits. *)
Theorem discover_parameters_are_references (lines : list string)
    (names : gmap string FunctionDescriptor) :
  _discover lines = Return names ->
  forall name f p v,
    names !! name = Some f ->
    fd_params f !! p = Some v ->
    Exists (More.records p v) lines
    /\ exists digits,
         v = "$" +:+ digits /\ digits <> "" /\ More.all_digits digits = true.
Proof.
  unfold _discover.
  destruct (discover_lines discover_init lines) as [st|e] eqn:Hrun; [|discriminate].
  intros [= <-] name f p v Hf Hp.
  destruct (params_origin _ _ _ _ _ _ _ Hrun Hf Hp) as [(f0 & H0 & _)|Hex].
  - cbn in H0. rewrite lookup_empty in H0. discriminate.
  - split; [exact Hex|].
    apply Exists_exists in Hex as (line & _ & _ & _ & Hs).
    now apply param_search_spec in Hs.
Qed.

Lemma discover_parameters_are_references_witness :
  match _discover Examples.doit_script with
  | Return names =>
      forall f, names !! "doit" = Some f ->
                fd_params f !! "target" = Some "$1" ->
                Exists (More.records "target" "$1") Examples.doit_script
  | Raise _ => False
  end.
Proof.
  destruct (_discover Examples.doit_script) as [names|e] eqn:H.
  - intros f Hf Hp.
    apply (discover_parameters_are_references _ _ H "doit" f "target" "$1" Hf Hp).
  - vm_compute in H. discriminate.
Defined.

Lemma before_definitions (pre : list string) (st st' : DiscoverState) :
  Forall (fun line => classify line = Comment \/ classify line = Other) pre ->
  discover_lines st pre = Return st' ->
  ds_names st' = ds_names st /\ ds_name st' = ds_name st.
Proof.
  intros Hpre. revert st. induction Hpre as [|line pre Hline _ IH]; intros st.
  - now intros [= <-].
  - cbn [discover_lines]. unfold discover_line.
    destruct Hline as [-> | ->]; intros H; now destruct (IH _ H).
Qed.

Lemma before_definitions_returns (pre : list string) (st : DiscoverState) :
  Forall (fun line => classify line = Comment \/ classify line = Other) pre ->
  exists st', discover_lines st pre = Return st'.
Proof.
  intros Hpre. revert st. induction Hpre as [|line pre Hline _ IH]; intros st.
  - eauto.
  - cbn [discover_lines]. unfold discover_line.
    destruct Hline as [-> | ->]; apply IH.
Qed.

(** X23. A parameter reference that comes before the first function
    definition makes [_discover] raise [KeyError] for the empty name,
    whatever follows; and a line it takes for a function definition but
    that has no second word makes it raise [IndexError], the lines
    before having been read. *)
Theorem discover_raises (pre post : list string) (line : string) :
  (forall p,
     Forall (fun l => classify l = Comment \/ classify l = Other) pre ->
     classify line = ParamRef ->
     param_name line = Return p ->
     _discover (pre ++ line :: post) = Raise (KeyError ""))
  /\ (forall st,
        discover_lines discover_init pre = Return st ->
        classify line = FunctionDef ->
        length (Py.words line) < 2 ->
        _discover (pre ++ line :: post) = Raise IndexError).
Proof.
  split.
  - intros p Hpre Hc Hp. unfold _discover. rewrite ScriptProps.discover_lines_app.
    destruct (before_definitions_returns pre discover_init Hpre) as [st Hst].
    rewrite Hst. destruct (before_definitions _ _ _ Hpre Hst) as [Hn Hname].
    cbn [discover_lines]. unfold discover_line. rewrite Hc, Hp, Hn, Hname.
    cbn. now rewrite lookup_empty.
  - intros st Hst Hc Hw. unfold _discover. rewrite ScriptProps.discover_lines_app, Hst.
    cbn [discover_lines]. unfold discover_line, function_name. rewrite Hc.
    destruct (Py.words line) as [|? [|? ?]]; cbn in Hw; try reflexivity; lia.
Qed.

Lemma discover_raises_witness :
  _discover ["# usage" +:+ nl; "echo $1" +:+ nl; "function f() {" +:+ nl]
  = Raise (KeyError "")
  /\ _discover ["# doc" +:+ nl; "function" +:+ nl] = Raise IndexError.
Proof.
  split.
  - apply (discover_raises ["# usage" +:+ nl] ["function f() {" +:+ nl]
             ("echo $1" +:+ nl)) with (p := "$1").
    + repeat constructor.
    + reflexivity.
    + reflexivity.
  - apply (discover_raises ["# doc" +:+ nl] [] ("function" +:+ nl))
      with (st := {| ds_names := ∅; ds_comment := " doc" +:+ nl; ds_name := "" |}).
    + reflexivity.
    + reflexivity.
    + vm_compute. lia.
Defined.

Lemma blank_free_of_list (l : list ascii) :
  Forall (fun a => Py.is_space a = false) l ->
  More.blank_free (string_of_list_ascii l) = true.
Proof. induction 1 as [|a l Ha _ IH]; [reflexivity|]. cbn. now rewrite Ha, IH. Qed.

Lemma words_aux_blank_free (s : string) (cur : list ascii) :
  Forall (fun a => Py.is_space a = false) cur ->
  Forall (fun w => More.blank_free w = true) (Py.words_aux cur s).
Proof.
  revert cur. induction s as [|a r IH]; intros cur Hcur; cbn [Py.words_aux].
  - destruct cur; [constructor|]. constructor; [|constructor].
    apply blank_free_of_list. now apply List.Forall_rev.
  - destruct (Py.is_space a) eqn:Ha.
    + destruct cur; [apply IH; constructor|].
      constructor; [|apply IH; constructor].
      apply blank_free_of_list. now apply List.Forall_rev.
    + apply IH. now constructor.
Qed.

Lemma substring_blank_free (s : string) (n m : nat) :
  More.blank_free s = true -> More.blank_free (String.substring n m s) = true.
Proof.
  revert n m. induction s as [|a r IH]; intros n m H.
  - now destruct n, m.
  - cbn in H. apply andb_true_iff in H as [Ha Hr].
    destruct n as [|n]; cbn [String.substring].
    + destruct m as [|m]; [reflexivity|]. cbn. rewrite Ha. now apply IH.
    + now apply IH.
Qed.

Lemma function_name_blank_free (line name : string) :
  function_name line = Return name -> More.blank_free name = true.
Proof.
  unfold function_name, Py.words.
  pose proof (words_aux_blank_free line [] (List.Forall_nil _)) as H.
  destruct (Py.words_aux [] line) as [|w0 [|w l]]; try discriminate.
  intros [= <-]. apply Forall_cons in H as [_ H]. apply Forall_cons in H as [H _].
  now apply substring_blank_free.
Qed.

Lemma blank_free_last (s : string) :
  More.blank_free s = true -> Py.last_char s <> Some " "%char.
Proof.
  induction s as [|a r IH]; [discriminate|]. cbn [More.blank_free Py.last_char].
  intros H. apply andb_true_iff in H as [Ha Hr]. destruct r as [|b r'].
  - intros [= ->]. discriminate.
  - now apply IH.
Qed.

(** X24. On a shell module, substitution in the command of an operation
    defeats the dispatch: a command that holds a dollar sign reaches the
    lookup with a space at its end, which no attribute and no function
    name read from the script has, so the call raises "no such method"
    without the shell being started, whatever the variable stood for. *)
Theorem substituted_command_never_runs
    (World : Type)
    (_run_function : string -> list string -> World -> World * option exn)
    (ordinary : string -> option (result (Runner.Capability World)))
    (lines : list string) (names : gmap string FunctionDescriptor)
    (environ environment : gmap string string)
    (inst_state : State) (operation : Operation) (w : World) :
  _discover lines = Return names ->
  Py.has_char "$" (op_command operation) = true ->
  ordinary (op_command (Runner._process_environment environ environment operation))
  = None ->
  let rr := Runner.Module_run
              (ShellModule_behaviour World _run_function ordinary names)
              inst_state
              (Runner._process_environment environ environment operation) w in
  Runner.rr_raised rr = Some (Exception_ "no such method")
  /\ Runner.rr_world rr = w
  /\ op_state (Runner.rr_operation rr) = Error
  /\ Runner.rr_state rr = Error.
Proof.
  intros Hdisc Hdollar Hord rr. subst rr.
  set (operation' := Runner._process_environment environ environment operation) in *.
  assert (Hlast : Py.last_char (op_command operation') = Some " "%char).
  { subst operation'. unfold Runner._process_environment. cbn [op_command].
    rewrite Hdollar. apply EnvProps.replace_variables_ends_with_space. }
  assert (Hnone : names !! op_command operation' = None).
  { destruct (names !! op_command operation') as [f|] eqn:Hf; [|reflexivity].
    exfalso. unfold _discover in Hdisc.
    destruct (discover_lines discover_init lines) as [st|e] eqn:Hrun; [|discriminate].
    injection Hdisc as <-.
    assert (Hs : is_Some (ds_names st !! op_command operation')) by eauto.
    apply (names_origin _ _ _ _ Hrun) in Hs as [[x Hx]|Hex].
    - cbn in Hx. rewrite lookup_empty in Hx. discriminate.
    - apply Exists_exists in Hex as (line & _ & _ & Hn).
      apply function_name_blank_free, blank_free_last in Hn. contradiction. }
  unfold Runner.Module_run. cbn [ShellModule_behaviour Runner.resolve].
  rewrite Hord. cbn [wrapper Runner.cap_params Runner.cap_call].
  destruct (Dispatch.bind_args [] (op_args operation')) as [args kwargs].
  rewrite Hnone. cbn. now repeat split.
Qed.

Lemma substituted_command_never_runs_witness :
  Runner.rr_raised
    (Runner.Module_run
       (ShellModule_behaviour Examples.Calls
          (fun name args w => (w ++ [(name, args)], None)) (fun _ => None)
          {[ "doit" := {| fd_name := "doit";
                          fd_comment := " Does it." +:+ nl +:+ " Twice." +:+ nl;
                          fd_params := {[ "target" := "$1" ]} |} ]})
       NotRun
       (Runner._process_environment {["CMD" := "doit"]} ∅
          (Operation_init "$CMD" (Some ["x"])))
       [])
  = Some (Exception_ "no such method").
Proof.
  apply (substituted_command_never_runs Examples.Calls
           (fun name args w => (w ++ [(name, args)], None)) (fun _ => None)
           Examples.doit_script
           {[ "doit" := {| fd_name := "doit";
                           fd_comment := " Does it." +:+ nl +:+ " Twice." +:+ nl;
                           fd_params := {[ "target" := "$1" ]} |} ]}
           {["CMD" := "doit"]} ∅ NotRun (Operation_init "$CMD" (Some ["x"])) []);
    reflexivity.
Defined.

End ScriptMore.
